(** * The parallel kernel layer of the matrix computation engine

    A shallow embedding of [kernels.c] (the row partitioner and the four
    multithreaded kernels [mv_mt], [mm_mt], [dt_mt], [ax_mt]) and of the
    allocators of [matrix.c], followed by the properties the design
    document states about them.  The embedding also covers the cell
    accessors of [matrix.h], the release functions and the binary file
    format of [matrix.c], and the operation names of [main.c]; their
    properties follow those of the design document.  A second embedding
    of the workers and kernels, with every dereference checked, serves to
    state that no access leaves a block.

    Conventions of the embedding.
    - A [size_t] value is a [Z] in [0, 2^64); every [size_t] operation of
      the source is followed by an explicit reduction [size_t] (modulo
      2^64).  An [int] is a [Z]; the cast [(int)] is [int].
    - A [double *] buffer is [option (list F)]: [None] is the null
      pointer, [Some l] a block of [length l] cells.  [F] is any carrier
      with a zero, an addition and a multiplication ([Scalar]); no law is
      assumed unless a statement asks for exact arithmetic
      ([ExactScalar]), so what is proved over [Scalar] holds for the
      binary64 doubles of the source ([double_Scalar]) bit for bit.
      Reads outside a block yield [zero] and writes outside a block are
      dropped; on well-formed arguments ([mat_wf], [vec_wf]) neither
      happens.
    - The struct pointers handed to a kernel are the addresses of live
      structs (as at every call site of [main.c]), so the [!A], [!x], ...
      tests of the source are false and only the [data] members can be
      null.  Distinct arguments denote distinct objects.
    - What a call cannot control is gathered in [Env]: the value of the
      cancellation flag [g_stop] seen by the workers of that call, the
      outcome of the two [calloc]s of scratch storage and the outcome of
      each [pthread_create].
    - The workers of one call write pairwise disjoint row slices and read
      only the inputs and their own slice, so the state after the join is
      that of running the started workers one after the other; the
      embedding runs them in ascending worker index, and any other order
      gives the same state ([mv_workers_any_order],
      [mm_workers_any_order], [ax_workers_any_order]).
    - The stepped loops of the tiled product carry fuel, one unit per
      index of the dimension they walk; the tile edge is at least 1, so
      the fuel is never what stops them ([for_step_fuel]). *)

From Stdlib Require Import String.
From Stdlib Require Import ZArith Lia List Bool PrimFloat.
From stdpp Require Import base tactics option list list_numbers.

Local Open Scope Z_scope.

(** ** Machine integers *)

Definition SIZE_MAX : Z := 2 ^ 64 - 1.
Definition INT_MAX : Z := 2 ^ 31 - 1.

(** Conversion to [size_t], and the result of any [size_t] operation. *)
Definition size_t (z : Z) : Z := z mod 2 ^ 64.

(** The cast [(int)] of an integer value. *)
Definition int (z : Z) : Z := (z + 2 ^ 31) mod 2 ^ 32 - 2 ^ 31.

Definition min_sz (a b : Z) : Z := if a <? b then a else b.

(** ** Scalars *)

Class Scalar (F : Type) := {
  zero : F;
  add : F -> F -> F;
  mul : F -> F -> F
}.

(** Arithmetic in which sums are exact: addition is associative and
    [zero] is neutral. *)
Class ExactScalar (F : Type) `{Scalar F} : Prop := {
  add_assoc : forall a b c : F, add a (add b c) = add (add a b) c;
  add_zero_l : forall a : F, add zero a = a;
  add_zero_r : forall a : F, add a zero = a
}.

#[export] Instance Z_Scalar : Scalar Z :=
  {| zero := 0; add := Z.add; mul := Z.mul |}.

#[export] Instance Z_ExactScalar : ExactScalar Z.
Proof. split; intros; cbn; lia. Qed.

(** The doubles of the source: binary64 with the IEEE-754 addition and
    multiplication.  They form a [Scalar] and not an [ExactScalar]. *)
#[export] Instance double_Scalar : Scalar float :=
  {| zero := PrimFloat.zero; add := PrimFloat.add; mul := PrimFloat.mul |}.

(** ** The partitioner *)

Definition row_range (nrows tid nt : Z) : Z * Z :=
  let base := nrows / size_t nt in
  let rem := nrows mod size_t nt in
  let start :=
    size_t (size_t (size_t tid * base)
            + size_t (if tid <? int rem then tid else rem)) in
  let extra := if tid <? int rem then 1 else 0 in
  let end_ := size_t (size_t (start + base) + extra) in
  (start, end_).

(** The rows of worker [tid], in the order its loop visits them. *)
Definition range_rows (nrows tid nt : Z) : list Z :=
  let '(i0, i1) := row_range nrows tid nt in seqZ i0 (i1 - i0).

(** Closed form of the first row of worker [T] (also meaningful at
    [T = N], where it is the total row count). *)
Definition part_start (R N T : Z) : Z := T * (R / N) + Z.min T (R mod N).

(** ** Data model ([matrix.h], [kernels.h])

    [m_data] and [v_data] are the member [data] of [Mat] and of [Vec]. *)

Record Mat (F : Type) := mkMat { rows : Z; cols : Z; m_data : option (list F) }.
Record Vec (F : Type) := mkVec { len : Z; v_data : option (list F) }.
Record KCfg := mkKCfg { nt : Z; tile : Z }.

Arguments mkMat {F} _ _ _.
Arguments rows {F} _.
Arguments cols {F} _.
Arguments m_data {F} _.
Arguments mkVec {F} _ _.
Arguments len {F} _.
Arguments v_data {F} _.

(** What one kernel call meets and cannot control. *)
Record Env := mkEnv {
  g_stop : bool;            (* the cancellation flag, as read by the workers *)
  ths_ok : bool;            (* calloc of the thread handles succeeded *)
  jobs_ok : bool;           (* calloc of the job descriptors succeeded *)
  create_ok : Z -> bool     (* pthread_create of worker t succeeded *)
}.

(** A run that nothing disturbs: the flag is clear, the scratch storage is
    obtained and every worker starts. *)
Definition undisturbed (e : Env) : Prop :=
  g_stop e = false /\ ths_ok e = true /\ jobs_ok e = true /\
  forall t, create_ok e t = true.

Definition calm : Env := mkEnv false true true (fun _ => true).

(** ** Loops *)

(** [for (size_t i = i0; i < i1; i++) { if (g_stop) break; body }] over the
    listed values of [i]. *)
Fixpoint for_rows {S : Type} (stop : bool) (rs : list Z)
    (body : Z -> S -> S) (s : S) : S :=
  match rs with
  | [] => s
  | i :: rs' => if stop then s else for_rows stop rs' body (body i s)
  end.

(** [for (size_t k = lo; k < hi; k++) body].  The counter stays below
    [hi], so its increment cannot wrap. *)
Definition for_range {S : Type} (lo hi : Z) (body : Z -> S -> S) (s : S) : S :=
  fold_left (fun s k => body k s) (seqZ lo (hi - lo)) s.

(** [for (size_t i = lo; i < hi; i += step) body], the counter reduced
    modulo 2^64 after each increment. *)
Fixpoint for_step {S : Type} (fuel : nat) (i hi step : Z)
    (body : Z -> S -> S) (s : S) : S :=
  match fuel with
  | O => s
  | Datatypes.S fuel' =>
      if i <? hi
      then for_step fuel' (size_t (i + step)) hi step body (body i s)
      else s
  end.

(** The [pthread_create] loop: the workers started are those before the
    first failure ([nt = t; break]). *)
Fixpoint spawn (ok : Z -> bool) (ts : list Z) : list Z :=
  match ts with
  | [] => []
  | t :: ts' => if ok t then t :: spawn ok ts' else []
  end.

(** Create the workers [0 .. nt-1], then join the started ones. *)
Definition run_workers {S : Type} (e : Env) (nt : Z)
    (worker : Z -> S -> S) (s : S) : S :=
  fold_left (fun s t => worker t s) (spawn (create_ok e) (seqZ 0 nt)) s.

Section Kernels.
Context {F : Type} `{Scalar F}.

(** The cells behind a data pointer, and a read of cell [p]. *)
Definition cells (d : option (list F)) : list F := default [] d.
Definition rd (l : list F) (p : Z) : F := default zero (l !! Z.to_nat p).

(** ** Allocation ([matrix.c]) *)

(** [calloc(nmemb, size)]: null when the request is refused, which it
    always is when [nmemb * size] is not representable; zeroed cells
    otherwise. *)
Definition calloc (ok : bool) (nmemb size : Z) : option (list F) :=
  if ok && (nmemb * size <=? SIZE_MAX)
  then Some (replicate (Z.to_nat nmemb) zero)
  else None.

Definition m_alloc (ok : bool) (r c : Z) : Mat F :=
  if (r =? 0) || (c =? 0) then mkMat r c None
  else match calloc ok (size_t (r * c)) 8 with
       | Some buf => mkMat r c (Some buf)
       | None => mkMat 0 0 None
       end.

Definition v_alloc (ok : bool) (n : Z) : Vec F :=
  if n =? 0 then mkVec n None
  else match calloc ok n 8 with
       | Some buf => mkVec n (Some buf)
       | None => mkVec 0 None
       end.

(** ** Matrix-vector product *)

(** The inner loop of [mv_worker] for row [i]:
    [sum = 0.0; for k: sum += row[k] * x->data[k]]. *)
Definition mv_row (A : Mat F) (x : Vec F) (i : Z) : F :=
  let n := cols A in
  let row := size_t (i * n) in
  for_range 0 n (fun k sum =>
    add sum (mul (rd (cells (m_data A)) (row + k))
                 (rd (cells (v_data x)) k))) zero.

Definition mv_worker (stop : bool) (A : Mat F) (x : Vec F) (tid nt : Z)
    (y : list F) : list F :=
  for_rows stop (range_rows (rows A) tid nt) (fun i y =>
    <[Z.to_nat i := mv_row A x i]> y) y.

Definition mv_mt (e : Env) (A : Mat F) (x y : Vec F) (cfg : KCfg)
    : Z * Vec F :=
  match m_data A, v_data x, v_data y with
  | Some _, Some _, Some ybuf =>
      if negb (cols A =? len x) || negb (rows A =? len y) then (-1, y)
      else
        let nt := if nt cfg <=? 0 then 1 else nt cfg in
        if negb (ths_ok e) || negb (jobs_ok e) then (-1, y)
        else
          (0, mkVec (len y)
                (Some (run_workers e nt
                         (fun t => mv_worker (g_stop e) A x t nt) ybuf)))
  | _, _, _ => (-1, y)
  end.

(** ** Matrix-matrix product *)

(** [crow[col] += a * brow[col]] *)
Definition mm_acc (B : list F) (a : F) (brow crow col : Z) (C : list F)
    : list F :=
  alter (fun c => add c (mul a (rd B (brow + col)))) (Z.to_nat (crow + col)) C.

(** The body of the row loop when tiling is off: for each [k], row [k] of
    [B] scaled by [A[i,k]] is added to row [i] of [C]. *)
Definition mm_row (A B : Mat F) (i : Z) (C : list F) : list F :=
  let K := cols A in
  let N := cols B in
  for_range 0 K (fun k C =>
    let a := rd (cells (m_data A)) (size_t (size_t (i * K) + k)) in
    let brow := size_t (k * N) in
    let crow := size_t (i * N) in
    for_range 0 N (fun jj C =>
      mm_acc (cells (m_data B)) a brow crow jj C) C) C.

(** The body of the row loop with tile edge [T]: the same accumulation,
    one column block [[jj, jend)] and one reduction block [[kk, kend)] at
    a time.  A loop over [N] indices in steps of [T >= 1] makes at most [N]
    rounds, which is the fuel it gets. *)
Definition mm_row_tiled (A B : Mat F) (T i : Z) (C : list F) : list F :=
  let K := cols A in
  let N := cols B in
  for_step (Z.to_nat N) 0 N T (fun jj C =>
    let jend := min_sz (size_t (jj + T)) N in
    for_step (Z.to_nat K) 0 K T (fun kk C =>
      let kend := min_sz (size_t (kk + T)) K in
      for_range kk kend (fun k C =>
        let a := rd (cells (m_data A)) (size_t (size_t (i * K) + k)) in
        let brow := size_t (k * N) in
        let crow := size_t (i * N) in
        for_range jj jend (fun col C =>
          mm_acc (cells (m_data B)) a brow crow col C) C) C) C) C.

Definition mm_worker (stop : bool) (A B : Mat F) (tid nt tile : Z)
    (C : list F) : list F :=
  if tile <=? 0 then
    for_rows stop (range_rows (rows A) tid nt) (mm_row A B) C
  else
    let T := size_t tile in
    for_rows stop (range_rows (rows A) tid nt) (mm_row_tiled A B T) C.

(** [memset(p, 0, bytes)] on a block of doubles: the cells the byte count
    covers become [zero] (all bits clear is [0.0]). *)
Definition memset0 (buf : list F) (bytes : Z) : list F :=
  let n := Z.to_nat (bytes / 8) in
  replicate (Nat.min n (length buf)) zero ++ drop n buf.

Definition mm_mt (e : Env) (A B C : Mat F) (cfg : KCfg) : Z * Mat F :=
  match m_data A, m_data B, m_data C with
  | Some _, Some _, Some cbuf =>
      if negb (cols A =? rows B) then (-1, C)
      else if negb (rows C =? rows A) || negb (cols C =? cols B) then (-1, C)
      else
        let cbuf := memset0 cbuf (size_t (size_t (8 * rows C) * cols C)) in
        let nt := if nt cfg <=? 0 then 1 else nt cfg in
        if negb (ths_ok e) || negb (jobs_ok e)
        then (-1, mkMat (rows C) (cols C) (Some cbuf))
        else
          (0, mkMat (rows C) (cols C)
                (Some (run_workers e nt
                         (fun t => mm_worker (g_stop e) A B t nt (tile cfg))
                         cbuf)))
  | _, _, _ => (-1, C)
  end.

(** ** Dot product *)

Definition dt_worker (stop : bool) (x y : Vec F) (tid nt : Z) : F :=
  let n := len x in
  for_rows stop (range_rows n tid nt) (fun i s =>
    add s (mul (rd (cells (v_data x)) i) (rd (cells (v_data y)) i))) zero.

(** [out] is the cell the output pointer designates; the result carries
    its content after the call. *)
Definition dt_mt (e : Env) (x y : Vec F) (out : F) (nt : Z) : Z * F :=
  match v_data x, v_data y with
  | Some _, Some _ =>
      if negb (len x =? len y) then (-1, out)
      else
        let nt := if nt <=? 0 then 1 else nt in
        if negb (ths_ok e) || negb (jobs_ok e) then (-1, out)
        else
          (0, run_workers e nt
                (fun t sum => add sum (dt_worker (g_stop e) x y t nt)) zero)
  | _, _ => (-1, out)
  end.

(** ** AXPY *)

Definition ax_worker (stop : bool) (a : F) (x : Vec F) (tid nt : Z)
    (y : list F) : list F :=
  let n := len x in
  for_rows stop (range_rows n tid nt) (fun i y =>
    <[Z.to_nat i := add (mul a (rd (cells (v_data x)) i)) (rd y i)]> y) y.

Definition ax_mt (e : Env) (a : F) (x y : Vec F) (nt : Z) : Z * Vec F :=
  match v_data x, v_data y with
  | Some _, Some ybuf =>
      if negb (len x =? len y) then (-1, y)
      else
        let nt := if nt <=? 0 then 1 else nt in
        if negb (ths_ok e) || negb (jobs_ok e) then (-1, y)
        else
          (0, mkVec (len y)
                (Some (run_workers e nt
                         (fun t => ax_worker (g_stop e) a x t nt) ybuf)))
  | _, _ => (-1, y)
  end.

End Kernels.

Definition vecZ (l : list Z) : Vec Z := mkVec (Z.of_nat (length l)) (Some l).

Definition vecD (l : list float) : Vec float :=
  mkVec (Z.of_nat (length l)) (Some l).

(** ** Well-formed arguments and reference values *)

Section Shapes.
Context {F : Type} `{Scalar F}.

(** A matrix over a present buffer of exactly [rows * cols] cells, an
    object of at most [SIZE_MAX] bytes. *)
Definition mat_wf (M : Mat F) : Prop :=
  0 <= rows M <= SIZE_MAX /\ 0 <= cols M <= SIZE_MAX /\
  8 * (rows M * cols M) <= SIZE_MAX /\
  exists buf, m_data M = Some buf /\ Z.of_nat (length buf) = rows M * cols M.

Definition vec_wf (v : Vec F) : Prop :=
  0 <= len v /\ 8 * len v <= SIZE_MAX /\
  exists buf, v_data v = Some buf /\ Z.of_nat (length buf) = len v.

(** The empty-state invariant in the words of the design document: the
    buffer holds exactly [rows * cols] (resp. [len]) cells, or it is absent
    and the dimensions are all zero. *)
Definition mat_empty_state (M : Mat F) : Prop :=
  match m_data M with
  | Some buf => Z.of_nat (length buf) = rows M * cols M
  | None => rows M = 0 /\ cols M = 0
  end.

Definition vec_empty_state (v : Vec F) : Prop :=
  match v_data v with
  | Some buf => Z.of_nat (length buf) = len v
  | None => len v = 0
  end.

(** The sequential sum of products and the sequential AXPY. *)
Definition dot_seq (xs ys : list F) : F :=
  fold_left add (zip_with mul xs ys) zero.

Definition axpy_seq (a : F) (xs ys : list F) : list F :=
  zip_with (fun xi yi => add (mul a xi) yi) xs ys.

End Shapes.

(** The block starts visited by [for_step]. *)
Fixpoint steps (fuel : nat) (i hi step : Z) : list Z :=
  match fuel with
  | O => []
  | Datatypes.S fuel' =>
      if i <? hi then i :: steps fuel' (size_t (i + step)) hi step else []
  end.

(** The scratch storage of a call was refused. *)
Definition scratch_refused (e : Env) : Prop :=
  ths_ok e = false \/ jobs_ok e = false.

(** The thread count a kernel works with: [nt <= 0 ? 1 : nt]. *)
Definition threads (n : Z) : Z := if n <=? 0 then 1 else n.

(** [f] acts on a block cell by cell: cell [p] of [f C] is [g p] of cell
    [p] of [C]. *)
Definition pointwise {F : Type} (f : list F -> list F) (g : nat -> F -> F)
    : Prop :=
  forall C, f C = imap g C.

(** The effect of [mm_acc] on cell [p]. *)
Definition cell_acc {F : Type} `{Scalar F} (B : list F) (a : F)
    (brow crow col : Z) (p : nat) (v : F) : F :=
  if decide (p = Z.to_nat (crow + col))
  then add v (mul a (rd B (brow + col)))
  else v.

(** The content of cell [p] after one row of the product has been
    accumulated over content [v]: for a cell of the row (column
    [p - crow]), the terms [a k * B[brow k + column]] added for
    [k = 0 .. K-1] in this order; [v] for any other cell. *)
Definition cell_row {F : Type} `{Scalar F} (B : list F) (a : Z -> F)
    (brow : Z -> Z) (crow K N : Z) (p : nat) (v : F) : F :=
  if decide (0 <= Z.of_nat p - crow < 0 + (N - 0))
  then fold_left
         (fun v k => add v (mul (a k) (rd B (brow k + (Z.of_nat p - crow)))))
         (seqZ 0 (K - 0)) v
  else v.

Section Product.
Context {F : Type} `{Scalar F}.

(** Cell [(i, j)] of the product: the terms [A[i,k] * B[k,j]], each once,
    added for [k = 0 .. K-1] in this order, starting from [0.0]. *)
Definition mm_cell (A B : Mat F) (i j : Z) : F :=
  fold_left
    (fun v k => add v (mul (rd (cells (m_data A)) (i * cols A + k))
                           (rd (cells (m_data B)) (k * cols B + j))))
    (seqZ 0 (cols A)) zero.

(** The product as a row-major block of [rows A * cols B] cells. *)
Definition mm_ref (A B : Mat F) : list F :=
  (fun p => mm_cell A B (p / cols B) (p mod cols B))
    <$> seqZ 0 (rows A * cols B).

End Product.

(** Worker [f] is the first one whose [pthread_create] fails. *)
Definition first_failure (e : Env) (f : Z) : Prop :=
  (forall t, 0 <= t < f -> create_ok e t = true) /\ create_ok e f = false.

(** The environment in which worker [f] is the first that fails to start
    and nothing else goes wrong. *)
Definition fails_at (f : Z) : Env := mkEnv false true true (fun t => t <? f).

(** The block in which the rows below [s] hold the product and the other
    rows hold [0.0]. *)
Definition mm_ref_upto {F : Type} `{Scalar F} (A B : Mat F) (s : Z) : list F :=
  (fun p => if p / cols B <? s
            then mm_cell A B (p / cols B) (p mod cols B)
            else zero)
    <$> seqZ 0 (rows A * cols B).

(** ** Accessors ([matrix.h]) *)

Section Accessors.
Context {F : Type} `{Scalar F}.

(** [A->data[i * A->cols + j]] *)
Definition m_get (A : Mat F) (i j : Z) : F :=
  rd (cells (m_data A)) (size_t (size_t (i * cols A) + j)).

(** [A->data[i * A->cols + j] = x].  The source dereferences [data]
    without a test; on an absent buffer, where C leaves the behaviour
    undefined, the embedding changes nothing. *)
Definition m_set (A : Mat F) (i j : Z) (x : F) : Mat F :=
  match m_data A with
  | Some buf =>
      mkMat (rows A) (cols A)
        (Some (<[Z.to_nat (size_t (size_t (i * cols A) + j)) := x]> buf))
  | None => A
  end.

End Accessors.

(** ** Release ([matrix.c]) *)

Section Release.
Context {F : Type}.

(** [free(m->data); m->data = NULL; m->rows = m->cols = 0;]: the block is
    given back and the struct no longer designates it.  [free(NULL)] does
    nothing, so the absent buffer needs no case of its own. *)
Definition m_free (m : Mat F) : Mat F := mkMat 0 0 None.

Definition v_free (v : Vec F) : Vec F := mkVec 0 None.

End Release.

(** ** Binary files ([matrix.c], the [FMT_BIN] branches)

    A file is the list of its bytes, each a [Z] in [[0, 256)].  A
    [uint64_t] is stored in the byte order of the host, little-endian on
    the machines the build targets.  What a double looks like in memory is
    left open: [ByteRepr] asks only that it occupies [sizeof(double) = 8]
    bytes from which it is read back.  A stream delivers the bytes the file
    has; a read that meets the end of the file is short. *)

Fixpoint le_bytes (n : nat) (z : Z) : list Z :=
  match n with
  | O => []
  | Datatypes.S n' => z mod 256 :: le_bytes n' (z / 256)
  end.

Fixpoint le_value (bs : list Z) : Z :=
  match bs with
  | [] => 0
  | b :: bs' => b + 256 * le_value bs'
  end.

Class ByteRepr (F : Type) := {
  to_bytes : F -> list Z;
  of_bytes : list Z -> F;
  to_bytes_length : forall v, length (to_bytes v) = 8%nat;
  of_to_bytes : forall v, of_bytes (to_bytes v) = v
}.

(** What a writing call meets: whether [fopen] succeeds and whether the
    k-th [fwrite] of the call writes all it is asked to. *)
Record OutEnv := mkOutEnv { wopen_ok : bool; fwrite_ok : nat -> bool }.

Definition out_calm : OutEnv := mkOutEnv true (fun _ => true).

(** [read_u64]: [fread(x, sizeof(uint64_t), 1, f) == 1 ? 0 : -1], with the
    value read and the rest of the stream. *)
Definition read_u64 (s : list Z) : option (Z * list Z) :=
  if (8 <=? length s)%nat then Some (le_value (take 8 s), drop 8 s) else None.

(** [write_u64]: the 8 bytes that [fwrite(&x, sizeof(uint64_t), 1, f)]
    appends. *)
Definition write_u64 (x : Z) : list Z := le_bytes 8 x.

Section BinaryFiles.
Context {F : Type} `{Scalar F} `{ByteRepr F}.

(** [fread(p, sizeof(double), n, f)]: the [n] doubles read, or nothing
    when the stream ends before the [n]-th is complete (the count returned
    is then below [n]). *)
Fixpoint fread_doubles (n : nat) (s : list Z) : option (list F) :=
  match n with
  | O => Some []
  | Datatypes.S n' =>
      if (8 <=? length s)%nat
      then match fread_doubles n' (drop 8 s) with
           | Some l => Some (of_bytes (take 8 s) :: l)
           | None => None
           end
      else None
  end.

(** The bytes of [fwrite(p, sizeof(double), n, f)]. *)
Definition doubles_bytes (l : list F) : list Z := concat (map to_bytes l).

(** [m_load(path, FMT_BIN, out)].  [file] is the content of the file at
    [path], [None] when [fopen] fails; [out] is the matrix [*out] held
    before the call and the result carries the one it holds after. *)
Definition m_load_bin (file : option (list Z)) (alloc_ok : bool)
    (out : Mat F) : Z * Mat F :=
  match file with
  | None => (-1, out)
  | Some s =>
      match read_u64 s with
      | None => (-1, out)
      | Some (r64, s1) =>
          match read_u64 s1 with
          | None => (-1, out)
          | Some (c64, s2) =>
              if (r64 =? 0) || (c64 =? 0) then (-1, out)
              else
                let m := m_alloc alloc_ok (size_t r64) (size_t c64) in
                match m_data m with
                | None => (-1, out)
                | Some buf =>
                    let n := size_t (rows m * cols m) in
                    match fread_doubles (Z.to_nat n) s2 with
                    | None => (-1, out)
                    | Some l =>
                        (0, mkMat (rows m) (cols m)
                              (Some (l ++ drop (length l) buf)))
                    end
                end
          end
      end
  end.

(** [m_save(path, FMT_BIN, m)]: the status, and the content of the file
    when the call succeeded.  After a failure the content of the file is
    not specified. *)
Definition m_save_bin (w : OutEnv) (m : Mat F) : Z * option (list Z) :=
  match m_data m with
  | None => (-1, None)
  | Some buf =>
      if negb (wopen_ok w) then (-1, None)
      else if negb (fwrite_ok w 0) || negb (fwrite_ok w 1) then (-1, None)
      else
        let n := size_t (rows m * cols m) in
        if negb (fwrite_ok w 2) then (-1, None)
        else (0, Some (write_u64 (rows m) ++ write_u64 (cols m)
                       ++ doubles_bytes (take (Z.to_nat n) buf)))
  end.

(** [v_load(path, FMT_BIN, out)] *)
Definition v_load_bin (file : option (list Z)) (alloc_ok : bool)
    (out : Vec F) : Z * Vec F :=
  match file with
  | None => (-1, out)
  | Some s =>
      match read_u64 s with
      | None => (-1, out)
      | Some (n64, s1) =>
          let v := v_alloc alloc_ok (size_t n64) in
          match v_data v with
          | None => (-1, out)
          | Some buf =>
              match fread_doubles (Z.to_nat (len v)) s1 with
              | None => (-1, out)
              | Some l => (0, mkVec (len v) (Some (l ++ drop (length l) buf)))
              end
          end
      end
  end.

(** [v_save(path, FMT_BIN, v)] *)
Definition v_save_bin (w : OutEnv) (v : Vec F) : Z * option (list Z) :=
  match v_data v with
  | None => (-1, None)
  | Some buf =>
      if negb (wopen_ok w) then (-1, None)
      else if negb (fwrite_ok w 0) then (-1, None)
      else if negb (fwrite_ok w 1) then (-1, None)
      else (0, Some (write_u64 (len v)
                     ++ doubles_bytes (take (Z.to_nat (len v)) buf)))
  end.

End BinaryFiles.

(** The field with two elements is a scalar carrier with an 8-byte
    representation; it serves to run the file operations. *)
#[export] Instance bool_Scalar : Scalar bool :=
  {| zero := false; add := xorb; mul := andb |}.

#[export] Instance bool_ByteRepr : ByteRepr bool.
Proof.
  refine {| to_bytes := fun b => [Z.b2z b; 0; 0; 0; 0; 0; 0; 0];
            of_bytes := fun l => match l with
                                 | b :: _ => negb (b =? 0)
                                 | [] => false
                                 end |}.
  - reflexivity.
  - by intros [].
Defined.

(** ** Operation names ([main.c])

    [const char *] arguments are [option string]: [None] is the null
    pointer, and [strcmp(s, t) == 0] is equality of the two strings. *)

Inductive Op := OP_NONE | OP_MM | OP_MV | OP_DOT | OP_AXPY | OP_ALL.

Definition parse_op (s : option string) : Op :=
  match s with
  | None => OP_NONE
  | Some s =>
      if String.eqb s "mm"%string then OP_MM
      else if String.eqb s "mv"%string then OP_MV
      else if String.eqb s "dot"%string then OP_DOT
      else if String.eqb s "axpy"%string then OP_AXPY
      else if String.eqb s "all"%string then OP_ALL
      else OP_NONE
  end.

Definition op_name (op : Op) : string :=
  match op with
  | OP_MM => "mm"%string
  | OP_MV => "mv"%string
  | OP_DOT => "dot"%string
  | OP_AXPY => "axpy"%string
  | OP_ALL => "all"%string
  | OP_NONE => "unknown"%string
  end.

(** ** Checked accesses

    The embedding above reads and writes through total operations ([rd],
    insert, alter), which are defined outside a block as well.  To state
    that the source never leaves a block, the workers and the kernels are
    embedded a second time with every dereference checked: [None] is a
    fault, the read or write of a cell that the block does not have, and
    nothing is computed after it.  Only dereferences count; forming the
    address of a row ([&B->data[k*N]]) reads nothing.  The scratch arrays
    of a call have one entry per worker and are indexed by the worker
    index, and the output pointer of [dt_mt] designates a live cell, so
    neither is part of the state. *)

(** A loop whose body may fault. *)
Definition for_rows_ck {S : Type} (stop : bool) (rs : list Z)
    (body : Z -> S -> option S) (s : S) : option S :=
  for_rows stop rs (fun i o => o ≫= body i) (Some s).

Definition for_range_ck {S : Type} (lo hi : Z)
    (body : Z -> S -> option S) (s : S) : option S :=
  for_range lo hi (fun i o => o ≫= body i) (Some s).

Definition for_step_ck {S : Type} (fuel : nat) (i hi step : Z)
    (body : Z -> S -> option S) (s : S) : option S :=
  for_step fuel i hi step (fun j o => o ≫= body j) (Some s).

Definition run_workers_ck {S : Type} (e : Env) (nt : Z)
    (worker : Z -> S -> option S) (s : S) : option S :=
  run_workers e nt (fun t o => o ≫= worker t) (Some s).

Section Checked.
Context {F : Type} `{Scalar F}.

(** [l[p]] as a value, and [l[p] = v]. *)
Definition rd_ck (l : list F) (p : Z) : option F :=
  if decide (0 <= p) then l !! Z.to_nat p else None.

Definition wr_ck (l : list F) (p : Z) (v : F) : option (list F) :=
  if decide (0 <= p < Z.of_nat (length l))
  then Some (<[Z.to_nat p := v]> l)
  else None.

(** [mv_worker] *)
Definition mv_row_ck (A : Mat F) (x : Vec F) (i : Z) : option F :=
  let n := cols A in
  let row := size_t (i * n) in
  for_range_ck 0 n (fun k sum =>
    a ← rd_ck (cells (m_data A)) (row + k);
    b ← rd_ck (cells (v_data x)) k;
    Some (add sum (mul a b))) zero.

Definition mv_worker_ck (stop : bool) (A : Mat F) (x : Vec F) (tid nt : Z)
    (y : list F) : option (list F) :=
  for_rows_ck stop (range_rows (rows A) tid nt) (fun i y =>
    sum ← mv_row_ck A x i;
    wr_ck y i sum) y.

Definition mv_mt_ck (e : Env) (A : Mat F) (x y : Vec F) (cfg : KCfg)
    : option (Z * Vec F) :=
  match m_data A, v_data x, v_data y with
  | Some _, Some _, Some ybuf =>
      if negb (cols A =? len x) || negb (rows A =? len y) then Some (-1, y)
      else
        let nt := if nt cfg <=? 0 then 1 else nt cfg in
        if negb (ths_ok e) || negb (jobs_ok e) then Some (-1, y)
        else
          ybuf' ← run_workers_ck e nt
                    (fun t => mv_worker_ck (g_stop e) A x t nt) ybuf;
          Some (0, mkVec (len y) (Some ybuf'))
  | _, _, _ => Some (-1, y)
  end.

(** [mm_worker]; [crow[col] += a * brow[col]] reads [brow[col]] and
    [crow[col]] and writes [crow[col]]. *)
Definition mm_acc_ck (B : list F) (a : F) (brow crow col : Z) (C : list F)
    : option (list F) :=
  b ← rd_ck B (brow + col);
  c ← rd_ck C (crow + col);
  wr_ck C (crow + col) (add c (mul a b)).

Definition mm_row_ck (A B : Mat F) (i : Z) (C : list F)
    : option (list F) :=
  let K := cols A in
  let N := cols B in
  for_range_ck 0 K (fun k C =>
    a ← rd_ck (cells (m_data A)) (size_t (size_t (i * K) + k));
    let brow := size_t (k * N) in
    let crow := size_t (i * N) in
    for_range_ck 0 N (fun jj C =>
      mm_acc_ck (cells (m_data B)) a brow crow jj C) C) C.

Definition mm_row_tiled_ck (A B : Mat F) (T i : Z) (C : list F)
    : option (list F) :=
  let K := cols A in
  let N := cols B in
  for_step_ck (Z.to_nat N) 0 N T (fun jj C =>
    let jend := min_sz (size_t (jj + T)) N in
    for_step_ck (Z.to_nat K) 0 K T (fun kk C =>
      let kend := min_sz (size_t (kk + T)) K in
      for_range_ck kk kend (fun k C =>
        a ← rd_ck (cells (m_data A)) (size_t (size_t (i * K) + k));
        let brow := size_t (k * N) in
        let crow := size_t (i * N) in
        for_range_ck jj jend (fun col C =>
          mm_acc_ck (cells (m_data B)) a brow crow col C) C) C) C) C.

Definition mm_worker_ck (stop : bool) (A B : Mat F) (tid nt tile : Z)
    (C : list F) : option (list F) :=
  if tile <=? 0 then
    for_rows_ck stop (range_rows (rows A) tid nt) (mm_row_ck A B) C
  else
    let T := size_t tile in
    for_rows_ck stop (range_rows (rows A) tid nt) (mm_row_tiled_ck A B T) C.

(** [memset(p, 0, bytes)] on a block of [length buf] doubles. *)
Definition memset0_ck (buf : list F) (bytes : Z) : option (list F) :=
  if decide (bytes <= 8 * Z.of_nat (length buf))
  then Some (memset0 buf bytes)
  else None.

Definition mm_mt_ck (e : Env) (A B C : Mat F) (cfg : KCfg)
    : option (Z * Mat F) :=
  match m_data A, m_data B, m_data C with
  | Some _, Some _, Some cbuf =>
      if negb (cols A =? rows B) then Some (-1, C)
      else if negb (rows C =? rows A) || negb (cols C =? cols B)
      then Some (-1, C)
      else
        cbuf ← memset0_ck cbuf (size_t (size_t (8 * rows C) * cols C));
        let nt := if nt cfg <=? 0 then 1 else nt cfg in
        if negb (ths_ok e) || negb (jobs_ok e)
        then Some (-1, mkMat (rows C) (cols C) (Some cbuf))
        else
          cbuf' ← run_workers_ck e nt
                    (fun t => mm_worker_ck (g_stop e) A B t nt (tile cfg))
                    cbuf;
          Some (0, mkMat (rows C) (cols C) (Some cbuf'))
  | _, _, _ => Some (-1, C)
  end.

(** [dt_worker] *)
Definition dt_worker_ck (stop : bool) (x y : Vec F) (tid nt : Z)
    : option F :=
  let n := len x in
  for_rows_ck stop (range_rows n tid nt) (fun i s =>
    xi ← rd_ck (cells (v_data x)) i;
    yi ← rd_ck (cells (v_data y)) i;
    Some (add s (mul xi yi))) zero.

Definition dt_mt_ck (e : Env) (x y : Vec F) (out : F) (nt : Z)
    : option (Z * F) :=
  match v_data x, v_data y with
  | Some _, Some _ =>
      if negb (len x =? len y) then Some (-1, out)
      else
        let nt := if nt <=? 0 then 1 else nt in
        if negb (ths_ok e) || negb (jobs_ok e) then Some (-1, out)
        else
          sum ← run_workers_ck e nt
                  (fun t sum =>
                     partial ← dt_worker_ck (g_stop e) x y t nt;
                     Some (add sum partial)) zero;
          Some (0, sum)
  | _, _ => Some (-1, out)
  end.

(** [ax_worker] *)
Definition ax_worker_ck (stop : bool) (a : F) (x : Vec F) (tid nt : Z)
    (y : list F) : option (list F) :=
  let n := len x in
  for_rows_ck stop (range_rows n tid nt) (fun i y =>
    xi ← rd_ck (cells (v_data x)) i;
    yi ← rd_ck y i;
    wr_ck y i (add (mul a xi) yi)) y.

Definition ax_mt_ck (e : Env) (a : F) (x y : Vec F) (nt : Z)
    : option (Z * Vec F) :=
  match v_data x, v_data y with
  | Some _, Some ybuf =>
      if negb (len x =? len y) then Some (-1, y)
      else
        let nt := if nt <=? 0 then 1 else nt in
        if negb (ths_ok e) || negb (jobs_ok e) then Some (-1, y)
        else
          ybuf' ← run_workers_ck e nt
                    (fun t => ax_worker_ck (g_stop e) a x t nt) ybuf;
          Some (0, mkVec (len y) (Some ybuf'))
  | _, _ => Some (-1, y)
  end.

End Checked.

(** * Properties *)

(** ** The partitioner *)

Lemma size_t_small z : 0 <= z <= SIZE_MAX -> size_t z = z.
Proof. unfold size_t, SIZE_MAX. intros. apply Z.mod_small. lia. Qed.

Lemma int_small z : 0 <= z <= INT_MAX -> int z = z.
Proof.
  unfold int, INT_MAX. intros.
  rewrite Z.mod_small; lia.
Qed.

Lemma part_start_0 R N : 0 <= R -> 0 < N -> part_start R N 0 = 0.
Proof.
  intros. unfold part_start.
  pose proof (Z.mod_pos_bound R N). lia.
Qed.

Lemma part_start_N R N : 0 <= R -> 0 < N -> part_start R N N = R.
Proof.
  intros. unfold part_start.
  pose proof (Z.mod_pos_bound R N ltac:(lia)).
  pose proof (Z.div_mod R N ltac:(lia)).
  rewrite Z.min_r by lia. lia.
Qed.

Lemma part_start_succ R N T :
  0 <= R -> 0 < N -> 0 <= T ->
  part_start R N (T + 1)
  = part_start R N T + R / N + (if T <? R mod N then 1 else 0).
Proof.
  intros. unfold part_start.
  destruct (Z.ltb_spec T (R mod N)); lia.
Qed.

Lemma part_start_mono R N T U :
  0 <= R -> 0 < N -> T <= U -> part_start R N T <= part_start R N U.
Proof.
  intros. unfold part_start.
  assert (0 <= R / N) by (apply Z.div_pos; lia).
  nia.
Qed.

Lemma row_range_closed R N T :
  0 <= R <= SIZE_MAX -> 1 <= N <= INT_MAX -> 0 <= T < N ->
  row_range R T N = (part_start R N T, part_start R N (T + 1)).
Proof.
  intros HR HN HT.
  assert (HSI : INT_MAX < SIZE_MAX) by (unfold INT_MAX, SIZE_MAX; lia).
  pose proof (Z.mod_pos_bound R N ltac:(lia)) as Hrem.
  pose proof (Z.div_mod R N ltac:(lia)) as Hdm.
  assert (Hbase : 0 <= R / N) by (apply Z.div_pos; lia).
  pose proof (part_start_mono R N T (T + 1) ltac:(lia) ltac:(lia) ltac:(lia)).
  pose proof (part_start_mono R N (T + 1) N ltac:(lia) ltac:(lia) ltac:(lia)).
  pose proof (part_start_mono R N 0 T ltac:(lia) ltac:(lia) ltac:(lia)).
  rewrite part_start_N, ?part_start_0 in * by lia.
  rewrite part_start_succ in * by lia.
  unfold row_range.
  rewrite (size_t_small N), (int_small (R mod N)), (size_t_small T) by lia.
  assert (Hmin : (if T <? R mod N then T else R mod N) = Z.min T (R mod N))
    by (destruct (Z.ltb_spec T (R mod N)); lia).
  rewrite Hmin.
  assert (0 <= T * (R / N) <= R) by (unfold part_start in *; nia).
  rewrite (size_t_small (T * (R / N))), (size_t_small (Z.min _ _)) by lia.
  fold (part_start R N T).
  rewrite (size_t_small (part_start R N T)) by lia.
  destruct (Z.ltb_spec T (R mod N));
    rewrite (size_t_small (part_start R N T + R / N)) by lia;
    rewrite size_t_small by lia; reflexivity.
Qed.

Lemma part_start_cover R N (n : nat) i :
  0 <= R -> 0 < N -> 0 <= i < part_start R N (Z.of_nat n) ->
  exists T, 0 <= T < Z.of_nat n /\
            part_start R N T <= i < part_start R N (T + 1).
Proof.
  intros HR HN. induction n as [|n IH]; intros Hi.
  - rewrite part_start_0 in Hi by lia. lia.
  - destruct (Z_lt_dec i (part_start R N (Z.of_nat n))) as [Hlt|Hge].
    + destruct IH as (T & HT & HiT); [lia|]. exists T. lia.
    + exists (Z.of_nat n). replace (Z.of_nat n + 1) with (Z.of_nat (S n)) by lia.
      lia.
Qed.

(** [C1] For every row count [R] and worker count [N >= 1] (of the
    argument types of [row_range]), worker [T] receives the half-open range
    that starts at [T * (R div N) + min T (R mod N)] and holds [R div N]
    rows, plus one when [T < R mod N].  The [N] ranges are contiguous (the
    first starts at 0, each ends where the next starts, the last ends at
    [R]), ascending with the worker index, pairwise disjoint, their union
    is exactly [[0, R)], and every size is the floor or the ceiling of
    [R / N]. *)
Theorem row_range_partition (R N : Z) :
  0 <= R <= SIZE_MAX -> 1 <= N <= INT_MAX ->
  (forall T, 0 <= T < N ->
     fst (row_range R T N) = T * (R / N) + Z.min T (R mod N) /\
     snd (row_range R T N)
     = fst (row_range R T N) + R / N + (if T <? R mod N then 1 else 0)) /\
  fst (row_range R 0 N) = 0 /\
  (forall T, 0 <= T < N - 1 ->
     snd (row_range R T N) = fst (row_range R (T + 1) N)) /\
  snd (row_range R (N - 1) N) = R /\
  (forall T U, 0 <= T < U -> U < N ->
     snd (row_range R T N) <= fst (row_range R U N)) /\
  (forall T U i, 0 <= T < N -> 0 <= U < N -> T <> U ->
     ~ (fst (row_range R T N) <= i < snd (row_range R T N) /\
        fst (row_range R U N) <= i < snd (row_range R U N))) /\
  (forall i, 0 <= i < R <->
     exists T, 0 <= T < N /\
               fst (row_range R T N) <= i < snd (row_range R T N)) /\
  (forall T, 0 <= T < N ->
     snd (row_range R T N) - fst (row_range R T N) = R / N \/
     snd (row_range R T N) - fst (row_range R T N) = (R + N - 1) / N).
Proof.
  intros HR HN.
  assert (Hcl : forall T, 0 <= T < N ->
            row_range R T N = (part_start R N T, part_start R N (T + 1)))
    by (intros; apply row_range_closed; lia).
  pose proof (Z.mod_pos_bound R N ltac:(lia)) as Hrem.
  pose proof (Z.div_mod R N ltac:(lia)) as Hdm.
  assert (Hmono : forall T U, T <= U -> part_start R N T <= part_start R N U)
    by (intros; apply part_start_mono; lia).
  split_and!.
  - intros T HT. rewrite Hcl by lia. cbn [fst snd]. split; [reflexivity|].
    apply part_start_succ; lia.
  - rewrite Hcl by lia. cbn. apply part_start_0; lia.
  - intros T HT. rewrite !Hcl by lia. reflexivity.
  - rewrite Hcl by lia. cbn [snd]. replace (N - 1 + 1) with N by lia.
    apply part_start_N; lia.
  - intros T U HT HU. rewrite !Hcl by lia. cbn [fst snd]. apply Hmono. lia.
  - intros T U i HT HU Hne. rewrite !Hcl by lia. cbn [fst snd].
    intros [H1 H2].
    destruct (Z_lt_dec T U).
    + pose proof (Hmono (T + 1) U ltac:(lia)). lia.
    + pose proof (Hmono (U + 1) T ltac:(lia)). lia.
  - intros i. split.
    + intros Hi.
      destruct (part_start_cover R N (Z.to_nat N) i) as (T & HT & HiT);
        [lia | lia | rewrite Z2Nat.id, part_start_N by lia; lia |].
      exists T. rewrite Hcl by lia. cbn [fst snd]. lia.
    + intros (T & HT & Hi). rewrite Hcl in Hi by lia. cbn [fst snd] in Hi.
      pose proof (Hmono 0 T ltac:(lia)).
      pose proof (Hmono (T + 1) N ltac:(lia)).
      rewrite part_start_0, part_start_N in * by lia. lia.
  - intros T HT. rewrite Hcl by lia. cbn [fst snd].
    rewrite part_start_succ by lia.
    destruct (Z.ltb_spec T (R mod N)); [right | left; lia].
    assert ((R + N - 1) / N = R / N + 1) as ->; [|lia].
    replace (R + N - 1) with ((R / N + 1) * N + (R mod N - 1)) by lia.
    rewrite Z.div_add_l by lia.
    rewrite (Z.div_small (R mod N - 1) N) by lia. lia.
Qed.

Lemma row_range_partition_witness :
  fst (row_range 10 1 4) = 3 /\ snd (row_range 10 1 4) = 6.
Proof.
  destruct (row_range_partition 10 4) as [H _];
    [unfold SIZE_MAX; lia | unfold INT_MAX; lia |].
  destruct (H 1 ltac:(lia)) as [H1 H2]. split.
  - rewrite H1. reflexivity.
  - rewrite H2, H1. reflexivity.
Defined.

(** ** Loop lemmas *)

Section Loops.
Context {S : Type}.
Implicit Types (body : Z -> S -> S) (s : S) (l : list Z).

Lemma for_rows_false l body s :
  for_rows false l body s = fold_left (fun s i => body i s) l s.
Proof. revert s. induction l as [|i l IH]; intros s; cbn; [done|apply IH]. Qed.

Lemma for_rows_true l body s : for_rows true l body s = s.
Proof. destruct l; reflexivity. Qed.

Lemma for_rows_app stop l1 l2 body s :
  for_rows stop (l1 ++ l2) body s
  = for_rows stop l2 body (for_rows stop l1 body s).
Proof.
  destruct stop; [by rewrite !for_rows_true|].
  rewrite !for_rows_false. apply fold_left_app.
Qed.

Lemma for_rows_ext stop l body1 body2 s :
  (forall i s', i ∈ l -> body1 i s' = body2 i s') ->
  for_rows stop l body1 s = for_rows stop l body2 s.
Proof.
  revert s. induction l as [|i l IH]; intros s Hb; cbn; [done|].
  destruct stop; [done|].
  rewrite Hb by apply list_elem_of_here.
  apply IH. intros j s' Hj. apply Hb. by apply list_elem_of_further.
Qed.

Lemma fold_left_ext_in l body1 body2 s :
  (forall i s', i ∈ l -> body1 i s' = body2 i s') ->
  fold_left (fun s i => body1 i s) l s = fold_left (fun s i => body2 i s) l s.
Proof. rewrite <- !for_rows_false. apply for_rows_ext. Qed.

Lemma for_rows_concat stop (ls : list (list Z)) body s :
  for_rows stop (concat ls) body s
  = fold_left (fun s l => for_rows stop l body s) ls s.
Proof.
  revert s. induction ls as [|l ls IH]; intros s; cbn; [done|].
  rewrite for_rows_app. apply IH.
Qed.

End Loops.

Lemma spawn_all ok ts : (forall t, ok t = true) -> spawn ok ts = ts.
Proof.
  intros Hok. induction ts as [|t ts IH]; cbn; [done|].
  rewrite Hok. by f_equal.
Qed.

Lemma spawn_elem ok ts t : t ∈ spawn ok ts -> t ∈ ts.
Proof.
  induction ts as [|u ts IH]; cbn; [done|].
  destruct (ok u); [|by intros ?%elem_of_nil].
  intros [->|Ht]%elem_of_cons; [apply list_elem_of_here|].
  apply list_elem_of_further. auto.
Qed.

(** *** Ranges of the workers laid end to end *)

Lemma range_rows_closed R N T :
  0 <= R <= SIZE_MAX -> 1 <= N <= INT_MAX -> 0 <= T < N ->
  range_rows R T N
  = seqZ (part_start R N T) (part_start R N (T + 1) - part_start R N T).
Proof.
  intros. unfold range_rows. by rewrite row_range_closed.
Qed.

Lemma range_rows_elem R N T i :
  0 <= R <= SIZE_MAX -> 1 <= N <= INT_MAX -> 0 <= T < N ->
  i ∈ range_rows R T N -> 0 <= i < R.
Proof.
  intros HR HN HT. rewrite range_rows_closed by lia.
  rewrite elem_of_seqZ. intros Hi.
  pose proof (part_start_mono R N 0 T ltac:(lia) ltac:(lia) ltac:(lia)).
  pose proof (part_start_mono R N (T + 1) N ltac:(lia) ltac:(lia) ltac:(lia)).
  rewrite part_start_0, part_start_N in * by lia. lia.
Qed.

Lemma ranges_concat R N (n : nat) :
  0 <= R <= SIZE_MAX -> 1 <= N <= INT_MAX -> Z.of_nat n <= N ->
  concat (map (fun t => range_rows R t N) (seqZ 0 (Z.of_nat n)))
  = seqZ 0 (part_start R N (Z.of_nat n)).
Proof.
  intros HR HN. induction n as [|n IH]; intros Hn.
  - cbn. rewrite part_start_0 by lia. reflexivity.
  - rewrite seqZ_S, map_app, concat_app, IH by lia. cbn [map concat].
    rewrite app_nil_r, Z.add_0_l, range_rows_closed by lia.
    pose proof (part_start_mono R N 0 (Z.of_nat n) ltac:(lia) ltac:(lia) ltac:(lia)).
    pose proof (part_start_mono R N (Z.of_nat n) (Z.of_nat n + 1)
                  ltac:(lia) ltac:(lia) ltac:(lia)).
    rewrite part_start_0 in * by lia.
    replace (Z.of_nat (Datatypes.S n)) with (Z.of_nat n + 1) by lia.
    rewrite <- (Z.add_0_l (part_start R N (Z.of_nat n))) at 2.
    rewrite <- seqZ_app by lia. f_equal. lia.
Qed.

(** Running every worker on its own range, in ascending worker index, is
    the single loop over all the rows. *)
Lemma run_workers_rows {S : Type} (e : Env) (R N : Z)
    (body : Z -> S -> S) (s : S) :
  (forall t, create_ok e t = true) ->
  0 <= R <= SIZE_MAX -> 1 <= N <= INT_MAX ->
  run_workers e N (fun t => for_rows (g_stop e) (range_rows R t N) body) s
  = for_rows (g_stop e) (seqZ 0 R) body s.
Proof.
  intros Hok HR HN. unfold run_workers. rewrite spawn_all by done.
  pose proof (ranges_concat R N (Z.to_nat N) HR HN ltac:(lia)) as Hc.
  rewrite Z2Nat.id, part_start_N in Hc by lia.
  rewrite <- Hc, for_rows_concat.
  generalize (seqZ 0 N). intros ts. revert s.
  induction ts as [|t ts IH]; intros s; cbn; [done|apply IH].
Qed.

(** ** The allocators *)

Section Alloc.
Context {F : Type} `{Scalar F}.

Lemma calloc_Some ok nmemb size (buf : list F) :
  calloc ok nmemb size = Some buf -> buf = replicate (Z.to_nat nmemb) zero.
Proof.
  unfold calloc. destruct (ok && (nmemb * size <=? SIZE_MAX)); congruence.
Qed.

Lemma m_alloc_cases ok r c :
  (m_alloc ok r c = mkMat r c None /\ (r = 0 \/ c = 0)) \/
  (m_alloc ok r c
   = mkMat r c (Some (replicate (Z.to_nat (size_t (r * c))) zero)) /\
   r <> 0 /\ c <> 0) \/
  (m_alloc (F:=F) ok r c = mkMat 0 0 None /\ r <> 0 /\ c <> 0).
Proof.
  unfold m_alloc.
  destruct (Z.eqb_spec r 0); [left; by auto|].
  destruct (Z.eqb_spec c 0); [left; by auto|]. cbn [orb]. right.
  destruct (calloc _ _ _) as [buf|] eqn:E; [left|right; by auto].
  apply calloc_Some in E. by subst.
Qed.

Lemma v_alloc_cases ok n :
  (v_alloc ok n = mkVec n None /\ n = 0) \/
  (v_alloc ok n = mkVec n (Some (replicate (Z.to_nat n) zero)) /\ n <> 0) \/
  (v_alloc (F:=F) ok n = mkVec 0 None /\ n <> 0).
Proof.
  unfold v_alloc.
  destruct (Z.eqb_spec n 0); [left; by auto|]. right.
  destruct (calloc _ _ _) as [buf|] eqn:E; [left|right; by auto].
  apply calloc_Some in E. by subst.
Qed.

End Alloc.

(** [C9], as stated, fails: [m_alloc(0, 5)] returns an absent buffer next
    to [cols = 5], so "absent, then rows = cols = 0" does not hold. *)
Lemma m_alloc_empty_state_counterexample :
  ~ mat_empty_state (m_alloc (F:=Z) true 0 5).
Proof. cbn. intros [_ Hc]. discriminate Hc. Qed.

(** [C9], amended.  For a request whose cell count [r * c] is representable
    in [size_t], the matrix returned by [m_alloc(r, c)] has either a present
    buffer of exactly [rows * cols] cells (and then [rows = r], [cols = c]),
    or an absent buffer and [rows * cols = 0]: with the requested [r] and
    [c] kept when one of them is 0, and with [rows = cols = 0] after a
    refused allocation.  The vector returned by [v_alloc(n)] has a present
    buffer of exactly [len] cells, or an absent buffer and [len = 0]. *)
Theorem alloc_empty_state {F : Type} `{Scalar F} (ok : bool) (r c n : Z) :
  0 <= r -> 0 <= c -> r * c <= SIZE_MAX -> 0 <= n ->
  match m_data (m_alloc (F:=F) ok r c) with
  | Some buf =>
      Z.of_nat (length buf)
      = rows (m_alloc (F:=F) ok r c) * cols (m_alloc (F:=F) ok r c) /\
      rows (m_alloc (F:=F) ok r c) = r /\ cols (m_alloc (F:=F) ok r c) = c
  | None =>
      rows (m_alloc (F:=F) ok r c) * cols (m_alloc (F:=F) ok r c) = 0 /\
      (r = 0 \/ c = 0 ->
       rows (m_alloc (F:=F) ok r c) = r /\ cols (m_alloc (F:=F) ok r c) = c) /\
      (r <> 0 -> c <> 0 ->
       rows (m_alloc (F:=F) ok r c) = 0 /\ cols (m_alloc (F:=F) ok r c) = 0)
  end /\
  vec_empty_state (v_alloc (F:=F) ok n).
Proof.
  intros Hr Hc Hrc Hn. split.
  - destruct (m_alloc_cases ok r c) as [[-> Hz]|[[-> [? ?]]|[-> [? ?]]]];
      cbn [m_data rows cols].
    + split_and!; [nia | done | lia].
    + rewrite length_replicate, size_t_small by nia. split_and!; [nia|done..].
    + split_and!; [done | lia | done].
  - unfold vec_empty_state.
    destruct (v_alloc_cases ok n) as [[-> Hz]|[[-> ?]|[-> ?]]];
      cbn [v_data len]; [done| |done].
    rewrite length_replicate. lia.
Qed.

Lemma alloc_empty_state_witness :
  m_alloc (F:=Z) true 0 5 = mkMat 0 5 None /\
  m_alloc (F:=Z) true 2 3 = mkMat 2 3 (Some [0; 0; 0; 0; 0; 0]) /\
  m_alloc (F:=Z) false 2 3 = mkMat 0 0 None /\
  vec_empty_state (v_alloc (F:=Z) true 4).
Proof.
  split_and!; [reflexivity..|].
  apply (alloc_empty_state (F:=Z) true 2 3 4);
    unfold SIZE_MAX; lia.
Defined.

(** What the allocators do give.  For [r >= 1] and [c >= 1] (resp.
    [n >= 1]) a successful [m_alloc(r, c)] (resp. [v_alloc(n)]) returns a
    buffer every cell of which is [0.0]: the buffer is the block of zeros
    [calloc] hands out, of [r * c mod 2^64] cells, which is [r * c] cells
    when that product is representable in [size_t] (resp. of [n]
    cells). *)
Theorem alloc_zero_filled {F : Type} `{Scalar F} (ok : bool) (r c n : Z)
    (buf vbuf : list F) :
  1 <= r -> 1 <= c -> 1 <= n ->
  (m_data (m_alloc ok r c) = Some buf ->
   (forall i v, buf !! i = Some v -> v = zero) /\
   buf = replicate (Z.to_nat (size_t (r * c))) zero /\
   (r * c <= SIZE_MAX -> Z.of_nat (length buf) = r * c)) /\
  (v_data (v_alloc ok n) = Some vbuf ->
   (forall i v, vbuf !! i = Some v -> v = zero) /\
   vbuf = replicate (Z.to_nat n) zero /\
   Z.of_nat (length vbuf) = n).
Proof.
  intros Hr Hc Hn. split.
  - destruct (m_alloc_cases (F:=F) ok r c) as [[-> Hz]|[[-> [? ?]]|[-> [? ?]]]];
      cbn [m_data]; [done| |done].
    intros [= <-]. split_and!; [|done|].
    + intros i v [-> _]%lookup_replicate. done.
    + intros Hrc. rewrite length_replicate, size_t_small by nia. nia.
  - destruct (v_alloc_cases (F:=F) ok n) as [[-> Hz]|[[-> ?]|[-> ?]]];
      cbn [v_data]; [done| |done].
    intros [= <-]. split_and!; [|done|].
    + intros i v [-> _]%lookup_replicate. done.
    + rewrite length_replicate. lia.
Qed.

Lemma alloc_zero_filled_witness :
  m_data (m_alloc (F:=Z) true 2 3) = Some [0; 0; 0; 0; 0; 0] /\
  v_data (v_alloc (F:=Z) true 2) = Some [0; 0] /\
  Z.of_nat (length [0; 0; 0; 0; 0; 0]) = 2 * 3.
Proof.
  destruct (alloc_zero_filled (F:=Z) true 2 3 2 [0; 0; 0; 0; 0; 0] [0; 0])
    as [Hm Hv]; [lia..|].
  split_and!; [reflexivity..|].
  apply Hm; [reflexivity | unfold SIZE_MAX; lia].
Defined.

(** [C10] The code falls short of the claim where [r * c] is not
    representable.  [m_alloc] multiplies in [size_t] before it calls
    [calloc] and does not test the product: for [r = 2^63 + 1] and
    [c = 2], two values of type [size_t], the product wraps to 2, the
    allocation succeeds, and the matrix returned has [r] rows and [c]
    columns over a block of 2 zeroed cells, not of [r * c] cells.  The
    empty-state invariant of the data model does not hold of it. *)
Theorem m_alloc_product_wraps {F : Type} `{Scalar F} :
  (1 <= 2 ^ 63 + 1 <= SIZE_MAX /\ 1 <= 2 <= SIZE_MAX) /\
  m_alloc (F:=F) true (2 ^ 63 + 1) 2
  = mkMat (2 ^ 63 + 1) 2 (Some [zero; zero]) /\
  Z.of_nat (length [zero; zero]) < (2 ^ 63 + 1) * 2 /\
  ~ mat_empty_state (m_alloc (F:=F) true (2 ^ 63 + 1) 2).
Proof.
  assert (Hm : m_alloc (F:=F) true (2 ^ 63 + 1) 2
               = mkMat (2 ^ 63 + 1) 2 (Some [zero; zero])) by reflexivity.
  split_and!.
  - done.
  - unfold SIZE_MAX. lia.
  - done.
  - unfold SIZE_MAX. lia.
  - exact Hm.
  - cbn. lia.
  - rewrite Hm. unfold mat_empty_state. cbn. lia.
Qed.

(** ** Invariants of the loops *)

Section LoopInvariants.
Context {S : Type} (P : S -> Prop).

Lemma fold_left_inv {A : Type} (f : S -> A -> S) (l : list A) (s : S) :
  P s -> (forall a s', P s' -> P (f s' a)) -> P (fold_left f l s).
Proof.
  intros Hs Hf. revert s Hs. induction l as [|a l IH]; intros s Hs; cbn; auto.
Qed.

Lemma for_rows_inv stop l (body : Z -> S -> S) s :
  P s -> (forall i s', P s' -> P (body i s')) -> P (for_rows stop l body s).
Proof.
  intros Hs Hb. destruct stop; [by rewrite for_rows_true|].
  rewrite for_rows_false. apply fold_left_inv; auto.
Qed.

Lemma for_range_inv lo hi (body : Z -> S -> S) s :
  P s -> (forall i s', P s' -> P (body i s')) -> P (for_range lo hi body s).
Proof. intros Hs Hb. apply fold_left_inv; auto. Qed.

Lemma for_step_inv fuel i hi step (body : Z -> S -> S) s :
  P s -> (forall j s', P s' -> P (body j s')) ->
  P (for_step fuel i hi step body s).
Proof.
  intros Hs Hb. revert i s Hs.
  induction fuel as [|fuel IH]; intros i s Hs; cbn; [done|].
  destruct (i <? hi); auto.
Qed.

Lemma run_workers_inv e n (worker : Z -> S -> S) s :
  P s -> (forall t s', P s' -> P (worker t s')) -> P (run_workers e n worker s).
Proof. intros Hs Hw. apply fold_left_inv; auto. Qed.

End LoopInvariants.

Section KernelFacts.
Context {F : Type} `{Scalar F}.

Lemma mm_worker_length stop (A B : Mat F) tid n tl (C : list F) :
  length (mm_worker stop A B tid n tl C) = length C.
Proof.
  unfold mm_worker.
  destruct (tl <=? 0);
    apply (for_rows_inv (fun C' => length C' = length C)); [done| |done|];
    intros i C1 HC1.
  - apply (for_range_inv (fun C' => length C' = length C)); [done|].
    intros k C2 HC2.
    apply (for_range_inv (fun C' => length C' = length C)); [done|].
    intros j C3 HC3. unfold mm_acc. by rewrite length_alter.
  - apply (for_step_inv (fun C' => length C' = length C)); [done|].
    intros jj C2 HC2.
    apply (for_step_inv (fun C' => length C' = length C)); [done|].
    intros kk C3 HC3.
    apply (for_range_inv (fun C' => length C' = length C)); [done|].
    intros k C4 HC4.
    apply (for_range_inv (fun C' => length C' = length C)); [done|].
    intros j C5 HC5. unfold mm_acc. by rewrite length_alter.
Qed.

Lemma memset0_all (buf : list F) (r c : Z) :
  0 <= r -> 0 <= c -> 8 * (r * c) <= SIZE_MAX ->
  Z.of_nat (length buf) = r * c ->
  memset0 buf (size_t (size_t (8 * r) * c)) = replicate (length buf) zero.
Proof.
  intros Hr Hc Hb Hl. unfold memset0.
  assert (size_t (size_t (8 * r) * c) = 8 * (r * c)) as ->.
  { destruct (Z.eq_dec c 0) as [->|Hc0].
    - rewrite !Z.mul_0_r. reflexivity.
    - rewrite (size_t_small (8 * r)) by nia. rewrite size_t_small by nia. lia. }
  replace (8 * (r * c) / 8) with (r * c)
    by (apply Z.div_unique_exact; lia).
  rewrite <- Hl, Nat2Z.id, Nat.min_id, drop_all, app_nil_r. reflexivity.
Qed.

End KernelFacts.

(** ** Failing calls *)

Section Failures.
Context {F : Type} `{Scalar F}.

Lemma scratch_refused_test e :
  scratch_refused e -> negb (ths_ok e) || negb (jobs_ok e) = true.
Proof. intros [-> | ->]; [done|]. by destruct (ths_ok e). Qed.

Lemma scratch_granted_test e :
  ths_ok e = true -> jobs_ok e = true ->
  negb (ths_ok e) || negb (jobs_ok e) = false.
Proof. by intros -> ->. Qed.

Lemma neqb_true a b : a <> b -> negb (a =? b) = true.
Proof. intros. by destruct (Z.eqb_spec a b). Qed.

Lemma neqb_false a b : a = b -> negb (a =? b) = false.
Proof. intros ->. by rewrite Z.eqb_refl. Qed.

(** What [mm_mt] returns on arguments that pass its checks. *)
Lemma mm_mt_valid e (A B C : Mat F) cfg :
  is_Some (m_data A) -> is_Some (m_data B) -> mat_wf C ->
  cols A = rows B -> rows C = rows A -> cols C = cols B ->
  mm_mt e A B C cfg
  = let zeros := replicate (Z.to_nat (rows C * cols C)) zero in
    if negb (ths_ok e) || negb (jobs_ok e)
    then (-1, mkMat (rows C) (cols C) (Some zeros))
    else (0, mkMat (rows C) (cols C)
               (Some (run_workers e (threads (nt cfg))
                        (fun t => mm_worker (g_stop e) A B t
                                    (threads (nt cfg)) (tile cfg))
                        zeros))).
Proof.
  intros [a Ha] [b Hb] (Hr & Hc & Hsz & cbuf & Hcb & Hlen) HAB HCA HCB.
  unfold mm_mt. rewrite Ha, Hb, Hcb.
  rewrite !neqb_false by done. cbn [orb].
  rewrite memset0_all by lia.
  rewrite <- Hlen, Nat2Z.id. reflexivity.
Qed.

End Failures.

(** [C4], as stated, fails for [mm_mt]: when the scratch storage is
    refused the call returns -1 after it has cleared [C]. *)
Lemma mm_mt_refused_counterexample :
  fst (mm_mt (mkEnv false false true (fun _ => true))
         (mkMat 1 1 (Some [2])) (mkMat 1 1 (Some [3]))
         (mkMat 1 1 (Some [7])) (mkKCfg 1 0)) = -1 /\
  snd (mm_mt (mkEnv false false true (fun _ => true))
         (mkMat 1 1 (Some [2])) (mkMat 1 1 (Some [3]))
         (mkMat 1 1 (Some [7])) (mkKCfg 1 0)) <> mkMat 1 1 (Some [7]).
Proof. split; [reflexivity|]. vm_compute. intros [=]. Qed.

(** [C4], amended.  [mv_mt], [dt_mt] and [ax_mt] return -1 with the output
    ([y], the dot output cell, [y]) exactly as it was when the dimensions
    do not match or the scratch storage is refused, and so does [mm_mt]
    when the dimensions do not match.  When the scratch storage of [mm_mt]
    is refused on arguments that pass its checks, the call returns -1
    before any worker is created but after [C] has been cleared: every
    cell of [C] is [0.0]. *)
Theorem failed_call_output {F : Type} `{Scalar F} (e : Env)
    (A B C : Mat F) (x y : Vec F) (a out : F) (cfg : KCfg) (n : Z) :
  (cols A <> len x \/ rows A <> len y \/ scratch_refused e ->
   mv_mt e A x y cfg = (-1, y)) /\
  (len x <> len y \/ scratch_refused e -> dt_mt e x y out n = (-1, out)) /\
  (len x <> len y \/ scratch_refused e -> ax_mt e a x y n = (-1, y)) /\
  (cols A <> rows B \/ rows C <> rows A \/ cols C <> cols B ->
   mm_mt e A B C cfg = (-1, C)) /\
  (scratch_refused e ->
   is_Some (m_data A) -> is_Some (m_data B) -> mat_wf C ->
   cols A = rows B -> rows C = rows A -> cols C = cols B ->
   mm_mt e A B C cfg
   = (-1, mkMat (rows C) (cols C)
            (Some (replicate (Z.to_nat (rows C * cols C)) zero)))).
Proof.
  split_and!.
  - intros Hf. unfold mv_mt.
    destruct (m_data A), (v_data x), (v_data y); try done.
    destruct Hf as [Hf|[Hf|Hf]].
    + by rewrite (neqb_true _ _ Hf).
    + rewrite (neqb_true _ _ Hf). by rewrite orb_true_r.
    + rewrite (scratch_refused_test _ Hf). by destruct (_ || _).
  - intros Hf. unfold dt_mt.
    destruct (v_data x), (v_data y); try done.
    destruct Hf as [Hf|Hf].
    + by rewrite (neqb_true _ _ Hf).
    + rewrite (scratch_refused_test _ Hf). by destruct (negb _).
  - intros Hf. unfold ax_mt.
    destruct (v_data x), (v_data y); try done.
    destruct Hf as [Hf|Hf].
    + by rewrite (neqb_true _ _ Hf).
    + rewrite (scratch_refused_test _ Hf). by destruct (negb _).
  - intros Hf. unfold mm_mt.
    destruct (m_data A), (m_data B), (m_data C); try done.
    destruct Hf as [Hf|[Hf|Hf]].
    + by rewrite (neqb_true _ _ Hf).
    + rewrite (neqb_true _ _ Hf). by destruct (negb _).
    + rewrite (neqb_true _ _ Hf). rewrite orb_true_r. by destruct (negb _).
  - intros Hf HA HB HC HAB HCA HCB.
    rewrite mm_mt_valid by done. cbn zeta.
    by rewrite (scratch_refused_test _ Hf).
Qed.

Lemma failed_call_output_witness :
  mv_mt calm (mkMat 3 4 (Some (replicate 12 1))) (vecZ [1; 2; 3; 4; 5])
    (vecZ [7; 8; 9]) (mkKCfg 2 0) = (-1, vecZ [7; 8; 9]) /\
  mm_mt (mkEnv false true false (fun _ => true))
    (mkMat 1 1 (Some [2])) (mkMat 1 1 (Some [3])) (mkMat 1 1 (Some [7]))
    (mkKCfg 1 0) = (-1, mkMat 1 1 (Some [0])).
Proof.
  destruct (failed_call_output calm (mkMat 3 4 (Some (replicate 12 1)))
              (mkMat 1 1 (Some [3])) (mkMat 1 1 (Some [7]))
              (vecZ [1; 2; 3; 4; 5]) (vecZ [7; 8; 9]) 0 0 (mkKCfg 2 0) 1)
    as (Hmv & _).
  destruct (failed_call_output (mkEnv false true false (fun _ => true))
              (mkMat 1 1 (Some [2]))
              (mkMat 1 1 (Some [3])) (mkMat 1 1 (Some [7]))
              (vecZ [1]) (vecZ [7]) 0 0 (mkKCfg 1 0) 1)
    as (_ & _ & _ & _ & Hmm).
  split.
  - apply Hmv. left. cbn. lia.
  - apply Hmm; cbn; try done; try (by eexists).
    + right. reflexivity.
    + unfold mat_wf, SIZE_MAX. cbn. split_and!; try lia. by eexists.
Defined.

(** ** Matrix-matrix product: the output is cleared first *)

(** [C3] On valid arguments (buffers present, dimensions compatible)
    [mm_mt] clears [C] before any worker runs: a successful call returns
    what the workers compute from an all-zero buffer, the result does not
    depend on what [C] held before, and a second call into the buffer the
    first one left returns exactly what the first returned. *)
Theorem mm_mt_rezeroes {F : Type} `{Scalar F} (e : Env) (A B C : Mat F)
    (cfg : KCfg) :
  is_Some (m_data A) -> is_Some (m_data B) -> mat_wf C ->
  cols A = rows B -> rows C = rows A -> cols C = cols B ->
  (ths_ok e = true -> jobs_ok e = true ->
   mm_mt e A B C cfg
   = (0, mkMat (rows C) (cols C)
           (Some (run_workers e (threads (nt cfg))
                    (fun t => mm_worker (g_stop e) A B t
                                (threads (nt cfg)) (tile cfg))
                    (replicate (Z.to_nat (rows C * cols C)) zero))))) /\
  (forall C' : Mat F,
     mat_wf C' -> rows C' = rows C -> cols C' = cols C ->
     mm_mt e A B C' cfg = mm_mt e A B C cfg) /\
  mm_mt e A B (snd (mm_mt e A B C cfg)) cfg = mm_mt e A B C cfg.
Proof.
  intros HA HB HC HAB HCA HCB.
  assert (Hind : forall C' : Mat F,
             mat_wf C' -> rows C' = rows C -> cols C' = cols C ->
             mm_mt e A B C' cfg = mm_mt e A B C cfg).
  { intros C' HC' Hr Hc.
    rewrite (mm_mt_valid e A B C'), (mm_mt_valid e A B C) by congruence.
    by rewrite Hr, Hc. }
  split_and!; [|done|].
  - intros Ht Hj. rewrite mm_mt_valid by done. cbn zeta.
    by rewrite scratch_granted_test.
  - apply Hind.
    + rewrite mm_mt_valid by done. cbn zeta.
      destruct HC as (Hr & Hc & Hsz & _).
      destruct (negb (ths_ok e) || negb (jobs_ok e)); cbn [snd];
        unfold mat_wf; cbn [rows cols m_data];
        (split_and!; [lia..|]); eexists; (split; [reflexivity|]).
      * rewrite length_replicate. lia.
      * rewrite (run_workers_inv
                   (fun l => length l = Z.to_nat (rows C * cols C))).
        -- lia.
        -- apply length_replicate.
        -- intros t l Hl. by rewrite mm_worker_length.
    + rewrite mm_mt_valid by done. cbn zeta. by destruct (_ || _).
    + rewrite mm_mt_valid by done. cbn zeta. by destruct (_ || _).
Qed.

Lemma mm_mt_rezeroes_witness :
  mm_mt calm (mkMat 2 2 (Some [1; 2; 3; 4])) (mkMat 2 2 (Some [5; 6; 7; 8]))
    (snd (mm_mt calm (mkMat 2 2 (Some [1; 2; 3; 4]))
            (mkMat 2 2 (Some [5; 6; 7; 8]))
            (mkMat 2 2 (Some [9; 9; 9; 9])) (mkKCfg 2 1))) (mkKCfg 2 1)
  = (0, mkMat 2 2 (Some [19; 22; 43; 50])).
Proof.
  destruct (mm_mt_rezeroes calm (mkMat 2 2 (Some [1; 2; 3; 4]))
              (mkMat 2 2 (Some [5; 6; 7; 8]))
              (mkMat 2 2 (Some [9; 9; 9; 9])) (mkKCfg 2 1))
    as (_ & _ & Htwice);
    [by eexists | by eexists | | reflexivity | reflexivity | reflexivity |].
  - unfold mat_wf, SIZE_MAX. cbn. split_and!; try lia. by eexists.
  - rewrite Htwice. reflexivity.
Defined.

(** ** Loops that update one cell per index *)

Section CellLoops.
Context {F : Type} `{Scalar F}.

Lemma rd_lookup (l : list F) (i : nat) v :
  l !! i = Some v -> rd l (Z.of_nat i) = v.
Proof. unfold rd. rewrite Nat2Z.id. by intros ->. Qed.

(** After the first [m] indices the loop has rewritten the first [m]
    cells, each from its own prior content. *)
Lemma fold_update_seq (g : Z -> F -> F) (ybuf : list F) (m : nat) :
  (m <= length ybuf)%nat ->
  fold_left (fun y i => <[Z.to_nat i := g i (rd y i)]> y)
    (seqZ 0 (Z.of_nat m)) ybuf
  = ((fun i => g i (rd ybuf i)) <$> seqZ 0 (Z.of_nat m)) ++ drop m ybuf.
Proof.
  induction m as [|m IH]; intros Hm; [done|].
  rewrite seqZ_S, fold_left_app, IH, fmap_app by lia. cbn [fold_left fmap list_fmap].
  set (pre := (fun i => g i (rd ybuf i)) <$> seqZ 0 (Z.of_nat m)).
  assert (Hpre : length pre = m)
    by (unfold pre; rewrite length_fmap, length_seqZ; lia).
  destruct (lookup_lt_is_Some_2 ybuf m ltac:(lia)) as [v Hv].
  rewrite Z.add_0_l, Nat2Z.id.
  assert (rd (pre ++ drop m ybuf) (Z.of_nat m) = rd ybuf (Z.of_nat m)) as ->.
  { rewrite (rd_lookup ybuf m v Hv). apply rd_lookup.
    rewrite lookup_app_r by lia. rewrite Hpre, Nat.sub_diag, lookup_drop.
    by rewrite Nat.add_0_r. }
  rewrite insert_app_r_alt by lia. rewrite Hpre, Nat.sub_diag.
  rewrite (drop_S ybuf v m Hv). cbn. by rewrite <- app_assoc.
Qed.

Lemma update_loop_all (g : Z -> F -> F) (ybuf : list F) (n : Z) :
  Z.of_nat (length ybuf) = n ->
  for_rows false (seqZ 0 n) (fun i y => <[Z.to_nat i := g i (rd y i)]> y) ybuf
  = (fun i => g i (rd ybuf i)) <$> seqZ 0 n.
Proof.
  intros <-. rewrite for_rows_false, fold_update_seq by lia.
  by rewrite drop_all, app_nil_r.
Qed.

Lemma fmap_seqZ_zip_with {B : Type} (f : F -> F -> B) (xs ys : list F) (n : Z) :
  Z.of_nat (length xs) = n -> Z.of_nat (length ys) = n ->
  (fun i => f (rd xs i) (rd ys i)) <$> seqZ 0 n = zip_with f xs ys.
Proof.
  intros Hx Hy. apply list_eq. intros i.
  rewrite list_lookup_fmap, lookup_zip_with.
  destruct (decide (Z.of_nat i < n)) as [Hi|Hi].
  - rewrite lookup_seqZ_lt, Z.add_0_l by done.
    destruct (lookup_lt_is_Some_2 xs i ltac:(lia)) as [xv Hxv].
    destruct (lookup_lt_is_Some_2 ys i ltac:(lia)) as [yv Hyv].
    rewrite Hxv, Hyv. cbn [fmap option_fmap option_map mbind option_bind].
    by rewrite (rd_lookup _ _ _ Hxv), (rd_lookup _ _ _ Hyv).
  - rewrite lookup_seqZ_ge by lia. cbn.
    rewrite (lookup_ge_None_2 xs i) by lia. reflexivity.
Qed.

End CellLoops.

Lemma threads_bounds n : n <= INT_MAX -> 1 <= threads n <= INT_MAX.
Proof.
  unfold threads, INT_MAX. intros. destruct (Z.leb_spec n 0); lia.
Qed.

Lemma undisturbed_calm : undisturbed calm.
Proof. by repeat split. Qed.

(** ** Matrix-vector product: the thread count does not matter *)

Section MatVec.
Context {F : Type} `{Scalar F}.

Lemma mv_workers_rows e (A : Mat F) (x : Vec F) n ybuf :
  (forall t, create_ok e t = true) ->
  0 <= rows A <= SIZE_MAX -> 1 <= n <= INT_MAX ->
  run_workers e n (fun t => mv_worker (g_stop e) A x t n) ybuf
  = for_rows (g_stop e) (seqZ 0 (rows A))
      (fun i y => <[Z.to_nat i := mv_row A x i]> y) ybuf.
Proof. intros. unfold mv_worker. by apply run_workers_rows. Qed.

Lemma mv_mt_value e (A : Mat F) (x y : Vec F) cfg :
  undisturbed e -> is_Some (m_data A) -> is_Some (v_data x) -> vec_wf y ->
  cols A = len x -> rows A = len y -> nt cfg <= INT_MAX ->
  mv_mt e A x y cfg
  = (0, mkVec (len y) (Some (mv_row A x <$> seqZ 0 (rows A)))).
Proof.
  intros (Hstop & Hths & Hjobs & Hok) [a Ha] [xs Hxs]
    (Hy0 & Hysz & ybuf & Hy & Hlen) Hcx Hry Hn.
  unfold mv_mt. rewrite Ha, Hxs, Hy.
  rewrite !neqb_false, scratch_granted_test by done. cbn [orb].
  fold (threads (nt cfg)).
  rewrite mv_workers_rows by (done || (try apply threads_bounds; lia)).
  rewrite Hstop, (update_loop_all (fun i _ => mv_row A x i)) by lia.
  reflexivity.
Qed.

End MatVec.

(** [C6] When every worker starts, [mv_mt] with [N] threads returns exactly
    what it returns with one thread, for every row count (0 included) and
    every [N >= 1]: status and every cell of [y] are equal, hence equal
    within any tolerance.  In an undisturbed run on valid arguments each
    [y[i]] is the inner sum [mv_row A x i] of its row, formed in the same
    order of [k] whatever the partition. *)
Theorem mv_mt_thread_count {F : Type} `{Scalar F} (e : Env) (A : Mat F)
    (x y : Vec F) (N tl : Z) :
  (forall t, create_ok e t = true) ->
  0 <= rows A <= SIZE_MAX -> 1 <= N <= INT_MAX ->
  mv_mt e A x y (mkKCfg N tl) = mv_mt e A x y (mkKCfg 1 tl) /\
  (undisturbed e -> is_Some (m_data A) -> is_Some (v_data x) -> vec_wf y ->
   cols A = len x -> rows A = len y ->
   mv_mt e A x y (mkKCfg N tl)
   = (0, mkVec (len y) (Some (mv_row A x <$> seqZ 0 (rows A))))).
Proof.
  intros Hok HR HN.
  assert (Hrun : forall ybuf : list F,
            run_workers e (threads N) (fun t => mv_worker (g_stop e) A x t (threads N)) ybuf
            = for_rows (g_stop e) (seqZ 0 (rows A))
                (fun i y => <[Z.to_nat i := mv_row A x i]> y) ybuf).
  { intros. apply mv_workers_rows; [done..|]. apply threads_bounds. lia. }
  split.
  - unfold mv_mt. cbn [nt].
    destruct (m_data A), (v_data x), (v_data y) as [ybuf|]; try done.
    destruct (_ || _); [done|]. destruct (_ || _); [done|].
    fold (threads N). fold (threads 1).
    rewrite Hrun.
    rewrite mv_workers_rows by (done || (unfold INT_MAX, threads; cbn; lia)).
    reflexivity.
  - intros. apply mv_mt_value; try done. cbn [nt]. lia.
Qed.

Lemma mv_mt_thread_count_witness :
  mv_mt calm (mkMat 3 2 (Some [1; 2; 3; 4; 5; 6])) (vecZ [1; 10])
    (vecZ [0; 0; 0]) (mkKCfg 8 0)
  = mv_mt calm (mkMat 3 2 (Some [1; 2; 3; 4; 5; 6])) (vecZ [1; 10])
      (vecZ [0; 0; 0]) (mkKCfg 1 0) /\
  mv_mt calm (mkMat 3 2 (Some [1; 2; 3; 4; 5; 6])) (vecZ [1; 10])
    (vecZ [0; 0; 0]) (mkKCfg 8 0) = (0, vecZ [21; 43; 65]).
Proof.
  destruct (mv_mt_thread_count calm (mkMat 3 2 (Some [1; 2; 3; 4; 5; 6]))
              (vecZ [1; 10]) (vecZ [0; 0; 0]) 8 0) as [Heq Hval];
    [done | cbn; unfold SIZE_MAX; lia | unfold INT_MAX; lia |].
  split; [exact Heq|].
  rewrite Hval; [reflexivity | apply undisturbed_calm | by eexists
                | by eexists | | reflexivity | reflexivity].
  unfold vec_wf, SIZE_MAX. cbn. split_and!; try lia. by eexists.
Defined.

(** ** AXPY *)

Section Axpy.
Context {F : Type} `{Scalar F}.

Lemma ax_mt_value (e : Env) (a : F) (x y : Vec F) (xs ys : list F) (n : Z) :
  undisturbed e ->
  v_data x = Some xs -> v_data y = Some ys ->
  Z.of_nat (length xs) = len x -> Z.of_nat (length ys) = len y ->
  len x = len y -> len x <= SIZE_MAX -> n <= INT_MAX ->
  ax_mt e a x y n = (0, mkVec (len y) (Some (axpy_seq a xs ys))).
Proof.
  intros (Hstop & Hths & Hjobs & Hok) Hx Hy Hlx Hly Hxy Hmax Hn.
  unfold ax_mt. rewrite Hx, Hy.
  rewrite neqb_false, scratch_granted_test by done.
  fold (threads n). unfold ax_worker.
  rewrite (run_workers_rows e (len x) (threads n)
             (fun i y0 =>
                <[Z.to_nat i := add (mul a (rd (cells (v_data x)) i)) (rd y0 i)]> y0))
    by (try apply threads_bounds; done || lia).
  rewrite Hstop, Hx. cbn [cells default].
  rewrite (update_loop_all (fun i yi => add (mul a (rd xs i)) yi)) by lia.
  rewrite (fmap_seqZ_zip_with (fun xi yi => add (mul a xi) yi)) by lia.
  reflexivity.
Qed.

End Axpy.

(** [C8] In an undisturbed run, for every scalar [a] and vectors [x], [y]
    of equal length with present buffers, [ax_mt] returns 0 and leaves in
    [y] the vector whose cell [i] is [a * x[i] + y[i]] for the prior
    [y[i]], every index being updated once; and
    [ax_mt(2, [1,2,3], [10,20,30], 2)] leaves [y = [12,24,36]]. *)
Theorem ax_mt_result {F : Type} `{Scalar F} (e : Env) (a : F) (x y : Vec F)
    (xs ys : list F) (n : Z) :
  undisturbed e ->
  v_data x = Some xs -> v_data y = Some ys ->
  Z.of_nat (length xs) = len x -> Z.of_nat (length ys) = len y ->
  len x = len y -> len x <= SIZE_MAX -> n <= INT_MAX ->
  ax_mt e a x y n = (0, mkVec (len y) (Some (axpy_seq a xs ys))) /\
  length (axpy_seq a xs ys) = length ys /\
  (forall i xi yi, xs !! i = Some xi -> ys !! i = Some yi ->
     axpy_seq a xs ys !! i = Some (add (mul a xi) yi)) /\
  ax_mt calm 2 (vecZ [1; 2; 3]) (vecZ [10; 20; 30]) 2
  = (0, vecZ [12; 24; 36]).
Proof.
  intros He Hx Hy Hlx Hly Hxy Hmax Hn.
  split_and!.
  - by apply ax_mt_value.
  - unfold axpy_seq. rewrite length_zip_with. lia.
  - intros i xi yi Hxi Hyi. unfold axpy_seq.
    rewrite lookup_zip_with, Hxi, Hyi. reflexivity.
  - reflexivity.
Qed.

Lemma ax_mt_result_witness :
  ax_mt calm 2 (vecZ [1; 2; 3]) (vecZ [10; 20; 30]) 2
  = (0, vecZ [12; 24; 36]).
Proof.
  destruct (ax_mt_result calm 2 (vecZ [1; 2; 3]) (vecZ [10; 20; 30])
              [1; 2; 3] [10; 20; 30] 2) as [Hres _];
    [apply undisturbed_calm | reflexivity | reflexivity | reflexivity
    | reflexivity | reflexivity | cbn; unfold SIZE_MAX; lia
    | unfold INT_MAX; lia |].
  rewrite Hres. reflexivity.
Defined.

(** ** Dot product *)

Section Dot.
Context {F : Type} `{ExactScalar F}.

Lemma fold_left_add_map {A : Type} (g : A -> F) (l : list A) (s : F) :
  fold_left (fun s i => add s (g i)) l s = fold_left add (map g l) s.
Proof. revert s. induction l as [|i l IH]; intros s; cbn; [done|apply IH]. Qed.

Lemma fold_left_add_shift (l : list F) (s : F) :
  fold_left add l s = add s (fold_left add l zero).
Proof.
  revert s. induction l as [|v l IH]; intros s; cbn.
  - by rewrite add_zero_r.
  - rewrite IH, (IH (add zero v)), add_zero_l. by rewrite add_assoc.
Qed.

(** Adding a private partial sum is continuing the running sum over the
    worker's range. *)
Lemma partial_continues stop (l : list Z) (g : Z -> F) (s : F) :
  add s (for_rows stop l (fun i s => add s (g i)) zero)
  = for_rows stop l (fun i s => add s (g i)) s.
Proof.
  destruct stop; [by rewrite !for_rows_true, add_zero_r|].
  rewrite !for_rows_false.
  rewrite (fold_left_add_map g l s), (fold_left_add_map g l zero).
  symmetry. apply fold_left_add_shift.
Qed.

Lemma dt_mt_value (e : Env) (x y : Vec F) (xs ys : list F) (out : F) (n : Z) :
  undisturbed e ->
  v_data x = Some xs -> v_data y = Some ys ->
  Z.of_nat (length xs) = len x -> Z.of_nat (length ys) = len y ->
  len x = len y -> len x <= SIZE_MAX -> n <= INT_MAX ->
  dt_mt e x y out n = (0, dot_seq xs ys).
Proof.
  intros (Hstop & Hths & Hjobs & Hok) Hx Hy Hlx Hly Hxy Hmax Hn.
  unfold dt_mt. rewrite Hx, Hy.
  rewrite neqb_false, scratch_granted_test by done.
  fold (threads n).
  unfold dt_worker. rewrite Hx, Hy. cbn [cells default].
  transitivity
    (0, run_workers e (threads n)
          (fun t => for_rows (g_stop e) (range_rows (len x) t (threads n))
                      (fun i s => add s (mul (rd xs i) (rd ys i)))) zero).
  { f_equal. unfold run_workers.
    apply (fold_left_ext_in _
             (fun t s =>
                add s (for_rows (g_stop e) (range_rows (len x) t (threads n))
                         (fun i s => add s (mul (rd xs i) (rd ys i))) zero))).
    intros t s _. apply partial_continues. }
  rewrite run_workers_rows by (try apply threads_bounds; done || lia).
  rewrite Hstop, for_rows_false, fold_left_add_map.
  unfold dot_seq. do 2 f_equal.
  rewrite <- (fmap_seqZ_zip_with mul xs ys (len x)) by lia. reflexivity.
Qed.

End Dot.

(** ** The dot product without laws of arithmetic *)

(** With at least as many workers as rows, worker [T] has row [T] alone,
    or no row. *)
Lemma range_rows_few (R N T : Z) :
  0 <= R <= N -> 1 <= N <= INT_MAX -> 0 <= T < N ->
  range_rows R T N = (if T <? R then [T] else []).
Proof.
  intros HR HN HT.
  assert (HSI : INT_MAX < SIZE_MAX) by (unfold INT_MAX, SIZE_MAX; lia).
  rewrite range_rows_closed by lia. unfold part_start.
  assert (Hdm : R / N = (if R =? N then 1 else 0)
                /\ R mod N = (if R =? N then 0 else R)).
  { destruct (Z.eqb_spec R N) as [->|Hne].
    - by rewrite Z.div_same, Z_mod_same_full by lia.
    - by rewrite (Z.div_small R N), (Z.mod_small R N) by lia. }
  destruct Hdm as [-> ->].
  destruct (Z.eqb_spec R N), (Z.ltb_spec T R).
  - rewrite seqZ_cons by lia. rewrite seqZ_nil by lia. f_equal. lia.
  - lia.
  - rewrite seqZ_cons by lia. rewrite seqZ_nil by lia. f_equal. lia.
  - rewrite seqZ_nil by lia. reflexivity.
Qed.

Section DotStructure.
Context {F : Type} `{Scalar F}.

(** The private partial sum of a worker that is not interrupted. *)
Lemma dt_worker_sum (x y : Vec F) (xs ys : list F) (t n : Z) :
  v_data x = Some xs -> v_data y = Some ys ->
  dt_worker false x y t n
  = fold_left add
      (map (fun i => mul (rd xs i) (rd ys i)) (range_rows (len x) t n)) zero.
Proof.
  intros Hx Hy. unfold dt_worker. rewrite Hx, Hy. cbn [cells default].
  by rewrite for_rows_false, fold_left_add_map.
Qed.

(** The output cell receives the partial sums in ascending worker
    index. *)
Lemma dt_mt_partials (e : Env) (x y : Vec F) (xs ys : list F) (out : F)
    (n : Z) :
  undisturbed e -> v_data x = Some xs -> v_data y = Some ys ->
  len x = len y -> 1 <= n ->
  dt_mt e x y out n
  = (0, fold_left add
          (map (fun t => dt_worker (g_stop e) x y t n) (seqZ 0 n)) zero).
Proof.
  intros (Hstop & Hths & Hjobs & Hok) Hx Hy Hxy Hn.
  unfold dt_mt. rewrite Hx, Hy.
  rewrite neqb_false, scratch_granted_test by done.
  replace (if n <=? 0 then 1 else n) with n
    by (destruct (Z.leb_spec n 0); lia).
  unfold run_workers. rewrite spawn_all by done.
  by rewrite fold_left_add_map.
Qed.

(** With at least as many workers as cells, each of the first [len]
    workers contributes [0.0 + x[t] * y[t]] and every other worker
    contributes [0.0]: when adding [0.0] to the sum [v] of the former
    leaves it as it is, the call stores [v]. *)
Lemma dt_mt_idle_workers (e : Env) (x y : Vec F) (xs ys : list F)
    (out v : F) (n : Z) :
  undisturbed e -> v_data x = Some xs -> v_data y = Some ys ->
  len x = len y -> 0 <= len x <= n -> 1 <= n <= INT_MAX ->
  fold_left add
    (map (fun i => add zero (mul (rd xs i) (rd ys i))) (seqZ 0 (len x)))
    zero = v ->
  add v zero = v ->
  dt_mt e x y out n = (0, v).
Proof.
  intros He Hx Hy Hxy Hlen Hn Hv Hv0.
  rewrite (dt_mt_partials e x y xs ys) by (done || lia).
  destruct He as (-> & _). f_equal.
  assert (Hs : seqZ 0 n = seqZ 0 (len x) ++ seqZ (len x) (n - len x)).
  { rewrite <- (Z.add_0_l (len x)) at 2. rewrite <- seqZ_app by lia.
    f_equal. lia. }
  rewrite Hs, map_app, fold_left_app.
  rewrite <- !fold_left_add_map.
  rewrite (fold_left_ext_in (seqZ 0 (len x)) _
             (fun i s => add s (add zero (mul (rd xs i) (rd ys i))))).
  2:{ intros t s Ht%elem_of_seqZ. f_equal.
      rewrite (dt_worker_sum x y xs ys) by done.
      rewrite range_rows_few by lia.
      destruct (Z.ltb_spec t (len x)); [reflexivity|lia]. }
  rewrite (fold_left_add_map
             (fun i => add zero (mul (rd xs i) (rd ys i)))), Hv.
  rewrite (fold_left_ext_in (seqZ (len x) (n - len x)) _
             (fun _ s => add s zero)).
  2:{ intros t s Ht%elem_of_seqZ. f_equal.
      rewrite (dt_worker_sum x y xs ys) by done.
      rewrite range_rows_few by lia.
      destruct (Z.ltb_spec t (len x)); [lia|reflexivity]. }
  apply (fold_left_inv (fun s => s = v)); [done|].
  by intros _ s ->.
Qed.

End DotStructure.

(** [C7] In an undisturbed run on vectors of equal length, over any
    scalars and so on doubles, every worker of [dt_mt] forms the sum of
    [x[i] * y[i]] over its own range starting from 0, and after the join
    the output cell receives these partial sums added in ascending worker
    index starting from 0.  Where the arithmetic is exact (addition
    associative, 0 neutral) this is the sequential sum of the products,
    whatever the thread count.  On [x = [1,2,3]], [y = [4,5,6]] the result
    is 32 for every thread count, over the integers and over the
    doubles. *)
Theorem dt_mt_sum {F : Type} `{Scalar F} (e : Env) (x y : Vec F)
    (xs ys : list F) (out : F) (n : Z) :
  undisturbed e ->
  v_data x = Some xs -> v_data y = Some ys ->
  Z.of_nat (length xs) = len x -> Z.of_nat (length ys) = len y ->
  len x = len y -> len x <= SIZE_MAX -> 1 <= n <= INT_MAX ->
  (forall t,
     dt_worker (g_stop e) x y t n
     = fold_left add
         (map (fun i => mul (rd xs i) (rd ys i)) (range_rows (len x) t n))
         zero) /\
  dt_mt e x y out n
  = (0, fold_left add
          (map (fun t => dt_worker (g_stop e) x y t n) (seqZ 0 n)) zero) /\
  (ExactScalar F -> dt_mt e x y out n = (0, dot_seq xs ys)) /\
  (forall k o, 1 <= k <= INT_MAX ->
     dt_mt calm (vecZ [1; 2; 3]) (vecZ [4; 5; 6]) o k = (0, 32)) /\
  (forall k o, 1 <= k <= INT_MAX ->
     dt_mt calm (vecD [1; 2; 3]%float) (vecD [4; 5; 6]%float) o k
     = (0, 32%float)).
Proof.
  intros He Hx Hy Hlx Hly Hxy Hmax Hn.
  split_and!.
  - intros t. destruct He as (-> & _). by apply dt_worker_sum.
  - apply (dt_mt_partials e x y xs ys); (done || lia).
  - intros HE. apply dt_mt_value; (done || lia).
  - intros k o Hk.
    rewrite (dt_mt_value calm (vecZ [1; 2; 3]) (vecZ [4; 5; 6])
               [1; 2; 3] [4; 5; 6] o k);
      [reflexivity | apply undisturbed_calm | reflexivity..
      | cbn; unfold SIZE_MAX; lia | lia].
  - intros k o Hk.
    destruct (Z.ltb_spec k 3) as [Hlt|Hge].
    + assert (k = 1 \/ k = 2) as [-> | ->] by lia; reflexivity.
    + apply (dt_mt_idle_workers calm (vecD [1; 2; 3]%float)
               (vecD [4; 5; 6]%float) [1; 2; 3]%float [4; 5; 6]%float);
        [apply undisturbed_calm | reflexivity | reflexivity | reflexivity
        | cbn; lia | lia | reflexivity | reflexivity].
Qed.

Lemma dt_mt_sum_witness :
  dt_mt calm (vecZ [1; 2; 3]) (vecZ [4; 5; 6]) 7 2 = (0, 32) /\
  dt_mt calm (vecD [1; 2; 3]%float) (vecD [4; 5; 6]%float) 7%float 5
  = (0, 32%float).
Proof.
  destruct (dt_mt_sum calm (vecZ [1; 2; 3]) (vecZ [4; 5; 6])
              [1; 2; 3] [4; 5; 6] 7 2) as (_ & _ & Hseq & _ & Hdbl);
    [apply undisturbed_calm | reflexivity | reflexivity | reflexivity
    | reflexivity | reflexivity | cbn; unfold SIZE_MAX; lia
    | unfold INT_MAX; lia |].
  split.
  - rewrite (Hseq Z_ExactScalar). reflexivity.
  - apply Hdbl. unfold INT_MAX. lia.
Defined.

(** ** Cell-by-cell view of the loops *)

Section Pointwise.
Context {F : Type}.
Implicit Types (C : list F) (g : nat -> F -> F).

Lemma imap_compose g1 g2 C :
  imap g2 (imap g1 C) = imap (fun p v => g2 p (g1 p v)) C.
Proof.
  apply list_eq. intros p. rewrite !list_lookup_imap.
  by destruct (C !! p).
Qed.

Lemma imap_same C : imap (fun _ v => v) C = C.
Proof.
  apply list_eq. intros p. rewrite list_lookup_imap. by destruct (C !! p).
Qed.

Lemma pointwise_alter (h : F -> F) (n : nat) :
  pointwise (alter h n) (fun p v => if decide (p = n) then h v else v).
Proof.
  intros C. apply list_eq. intros p.
  rewrite list_lookup_imap, list_lookup_alter.
  destruct (decide (n = p)) as [->|Hne]; destruct (C !! p); cbn;
    try done; case_decide; done || congruence.
Qed.

Lemma pointwise_fold_left (body : Z -> list F -> list F)
    (G : Z -> nat -> F -> F) (ks : list Z) :
  (forall k, pointwise (body k) (G k)) ->
  pointwise (fun C => fold_left (fun C k => body k C) ks C)
            (fun p v => fold_left (fun v k => G k p v) ks v).
Proof.
  intros Hb. induction ks as [|k ks IH]; intros C; cbn.
  - by rewrite imap_same.
  - rewrite IH, Hb, imap_compose. reflexivity.
Qed.

Lemma pointwise_for_range lo hi (body : Z -> list F -> list F)
    (G : Z -> nat -> F -> F) :
  (forall k, pointwise (body k) (G k)) ->
  pointwise (for_range lo hi body)
            (fun p v => for_range lo hi (fun k v => G k p v) v).
Proof. intros Hb. by apply pointwise_fold_left. Qed.

End Pointwise.

(** ** Stepped loops and their blocks *)

Section Steps.
Context {S : Type}.

Lemma for_step_steps fuel i hi step (body : Z -> S -> S) (s : S) :
  for_step fuel i hi step body s
  = fold_left (fun s j => body j s) (steps fuel i hi step) s.
Proof.
  revert i s. induction fuel as [|fuel IH]; intros i s; cbn; [done|].
  destruct (i <? hi); [apply IH|done].
Qed.

End Steps.

Lemma steps_lower fuel i hi step j :
  0 <= i -> 0 < step -> j ∈ steps fuel i hi step -> 0 <= j.
Proof.
  intros Hi Hstep. revert i Hi. induction fuel as [|fuel IH]; intros i Hi; cbn.
  - by intros ?%elem_of_nil.
  - destruct (i <? hi); [|by intros ?%elem_of_nil].
    intros [->|Hj]%elem_of_cons; [done|].
    apply (IH (size_t (i + step))); [|done].
    unfold size_t. apply Z.mod_pos_bound. lia.
Qed.

(** Without wrap-around and with enough fuel, the blocks of a stepped loop
    laid end to end are the whole range. *)
Lemma blocks_concat fuel i hi step :
  0 <= i -> 0 < step -> hi + step <= SIZE_MAX + 1 ->
  hi - i <= Z.of_nat fuel ->
  concat (map (fun b => seqZ b (min_sz (size_t (b + step)) hi - b))
            (steps fuel i hi step))
  = seqZ i (hi - i).
Proof.
  intros Hi Hstep Hwrap. revert i Hi.
  induction fuel as [|fuel IH]; intros i Hi Hfuel; cbn.
  - by rewrite seqZ_nil by lia.
  - destruct (Z.ltb_spec i hi) as [Hlt|Hge]; [|by rewrite seqZ_nil by lia].
    cbn [map concat]. rewrite !(size_t_small (i + step)) by lia.
    unfold min_sz at 1.
    destruct (Z.ltb_spec (i + step) hi) as [Hin|Hout].
    + rewrite IH by lia.
      replace (hi - i) with ((i + step - i) + (hi - (i + step))) by lia.
      rewrite seqZ_app by lia. repeat (f_equal; try lia).
    + destruct fuel as [|fuel']; cbn; [by rewrite app_nil_r|].
      destruct (Z.ltb_spec (i + step) hi); [lia|]. by rewrite app_nil_r.
Qed.

(** With enough fuel the loop stops because its test fails: more fuel
    changes nothing. *)
Lemma steps_fuel fuel extra i hi step :
  0 <= i -> 0 < step -> hi + step <= SIZE_MAX + 1 ->
  hi - i <= Z.of_nat fuel ->
  steps (fuel + extra) i hi step = steps fuel i hi step.
Proof.
  intros Hi Hstep Hwrap. revert i Hi.
  induction fuel as [|fuel IH]; intros i Hi Hfuel; cbn.
  - destruct extra as [|extra]; cbn; [done|].
    destruct (Z.ltb_spec i hi); [lia|done].
  - destruct (Z.ltb_spec i hi) as [Hlt|Hge]; [|done].
    rewrite (size_t_small (i + step)) by lia. f_equal. apply IH; lia.
Qed.

Lemma for_step_fuel {S : Type} fuel extra i hi step (body : Z -> S -> S) s :
  0 <= i -> 0 < step -> hi + step <= SIZE_MAX + 1 ->
  hi - i <= Z.of_nat fuel ->
  for_step (fuel + extra) i hi step body s = for_step fuel i hi step body s.
Proof. intros. by rewrite !for_step_steps, steps_fuel. Qed.

(** ** One cell under the tiled and the untiled row update *)

Lemma fold_left_ext_elem {S A : Type} (f g : S -> A -> S) (l : list A) (s : S) :
  (forall s' a, a ∈ l -> f s' a = g s' a) -> fold_left f l s = fold_left g l s.
Proof.
  revert s. induction l as [|a l IH]; intros s Hfg; cbn; [done|].
  rewrite Hfg by apply list_elem_of_here.
  apply IH. intros s' b Hb. apply Hfg. by apply list_elem_of_further.
Qed.

Lemma fold_left_decide {S A : Type} (P : Prop) `{Decision P}
    (f : S -> A -> S) (l : list A) (s : S) :
  fold_left (fun s a => if decide P then f s a else s) l s
  = if decide P then fold_left f l s else s.
Proof.
  destruct (decide P); [done|]. revert s. induction l; intros; cbn; auto.
Qed.

Lemma fold_left_blocks {S A : Type} (f : S -> A -> S) (blk : Z -> list A)
    (bs : list Z) (s : S) :
  fold_left (fun s b => fold_left f (blk b) s) bs s
  = fold_left f (concat (map blk bs)) s.
Proof.
  revert s. induction bs as [|b bs IH]; intros s; cbn; [done|].
  by rewrite fold_left_app, IH.
Qed.

(** A loop that acts on the single index [c0] acts at most once. *)
Lemma single_hit {S : Type} (h : S -> S) (c0 lo n : Z) (s : S) :
  fold_left (fun s c => if decide (c = c0) then h s else s) (seqZ lo n) s
  = if decide (lo <= c0 < lo + n) then h s else s.
Proof.
  remember (Z.to_nat n) as m eqn:Hm. revert lo n s Hm.
  induction m as [|m IH]; intros lo n s Hm.
  - rewrite seqZ_nil by lia. by rewrite decide_False by lia.
  - rewrite seqZ_cons by lia. cbn [fold_left].
    rewrite IH by lia.
    destruct (decide (lo = c0)) as [->|Hne].
    + rewrite decide_False by lia. by rewrite decide_True by lia.
    + destruct (decide (Z.succ lo <= c0 < Z.succ lo + Z.pred n)).
      * by rewrite decide_True by lia.
      * by rewrite decide_False by lia.
Qed.

Section Cells.
Context {F : Type} `{Scalar F}.
Implicit Types (B : list F) (v : F) (p : nat).

Lemma cell_cols B (a : F) brow crow lo hi p v :
  0 <= crow -> 0 <= lo ->
  for_range lo hi (fun col v => cell_acc B a brow crow col p v) v
  = if decide (lo <= Z.of_nat p - crow < lo + (hi - lo))
    then add v (mul a (rd B (brow + (Z.of_nat p - crow))))
    else v.
Proof.
  intros Hcrow Hlo. unfold for_range.
  rewrite <- (single_hit
                (fun v => add v (mul a (rd B (brow + (Z.of_nat p - crow)))))).
  apply fold_left_ext_elem. intros v' c Hc%elem_of_seqZ. unfold cell_acc.
  destruct (decide (p = Z.to_nat (crow + c))) as [Hp|Hp],
           (decide (c = Z.of_nat p - crow)) as [Hc0|Hc0];
    try done; try lia.
  by rewrite <- Hc0.
Qed.

Lemma cell_untiled B (a : Z -> F) (brow : Z -> Z) crow K N p v :
  0 <= crow ->
  for_range 0 K (fun k v =>
    for_range 0 N (fun jj v => cell_acc B (a k) (brow k) crow jj p v) v) v
  = cell_row B a brow crow K N p v.
Proof.
  intros Hcrow. unfold cell_row, for_range at 1.
  rewrite <- fold_left_decide.
  apply fold_left_ext_elem. intros v' k _. by apply cell_cols.
Qed.

Lemma cell_tiled B (a : Z -> F) (brow : Z -> Z) crow K N T p v :
  0 <= crow -> 0 < T -> 0 <= K -> 0 <= N ->
  K + T <= SIZE_MAX + 1 -> N + T <= SIZE_MAX + 1 ->
  for_step (Z.to_nat N) 0 N T (fun jj v =>
    for_step (Z.to_nat K) 0 K T (fun kk v =>
      for_range kk (min_sz (size_t (kk + T)) K) (fun k v =>
        for_range jj (min_sz (size_t (jj + T)) N) (fun col v =>
          cell_acc B (a k) (brow k) crow col p v) v) v) v) v
  = cell_row B a brow crow K N p v.
Proof.
  intros Hcrow HT HK HN HKT HNT.
  set (c0 := Z.of_nat p - crow).
  set (W := fun v : F =>
              fold_left (fun v k => add v (mul (a k) (rd B (brow k + c0))))
                (seqZ 0 (K - 0)) v).
  rewrite for_step_steps.
  transitivity
    (fold_left
       (fun v jj =>
          fold_left (fun v c => if decide (c = c0) then W v else v)
            (seqZ jj (min_sz (size_t (jj + T)) N - jj)) v)
       (steps (Z.to_nat N) 0 N T) v).
  - apply fold_left_ext_elem. intros v1 jj Hjj.
    apply steps_lower in Hjj; [|lia..].
    rewrite single_hit, for_step_steps.
    transitivity
      (fold_left
         (fun v kk =>
            if decide (jj <= c0 < jj + (min_sz (size_t (jj + T)) N - jj))
            then fold_left
                   (fun v k => add v (mul (a k) (rd B (brow k + c0))))
                   (seqZ kk (min_sz (size_t (kk + T)) K - kk)) v
            else v)
         (steps (Z.to_nat K) 0 K T) v1).
    + apply fold_left_ext_elem. intros v2 kk _. unfold for_range at 1.
      rewrite <- fold_left_decide.
      apply fold_left_ext_elem. intros v3 k _. by apply cell_cols.
    + rewrite fold_left_decide. destruct (decide _); [|done].
      rewrite (fold_left_blocks
                 (fun v k => add v (mul (a k) (rd B (brow k + c0))))
                 (fun kk => seqZ kk (min_sz (size_t (kk + T)) K - kk))).
      rewrite blocks_concat by lia. reflexivity.
  - rewrite (fold_left_blocks
               (fun v c => if decide (c = c0) then W v else v)
               (fun jj => seqZ jj (min_sz (size_t (jj + T)) N - jj))).
    rewrite blocks_concat by lia. rewrite single_hit. reflexivity.
Qed.

End Cells.

(** ** Tiled and untiled matrix-matrix product *)

Lemma size_t_nonneg z : 0 <= size_t z.
Proof. unfold size_t. apply Z.mod_pos_bound. lia. Qed.

Section Tiling.
Context {F : Type} `{Scalar F}.

Lemma pointwise_for_step fuel i hi step (body : Z -> list F -> list F)
    (G : Z -> nat -> F -> F) :
  (forall k, pointwise (body k) (G k)) ->
  pointwise (for_step fuel i hi step body)
            (fun p v => for_step fuel i hi step (fun j v => G j p v) v).
Proof.
  intros Hb C.
  rewrite for_step_steps, (pointwise_fold_left body G _ Hb).
  apply imap_ext. intros p v _. by rewrite for_step_steps.
Qed.

Lemma mm_acc_pointwise (B : list F) a brow crow col :
  pointwise (mm_acc B a brow crow col) (cell_acc B a brow crow col).
Proof. unfold mm_acc, cell_acc. apply pointwise_alter. Qed.

Lemma mm_row_pointwise (A B : Mat F) i :
  pointwise (mm_row A B i)
    (cell_row (cells (m_data B))
       (fun k => rd (cells (m_data A)) (size_t (size_t (i * cols A) + k)))
       (fun k => size_t (k * cols B)) (size_t (i * cols B))
       (cols A) (cols B)).
Proof.
  intros C. unfold mm_row.
  rewrite (pointwise_for_range 0 (cols A) _
             (fun k p v =>
                for_range 0 (cols B) (fun jj v =>
                  cell_acc (cells (m_data B))
                    (rd (cells (m_data A)) (size_t (size_t (i * cols A) + k)))
                    (size_t (k * cols B)) (size_t (i * cols B)) jj p v) v)).
  - apply imap_ext. intros p v _.
    apply (cell_untiled (cells (m_data B))
             (fun k => rd (cells (m_data A)) (size_t (size_t (i * cols A) + k)))
             (fun k => size_t (k * cols B))).
    apply size_t_nonneg.
  - intros k. apply pointwise_for_range. intros jj. apply mm_acc_pointwise.
Qed.

Lemma mm_row_tiled_pointwise (A B : Mat F) T i :
  0 < T -> 0 <= cols A -> 0 <= cols B ->
  cols A + T <= SIZE_MAX + 1 -> cols B + T <= SIZE_MAX + 1 ->
  pointwise (mm_row_tiled A B T i)
    (cell_row (cells (m_data B))
       (fun k => rd (cells (m_data A)) (size_t (size_t (i * cols A) + k)))
       (fun k => size_t (k * cols B)) (size_t (i * cols B))
       (cols A) (cols B)).
Proof.
  intros HT HK HN HKT HNT C. unfold mm_row_tiled.
  rewrite (pointwise_for_step _ 0 (cols B) T _
             (fun jj p v =>
                for_step (Z.to_nat (cols A)) 0 (cols A) T (fun kk v =>
                  for_range kk (min_sz (size_t (kk + T)) (cols A)) (fun k v =>
                    for_range jj (min_sz (size_t (jj + T)) (cols B))
                      (fun col v =>
                         cell_acc (cells (m_data B))
                           (rd (cells (m_data A))
                              (size_t (size_t (i * cols A) + k)))
                           (size_t (k * cols B)) (size_t (i * cols B))
                           col p v) v) v) v)).
  - apply imap_ext. intros p v _.
    apply (cell_tiled (cells (m_data B))
             (fun k => rd (cells (m_data A)) (size_t (size_t (i * cols A) + k)))
             (fun k => size_t (k * cols B))); try done.
    apply size_t_nonneg.
  - intros jj. apply pointwise_for_step. intros kk.
    apply pointwise_for_range. intros k.
    apply pointwise_for_range. intros col. apply mm_acc_pointwise.
Qed.

(** The tiled row update and the untiled one leave the same block. *)
Lemma mm_row_tiled_eq (A B : Mat F) T i C :
  0 < T -> 0 <= cols A -> 0 <= cols B ->
  cols A + T <= SIZE_MAX + 1 -> cols B + T <= SIZE_MAX + 1 ->
  mm_row_tiled A B T i C = mm_row A B i C.
Proof.
  intros. rewrite mm_row_tiled_pointwise, mm_row_pointwise by done.
  reflexivity.
Qed.

Lemma mm_worker_tiling stop (A B : Mat F) t n tl1 tl0 C :
  0 <= rows A <= SIZE_MAX -> 0 <= cols A -> 0 <= cols B ->
  8 * (rows A * cols A) <= SIZE_MAX -> 8 * (rows A * cols B) <= SIZE_MAX ->
  1 <= n <= INT_MAX -> 0 <= t < n ->
  0 < tl1 <= INT_MAX -> tl0 <= 0 ->
  mm_worker stop A B t n tl1 C = mm_worker stop A B t n tl0 C.
Proof.
  intros HR HK HN HA HB Hn Ht Htl1 Htl0. unfold mm_worker.
  destruct (Z.leb_spec tl1 0); [lia|].
  destruct (Z.leb_spec tl0 0); [|lia].
  assert (HIS : INT_MAX < 2 ^ 32 /\ SIZE_MAX = 2 ^ 64 - 1)
    by (unfold INT_MAX, SIZE_MAX; lia).
  rewrite (size_t_small tl1) by lia.
  apply for_rows_ext. intros i C' Hi.
  apply range_rows_elem in Hi; [|done..].
  apply mm_row_tiled_eq; [lia | done | done | nia | nia].
Qed.

End Tiling.

Lemma run_workers_ext {S : Type} (e : Env) (n : Z) (w1 w2 : Z -> S -> S)
    (s : S) :
  (forall t s', 0 <= t < n -> w1 t s' = w2 t s') ->
  run_workers e n w1 s = run_workers e n w2 s.
Proof.
  intros Hw. unfold run_workers. apply fold_left_ext_in.
  intros t s' Ht%spawn_elem%elem_of_seqZ. apply Hw. lia.
Qed.

Section ProductValue.
Context {F : Type} `{Scalar F}.

(** The row updates for rows [0 .. M-1], run on an all-zero block, leave
    the product. *)
Lemma mm_rows_all (A B : Mat F) :
  0 <= rows A -> 0 <= cols A -> 0 <= cols B ->
  rows A * cols A <= SIZE_MAX -> cols A * cols B <= SIZE_MAX ->
  rows A * cols B <= SIZE_MAX ->
  fold_left (fun C i => mm_row A B i C) (seqZ 0 (rows A))
    (replicate (Z.to_nat (rows A * cols B)) zero)
  = mm_ref A B.
Proof.
  intros HM HK HN HMK HKN HMN.
  rewrite (pointwise_fold_left (mm_row A B) _ _ (mm_row_pointwise A B)).
  apply list_eq. intros p. unfold mm_ref.
  rewrite list_lookup_imap, list_lookup_fmap.
  destruct (decide (Z.of_nat p < rows A * cols B)) as [Hp|Hp].
  2:{ rewrite lookup_seqZ_ge by lia.
      by rewrite (proj1 (lookup_replicate_None _ _ _)) by lia. }
  rewrite lookup_seqZ_lt, lookup_replicate_2, Z.add_0_l by lia.
  cbn [fmap option_fmap option_map]. f_equal.
  assert (HNpos : 0 < cols B) by nia.
  pose proof (Z.div_mod (Z.of_nat p) (cols B) ltac:(lia)) as Hdm.
  pose proof (Z.mod_pos_bound (Z.of_nat p) (cols B) HNpos) as Hmod.
  assert (Hdiv : 0 <= Z.of_nat p / cols B < rows A).
  { split; [apply Z.div_pos; lia|]. apply Z.div_lt_upper_bound; lia. }
  set (i0 := Z.of_nat p / cols B) in *.
  set (j0 := Z.of_nat p mod cols B) in *.
  transitivity
    (fold_left
       (fun v i => if decide (i = i0)
                   then fold_left
                          (fun v k =>
                             add v (mul (rd (cells (m_data A)) (i0 * cols A + k))
                                        (rd (cells (m_data B)) (k * cols B + j0))))
                          (seqZ 0 (cols A)) v
                   else v)
       (seqZ 0 (rows A)) zero).
  - apply fold_left_ext_elem. intros v i Hi%elem_of_seqZ. unfold cell_row.
    rewrite (size_t_small (i * cols B)) by nia.
    destruct (decide (i = i0)) as [->|Hne].
    + rewrite decide_True by lia. rewrite Z.sub_0_r.
      apply fold_left_ext_elem. intros v' k Hk%elem_of_seqZ.
      rewrite (size_t_small (i0 * cols A)) by nia.
      rewrite (size_t_small (i0 * cols A + k)) by nia.
      rewrite (size_t_small (k * cols B)) by nia.
      do 3 f_equal. lia.
    + rewrite decide_False; [done|].
      intros Hin. apply Hne. unfold i0.
      apply (Z.div_unique _ _ _ (Z.of_nat p - i * cols B)); lia.
  - rewrite single_hit. rewrite decide_True by lia. reflexivity.
Qed.

End ProductValue.

(** [C2] For matrices of compatible dimensions, every thread count and
    every environment, [mm_mt] with a tile edge [T > 0] (16, say) and with
    tiling off (tile [<= 0]) return the same status and the same [C], cell
    for cell, hence equal within any tolerance.  In an undisturbed run both
    leave the product in which cell [(i, j)] is the sum of the terms
    [A[i,k] * B[k,j]], each reduction index [k] contributing exactly once
    and in ascending order. *)
Theorem mm_mt_tiling {F : Type} `{Scalar F} (e : Env) (A B C : Mat F)
    (n tl1 tl0 : Z) :
  mat_wf A -> mat_wf B -> mat_wf C ->
  cols A = rows B -> rows C = rows A -> cols C = cols B ->
  n <= INT_MAX -> 0 < tl1 <= INT_MAX -> tl0 <= 0 ->
  mm_mt e A B C (mkKCfg n tl1) = mm_mt e A B C (mkKCfg n tl0) /\
  (undisturbed e ->
   mm_mt e A B C (mkKCfg n tl1)
   = (0, mkMat (rows C) (cols C) (Some (mm_ref A B))) /\
   mm_mt e A B C (mkKCfg n tl0)
   = (0, mkMat (rows C) (cols C) (Some (mm_ref A B)))).
Proof.
  intros (HAr & HAc & HAsz & abuf & Ha & Hal) (HBr & HBc & HBsz & bbuf & Hb & Hbl)
    HC HAB HCA HCB Hn Htl1 Htl0.
  pose proof HC as (HCr & HCc & HCsz & _).
  pose proof (threads_bounds n Hn) as Hth.
  assert (Heq : mm_mt e A B C (mkKCfg n tl1) = mm_mt e A B C (mkKCfg n tl0)).
  { rewrite !mm_mt_valid by (done || by eexists). cbn zeta. cbn [nt tile].
    destruct (_ || _); [done|]. do 3 f_equal.
    apply run_workers_ext. intros t C' Ht.
    apply mm_worker_tiling; try done; try lia. }
  split; [done|].
  intros (Hstop & Hths & Hjobs & Hok).
  rewrite Heq.
  cut (mm_mt e A B C (mkKCfg n tl0)
       = (0, mkMat (rows C) (cols C) (Some (mm_ref A B)))); [done|].
  rewrite mm_mt_valid by (done || by eexists). cbn zeta. cbn [nt tile].
  rewrite scratch_granted_test by done. do 3 f_equal.
  unfold mm_worker. destruct (Z.leb_spec tl0 0); [|lia].
  rewrite (run_workers_rows e (rows A) (threads n) (mm_row A B)) by done.
  rewrite Hstop, for_rows_false, HCA, HCB.
  apply mm_rows_all; lia.
Qed.

Lemma mm_mt_tiling_witness :
  mm_mt calm (mkMat 2 3 (Some [1; 2; 3; 4; 5; 6]))
    (mkMat 3 2 (Some [1; 0; 0; 1; 1; 1])) (mkMat 2 2 (Some [9; 9; 9; 9]))
    (mkKCfg 3 2)
  = mm_mt calm (mkMat 2 3 (Some [1; 2; 3; 4; 5; 6]))
      (mkMat 3 2 (Some [1; 0; 0; 1; 1; 1])) (mkMat 2 2 (Some [9; 9; 9; 9]))
      (mkKCfg 3 0) /\
  mm_mt calm (mkMat 2 3 (Some [1; 2; 3; 4; 5; 6]))
    (mkMat 3 2 (Some [1; 0; 0; 1; 1; 1])) (mkMat 2 2 (Some [9; 9; 9; 9]))
    (mkKCfg 3 2)
  = (0, mkMat 2 2 (Some [4; 5; 10; 11])).
Proof.
  assert (Hwf : forall r c (l : list Z),
            0 <= r <= 8 -> 0 <= c <= 8 -> Z.of_nat (length l) = r * c ->
            mat_wf (mkMat r c (Some l))).
  { intros r c l Hr Hc Hl. unfold mat_wf, SIZE_MAX. cbn.
    split_and!; try nia. by eexists. }
  destruct (mm_mt_tiling calm (mkMat 2 3 (Some [1; 2; 3; 4; 5; 6]))
              (mkMat 3 2 (Some [1; 0; 0; 1; 1; 1]))
              (mkMat 2 2 (Some [9; 9; 9; 9])) 3 2 0) as [Heq Hval];
    [apply Hwf; cbn; lia | apply Hwf; cbn; lia | apply Hwf; cbn; lia
    | reflexivity | reflexivity | reflexivity
    | unfold INT_MAX; lia | unfold INT_MAX; lia | lia |].
  split; [exact Heq|].
  destruct (Hval undisturbed_calm) as [-> _]. reflexivity.
Defined.

(** ** Zero-size arguments *)

Section ZeroSize.
Context {F : Type} `{Scalar F}.

Lemma nil_of_length (l : list F) : Z.of_nat (length l) = 0 -> l = [].
Proof. destruct l; [done|]. cbn. lia. Qed.

Lemma fmap_const_seqZ (c : F) (g : Z -> F) (n : Z) :
  (forall i, g i = c) -> g <$> seqZ 0 n = replicate (Z.to_nat n) c.
Proof.
  intros Hg. apply list_eq. intros i. rewrite list_lookup_fmap.
  destruct (decide (Z.of_nat i < n)).
  - rewrite lookup_seqZ_lt, lookup_replicate_2 by lia. cbn. by rewrite Hg.
  - rewrite lookup_seqZ_ge by lia.
    by rewrite (proj1 (lookup_replicate_None _ _ _)) by lia.
Qed.

Lemma mv_row_no_cols (A : Mat F) (x : Vec F) i : cols A = 0 -> mv_row A x i = zero.
Proof. intros HK. unfold mv_row. rewrite HK. reflexivity. Qed.

(** With an empty reduction dimension a worker of [mm_mt] changes
    nothing. *)
Lemma mm_worker_no_terms stop (A B : Mat F) t n tl (C : list F) :
  cols A = 0 -> mm_worker stop A B t n tl C = C.
Proof.
  intros HK. unfold mm_worker.
  destruct (tl <=? 0); apply (for_rows_inv (fun C' => C' = C)); try done;
    intros i C' ->.
  - unfold mm_row. rewrite HK. reflexivity.
  - unfold mm_row_tiled. rewrite HK.
    by apply (for_step_inv (fun C' => C' = C)).
Qed.

End ZeroSize.

(** [C5], as stated, fails.  The zero-size objects [m_alloc] and [v_alloc]
    produce have an absent buffer, and [mv_mt] answers them with -1, not
    with success; and on a 2 x 0 matrix with present buffers the call
    succeeds and writes both cells of [y]. *)
Lemma zero_size_counterexample :
  fst (mv_mt calm (m_alloc true 0 3) (vecZ [1; 1; 1]) (v_alloc true 0)
         (mkKCfg 2 0)) = -1 /\
  mv_mt calm (mkMat 2 0 (Some [])) (mkVec 0 (Some [])) (vecZ [7; 8])
    (mkKCfg 2 0) = (0, vecZ [0; 0]).
Proof. split; reflexivity. Qed.

(** ** The order in which the workers run does not matter

    The embedding runs the started workers in ascending index.  The rows of
    two workers are distinct and the updates of distinct rows commute, so
    any other order of the same workers leaves the same buffer. *)

Section Commute.
Context {S : Type}.
Implicit Types (act : Z -> S -> S) (s : S).

Lemma fold_commute_one act a (l : list Z) s :
  (forall b s', b ∈ l -> act a (act b s') = act b (act a s')) ->
  act a (fold_left (fun s b => act b s) l s)
  = fold_left (fun s b => act b s) l (act a s).
Proof.
  revert s. induction l as [|b l IH]; intros s Hc; cbn; [done|].
  rewrite IH by (intros; apply Hc; by apply list_elem_of_further).
  by rewrite Hc by apply list_elem_of_here.
Qed.

Lemma fold_commute act (l1 l2 : list Z) s :
  (forall a b s', a ∈ l1 -> b ∈ l2 -> act a (act b s') = act b (act a s')) ->
  fold_left (fun s a => act a s) l1 (fold_left (fun s b => act b s) l2 s)
  = fold_left (fun s b => act b s) l2 (fold_left (fun s a => act a s) l1 s).
Proof.
  revert s. induction l1 as [|a l1 IH]; intros s Hc; cbn; [done|].
  rewrite fold_commute_one
    by (intros; apply Hc; [apply list_elem_of_here|done]).
  apply IH. intros. apply Hc; [by apply list_elem_of_further|done].
Qed.

Lemma fold_permutation act (l l' : list Z) s :
  l ≡ₚ l' -> NoDup l ->
  (forall a b s', a ∈ l -> b ∈ l -> a <> b ->
                  act a (act b s') = act b (act a s')) ->
  fold_left (fun s a => act a s) l s = fold_left (fun s a => act a s) l' s.
Proof.
  intros Hp. revert s.
  induction Hp as [|a l l' Hp IH|a b l|l1 l2 l3 Hp1 IH1 Hp2 IH2];
    intros s Hnd Hc; cbn.
  - done.
  - apply NoDup_cons in Hnd as [Ha Hnd]. apply IH; [done|].
    intros b c s' Hb Hc' Hne.
    apply Hc; [by apply list_elem_of_further..|done].
  - apply NoDup_cons in Hnd as [Hb Hnd]. f_equal. symmetry.
    apply Hc; [apply list_elem_of_here
              |apply list_elem_of_further, list_elem_of_here|].
    intros ->. apply Hb, list_elem_of_here.
  - rewrite IH1 by done. apply IH2.
    + by rewrite <- Hp1.
    + intros a b s' Ha Hb. apply Hc; by rewrite Hp1.
Qed.

Lemma for_rows_fold_commute stop act (l1 l2 : list Z) s :
  (forall a b s', a ∈ l1 -> b ∈ l2 -> act a (act b s') = act b (act a s')) ->
  for_rows stop l1 act (for_rows stop l2 act s)
  = for_rows stop l2 act (for_rows stop l1 act s).
Proof.
  destruct stop; [by rewrite !for_rows_true|].
  rewrite !for_rows_false. apply fold_commute.
Qed.

(** Any order of the started workers of a row loop gives what
    [run_workers] gives, when the updates of distinct rows commute. *)
Lemma workers_any_order (e : Env) (R N : Z) act (ts : list Z) s :
  0 <= R <= SIZE_MAX -> 1 <= N <= INT_MAX ->
  (forall i j s', 0 <= i < R -> 0 <= j < R -> i <> j ->
                  act i (act j s') = act j (act i s')) ->
  ts ≡ₚ spawn (create_ok e) (seqZ 0 N) ->
  fold_left (fun s t => for_rows (g_stop e) (range_rows R t N) act s) ts s
  = run_workers e N (fun t => for_rows (g_stop e) (range_rows R t N) act) s.
Proof.
  intros HR HN Hc Hp. unfold run_workers. symmetry.
  apply (fold_permutation
           (fun t s => for_rows (g_stop e) (range_rows R t N) act s));
    [done | |].
  - clear. generalize (seqZ 0 N), (NoDup_seqZ 0 N). intros l Hnd.
    induction Hnd as [|t l Ht Hnd IH]; cbn; [constructor|].
    destruct (create_ok e t); constructor; [|done].
    intros Hin. by apply Ht, (spawn_elem (create_ok e)).
  - intros t u s' Ht%spawn_elem%elem_of_seqZ Hu%spawn_elem%elem_of_seqZ Hne.
    apply for_rows_fold_commute. intros i j s'' Hi Hj.
    pose proof (range_rows_elem R N t i HR HN ltac:(lia) Hi).
    pose proof (range_rows_elem R N u j HR HN ltac:(lia) Hj).
    apply Hc; [done..|]. intros ->.
    rewrite range_rows_closed in Hi, Hj by lia.
    apply elem_of_seqZ in Hi, Hj.
    destruct (Z_lt_dec t u).
    + pose proof (part_start_mono R N (t + 1) u ltac:(lia) ltac:(lia) ltac:(lia)).
      lia.
    + pose proof (part_start_mono R N (u + 1) t ltac:(lia) ltac:(lia) ltac:(lia)).
      lia.
Qed.

End Commute.

Section RowsCommute.
Context {F : Type} `{Scalar F}.

Lemma insert_rd_other (y : list F) (i j : Z) (v : F) :
  0 <= i -> 0 <= j -> i <> j -> rd (<[Z.to_nat j := v]> y) i = rd y i.
Proof.
  intros. unfold rd. by rewrite list_lookup_insert_ne by lia.
Qed.

Lemma mv_rows_commute (A : Mat F) (x : Vec F) (i j : Z) (y : list F) :
  0 <= i -> 0 <= j -> i <> j ->
  <[Z.to_nat i := mv_row A x i]> (<[Z.to_nat j := mv_row A x j]> y)
  = <[Z.to_nat j := mv_row A x j]> (<[Z.to_nat i := mv_row A x i]> y).
Proof. intros. apply list_insert_insert_ne. lia. Qed.

Lemma ax_rows_commute (g : Z -> F -> F) (i j : Z) (y : list F) :
  0 <= i -> 0 <= j -> i <> j ->
  (fun i y => <[Z.to_nat i := g i (rd y i)]> y) i
    ((fun i y => <[Z.to_nat i := g i (rd y i)]> y) j y)
  = (fun i y => <[Z.to_nat i := g i (rd y i)]> y) j
      ((fun i y => <[Z.to_nat i := g i (rd y i)]> y) i y).
Proof.
  intros. cbn beta. rewrite !insert_rd_other by lia.
  apply list_insert_insert_ne. lia.
Qed.

Lemma mm_rows_commute (A B : Mat F) (i j : Z) (C : list F) :
  0 <= cols B -> rows A * cols B <= SIZE_MAX ->
  0 <= i < rows A -> 0 <= j < rows A -> i <> j ->
  mm_row A B i (mm_row A B j C) = mm_row A B j (mm_row A B i C).
Proof.
  intros HN HMN Hi Hj Hne.
  rewrite !mm_row_pointwise, !imap_compose.
  apply imap_ext. intros p v _. unfold cell_row.
  rewrite (size_t_small (i * cols B)), (size_t_small (j * cols B)) by nia.
  repeat case_decide; try done; nia.
Qed.

End RowsCommute.

Section AnyOrder.
Context {F : Type} `{Scalar F}.

Lemma mv_workers_any_order (e : Env) (A : Mat F) (x : Vec F) (n : Z)
    (ts : list Z) (ybuf : list F) :
  0 <= rows A <= SIZE_MAX -> 1 <= n <= INT_MAX ->
  ts ≡ₚ spawn (create_ok e) (seqZ 0 n) ->
  fold_left (fun y t => mv_worker (g_stop e) A x t n y) ts ybuf
  = run_workers e n (fun t => mv_worker (g_stop e) A x t n) ybuf.
Proof.
  intros HR Hn Hp. unfold mv_worker.
  apply (workers_any_order e (rows A) n
           (fun i y => <[Z.to_nat i := mv_row A x i]> y)); try done.
  intros i j y Hi Hj Hne. apply mv_rows_commute; lia.
Qed.

Lemma ax_workers_any_order (e : Env) (a : F) (x : Vec F) (n : Z)
    (ts : list Z) (ybuf : list F) :
  0 <= len x <= SIZE_MAX -> 1 <= n <= INT_MAX ->
  ts ≡ₚ spawn (create_ok e) (seqZ 0 n) ->
  fold_left (fun y t => ax_worker (g_stop e) a x t n y) ts ybuf
  = run_workers e n (fun t => ax_worker (g_stop e) a x t n) ybuf.
Proof.
  intros HR Hn Hp. unfold ax_worker.
  apply (workers_any_order e (len x) n
           (fun i y =>
              <[Z.to_nat i := add (mul a (rd (cells (v_data x)) i)) (rd y i)]> y));
    try done.
  intros i j y Hi Hj Hne.
  apply (ax_rows_commute
           (fun i yi => add (mul a (rd (cells (v_data x)) i)) yi)); lia.
Qed.

Lemma mm_workers_any_order (e : Env) (A B : Mat F) (n tl : Z)
    (ts : list Z) (C : list F) :
  0 <= rows A <= SIZE_MAX -> 0 <= cols A -> 0 <= cols B ->
  8 * (rows A * cols A) <= SIZE_MAX -> 8 * (rows A * cols B) <= SIZE_MAX ->
  1 <= n <= INT_MAX -> tl <= INT_MAX ->
  ts ≡ₚ spawn (create_ok e) (seqZ 0 n) ->
  fold_left (fun C t => mm_worker (g_stop e) A B t n tl C) ts C
  = run_workers e n (fun t => mm_worker (g_stop e) A B t n tl) C.
Proof.
  intros HR HK HN HA HB Hn Htl Hp.
  assert (Hun : forall t C',
            0 <= t < n ->
            mm_worker (g_stop e) A B t n tl C'
            = for_rows (g_stop e) (range_rows (rows A) t n) (mm_row A B) C').
  { intros t C' Ht. destruct (Z_le_dec tl 0) as [Hle|Hgt].
    - unfold mm_worker. by destruct (Z.leb_spec tl 0); [|lia].
    - rewrite (mm_worker_tiling _ A B t n tl 0) by (done || lia).
      reflexivity. }
  transitivity
    (fold_left
       (fun C t => for_rows (g_stop e) (range_rows (rows A) t n) (mm_row A B) C)
       ts C).
  { apply fold_left_ext_in. intros t C' Ht. apply Hun.
    rewrite Hp in Ht. apply spawn_elem, elem_of_seqZ in Ht. lia. }
  rewrite (workers_any_order e (rows A) n (mm_row A B)); try done.
  - apply run_workers_ext. intros t C' Ht. symmetry. by apply Hun.
  - intros i j C' Hi Hj Hne. apply mm_rows_commute; (done || nia).
Qed.

End AnyOrder.

(** * Further properties of the kernels *)

(** ** The thread count does not matter for the product and for AXPY *)

Section ThreadCount.
Context {F : Type} `{Scalar F}.

Lemma mm_workers_rows e (A B : Mat F) n tl (C : list F) :
  (forall t, create_ok e t = true) ->
  0 <= rows A <= SIZE_MAX -> 1 <= n <= INT_MAX ->
  run_workers e n (fun t => mm_worker (g_stop e) A B t n tl) C
  = for_rows (g_stop e) (seqZ 0 (rows A))
      (if tl <=? 0 then mm_row A B else mm_row_tiled A B (size_t tl)) C.
Proof.
  intros. unfold mm_worker. destruct (tl <=? 0); by apply run_workers_rows.
Qed.

Lemma ax_workers_rows e (a : F) (x : Vec F) n (ybuf : list F) :
  (forall t, create_ok e t = true) ->
  0 <= len x <= SIZE_MAX -> 1 <= n <= INT_MAX ->
  run_workers e n (fun t => ax_worker (g_stop e) a x t n) ybuf
  = for_rows (g_stop e) (seqZ 0 (len x))
      (fun i y =>
         <[Z.to_nat i := add (mul a (rd (cells (v_data x)) i)) (rd y i)]> y)
      ybuf.
Proof. intros. unfold ax_worker. by apply run_workers_rows. Qed.

End ThreadCount.

(** [X1] When every worker starts, [mm_mt] returns the same status and the
    same [C] for any two thread counts, with or without tiling and whether
    or not the run is cancelled: the comparison of the one-thread and the
    N-thread product made by the benchmark driver is between equal
    matrices. *)
Theorem mm_mt_thread_count {F : Type} `{Scalar F} (e : Env) (A B C : Mat F)
    (N1 N2 tl : Z) :
  (forall t, create_ok e t = true) ->
  0 <= rows A <= SIZE_MAX -> N1 <= INT_MAX -> N2 <= INT_MAX ->
  mm_mt e A B C (mkKCfg N1 tl) = mm_mt e A B C (mkKCfg N2 tl).
Proof.
  intros Hok HR H1 H2. unfold mm_mt. cbn [nt tile].
  destruct (m_data A), (m_data B), (m_data C) as [cbuf|]; try done.
  destruct (negb _); [done|]. destruct (_ || _); [done|].
  destruct (_ || _); [done|].
  fold (threads N1). fold (threads N2).
  rewrite !mm_workers_rows by (done || by apply threads_bounds).
  reflexivity.
Qed.

Lemma mm_mt_thread_count_witness :
  mm_mt calm (mkMat 3 2 (Some [1; 2; 3; 4; 5; 6]))
    (mkMat 2 2 (Some [1; 1; 0; 1])) (mkMat 3 2 (Some [7; 7; 7; 7; 7; 7]))
    (mkKCfg 5 1)
  = mm_mt calm (mkMat 3 2 (Some [1; 2; 3; 4; 5; 6]))
      (mkMat 2 2 (Some [1; 1; 0; 1])) (mkMat 3 2 (Some [7; 7; 7; 7; 7; 7]))
      (mkKCfg 1 1).
Proof.
  apply (mm_mt_thread_count calm (mkMat 3 2 (Some [1; 2; 3; 4; 5; 6]))
           (mkMat 2 2 (Some [1; 1; 0; 1]))
           (mkMat 3 2 (Some [7; 7; 7; 7; 7; 7])) 5 1 1);
    [done | cbn; unfold SIZE_MAX; lia | unfold INT_MAX; lia
    | unfold INT_MAX; lia].
Defined.

(** [X2] When every worker starts, [ax_mt] returns the same status and the
    same [y] for any two thread counts. *)
Theorem ax_mt_thread_count {F : Type} `{Scalar F} (e : Env) (a : F)
    (x y : Vec F) (N1 N2 : Z) :
  (forall t, create_ok e t = true) ->
  0 <= len x <= SIZE_MAX -> N1 <= INT_MAX -> N2 <= INT_MAX ->
  ax_mt e a x y N1 = ax_mt e a x y N2.
Proof.
  intros Hok HR H1 H2. unfold ax_mt.
  destruct (v_data x), (v_data y) as [ybuf|]; try done.
  destruct (negb _); [done|]. destruct (_ || _); [done|].
  fold (threads N1). fold (threads N2).
  rewrite !ax_workers_rows by (done || by apply threads_bounds).
  reflexivity.
Qed.

Lemma ax_mt_thread_count_witness :
  ax_mt calm 3 (vecZ [1; 2; 3; 4; 5]) (vecZ [1; 1; 1; 1; 1]) 4
  = ax_mt calm 3 (vecZ [1; 2; 3; 4; 5]) (vecZ [1; 1; 1; 1; 1]) 1.
Proof.
  apply (ax_mt_thread_count calm 3 (vecZ [1; 2; 3; 4; 5])
           (vecZ [1; 1; 1; 1; 1]) 4 1);
    [done | cbn; unfold SIZE_MAX; lia | unfold INT_MAX; lia
    | unfold INT_MAX; lia].
Defined.

(** ** What the status reports, and what a call never changes *)

Section Shapes2.
Context {F : Type} `{Scalar F}.

Lemma mv_worker_length stop (A : Mat F) (x : Vec F) t n (y : list F) :
  length (mv_worker stop A x t n y) = length y.
Proof.
  unfold mv_worker. apply (for_rows_inv (fun y' => length y' = length y));
    [done|]. intros i y' Hy'. by rewrite length_insert.
Qed.

Lemma ax_worker_length stop (a : F) (x : Vec F) t n (y : list F) :
  length (ax_worker stop a x t n y) = length y.
Proof.
  unfold ax_worker. apply (for_rows_inv (fun y' => length y' = length y));
    [done|]. intros i y' Hy'. by rewrite length_insert.
Qed.

Lemma memset0_length (buf : list F) bytes :
  length (memset0 buf bytes) = length buf.
Proof.
  unfold memset0. rewrite length_app, length_replicate, length_drop. lia.
Qed.

Lemma vec_eta (y : Vec F) (ybuf : list F) :
  v_data y = Some ybuf -> mkVec (len y) (Some ybuf) = y.
Proof. destruct y as [l d]. cbn. by intros ->. Qed.

End Shapes2.

(** [X3] The status of a kernel is 0 or -1, and it is 0 exactly when every
    buffer is present, the dimensions match and both blocks of scratch
    storage were obtained.  Neither a set cancellation flag nor a worker
    that failed to start shows in the status. *)
Theorem kernel_status {F : Type} `{Scalar F} (e : Env) (A B C : Mat F)
    (x y : Vec F) (a out : F) (cfg : KCfg) (n : Z) :
  ((fst (mv_mt e A x y cfg) = 0 \/ fst (mv_mt e A x y cfg) = -1) /\
   (fst (mv_mt e A x y cfg) = 0 <->
    is_Some (m_data A) /\ is_Some (v_data x) /\ is_Some (v_data y) /\
    cols A = len x /\ rows A = len y /\
    ths_ok e = true /\ jobs_ok e = true)) /\
  ((fst (mm_mt e A B C cfg) = 0 \/ fst (mm_mt e A B C cfg) = -1) /\
   (fst (mm_mt e A B C cfg) = 0 <->
    is_Some (m_data A) /\ is_Some (m_data B) /\ is_Some (m_data C) /\
    cols A = rows B /\ rows C = rows A /\ cols C = cols B /\
    ths_ok e = true /\ jobs_ok e = true)) /\
  ((fst (dt_mt e x y out n) = 0 \/ fst (dt_mt e x y out n) = -1) /\
   (fst (dt_mt e x y out n) = 0 <->
    is_Some (v_data x) /\ is_Some (v_data y) /\ len x = len y /\
    ths_ok e = true /\ jobs_ok e = true)) /\
  ((fst (ax_mt e a x y n) = 0 \/ fst (ax_mt e a x y n) = -1) /\
   (fst (ax_mt e a x y n) = 0 <->
    is_Some (v_data x) /\ is_Some (v_data y) /\ len x = len y /\
    ths_ok e = true /\ jobs_ok e = true)).
Proof.
  assert (Hno : forall T : Type, ~ is_Some (@None T))
    by (intros T [? [=]]).
  split_and!.
  - unfold mv_mt. destruct (m_data A), (v_data x), (v_data y); auto.
    destruct (_ || _); auto. destruct (_ || _); auto.
  - unfold mv_mt.
    destruct (m_data A), (v_data x), (v_data y);
      try (cbn; split; [done|]; intros (?&?&?&_); by edestruct Hno).
    destruct (Z.eqb_spec (cols A) (len x)), (Z.eqb_spec (rows A) (len y));
      cbn [negb orb fst];
      try (split; [done|]; intros (_&_&_&?&?&_); done).
    destruct (ths_ok e), (jobs_ok e); cbn [negb orb fst];
      try (split; [done|]; intros (_&_&_&_&_&?&?); done).
  - unfold mm_mt. destruct (m_data A), (m_data B), (m_data C); auto.
    destruct (negb _); auto. destruct (_ || _); auto. destruct (_ || _); auto.
  - unfold mm_mt.
    destruct (m_data A), (m_data B), (m_data C);
      try (cbn; split; [done|]; intros (?&?&?&_); by edestruct Hno).
    destruct (Z.eqb_spec (cols A) (rows B)), (Z.eqb_spec (rows C) (rows A)),
             (Z.eqb_spec (cols C) (cols B));
      cbn [negb orb fst];
      try (split; [done|]; intros (_&_&_&?&?&?&_); done).
    destruct (ths_ok e), (jobs_ok e); cbn [negb orb fst];
      try (split; [done|]; intros (_&_&_&_&_&_&?&?); done).
  - unfold dt_mt. destruct (v_data x), (v_data y); auto.
    destruct (negb _); auto. destruct (_ || _); auto.
  - unfold dt_mt.
    destruct (v_data x), (v_data y);
      try (cbn; split; [done|]; intros (?&?&_); by edestruct Hno).
    destruct (Z.eqb_spec (len x) (len y)); cbn [negb orb fst];
      try (split; [done|]; intros (_&_&?&_); done).
    destruct (ths_ok e), (jobs_ok e); cbn [negb orb fst];
      try (split; [done|]; intros (_&_&_&?&?); done).
  - unfold ax_mt. destruct (v_data x), (v_data y); auto.
    destruct (negb _); auto. destruct (_ || _); auto.
  - unfold ax_mt.
    destruct (v_data x), (v_data y);
      try (cbn; split; [done|]; intros (?&?&_); by edestruct Hno).
    destruct (Z.eqb_spec (len x) (len y)); cbn [negb orb fst];
      try (split; [done|]; intros (_&_&?&_); done).
    destruct (ths_ok e), (jobs_ok e); cbn [negb orb fst];
      try (split; [done|]; intros (_&_&_&?&?); done).
Qed.

Lemma kernel_status_witness :
  fst (ax_mt (mkEnv true true true (fun _ => false)) 2 (vecZ [1; 2])
         (vecZ [5; 6]) 3) = 0 /\
  fst (ax_mt calm 2 (vecZ [1; 2]) (vecZ [5; 6; 7]) 3) <> 0.
Proof.
  destruct (kernel_status (mkEnv true true true (fun _ => false))
              (mkMat 0 0 None) (mkMat 0 0 None) (mkMat 0 0 None)
              (vecZ [1; 2]) (vecZ [5; 6]) 2 0 (mkKCfg 1 0) 3)
    as (_ & _ & _ & _ & Hax).
  destruct (kernel_status calm
              (mkMat 0 0 None) (mkMat 0 0 None) (mkMat 0 0 None)
              (vecZ [1; 2]) (vecZ [5; 6; 7]) 2 0 (mkKCfg 1 0) 3)
    as (_ & _ & _ & _ & Hax').
  split.
  - apply Hax. split_and!; try reflexivity; by eexists.
  - intros Hz. apply Hax' in Hz as (_ & _ & Hlen & _). discriminate Hlen.
Defined.

(** [X4] No kernel ever resizes its output: in every environment and on
    every argument, [mv_mt] and [ax_mt] return [y] with its [len] and with
    a buffer of the same length (absent if it was absent), and [mm_mt]
    returns [C] with its [rows], its [cols] and a buffer of the same
    length. *)
Theorem kernel_keeps_shape {F : Type} `{Scalar F} (e : Env) (A B C : Mat F)
    (x y : Vec F) (a : F) (cfg : KCfg) (n : Z) :
  (len (snd (mv_mt e A x y cfg)) = len y /\
   length <$> v_data (snd (mv_mt e A x y cfg)) = length <$> v_data y) /\
  (rows (snd (mm_mt e A B C cfg)) = rows C /\
   cols (snd (mm_mt e A B C cfg)) = cols C /\
   length <$> m_data (snd (mm_mt e A B C cfg)) = length <$> m_data C) /\
  (len (snd (ax_mt e a x y n)) = len y /\
   length <$> v_data (snd (ax_mt e a x y n)) = length <$> v_data y).
Proof.
  split_and!.
  - unfold mv_mt. destruct (m_data A), (v_data x), (v_data y); try done.
    destruct (_ || _); [done|]. by destruct (_ || _).
  - unfold mv_mt.
    destruct (m_data A), (v_data x), (v_data y) as [ybuf|] eqn:Hy;
      cbn [snd]; rewrite ?Hy; try done.
    destruct (_ || _); cbn [snd]; [by rewrite Hy|].
    destruct (_ || _); cbn [snd v_data]; [by rewrite Hy|].
    cbn. f_equal.
    apply (run_workers_inv (fun l => length l = length ybuf)); [done|].
    intros t w Hw. by rewrite mv_worker_length.
  - unfold mm_mt. destruct (m_data A), (m_data B), (m_data C); try done.
    destruct (negb _); [done|]. destruct (_ || _); [done|].
    by destruct (_ || _).
  - unfold mm_mt. destruct (m_data A), (m_data B), (m_data C); try done.
    destruct (negb _); [done|]. destruct (_ || _); [done|].
    by destruct (_ || _).
  - unfold mm_mt.
    destruct (m_data A), (m_data B), (m_data C) as [cbuf|] eqn:HC;
      cbn [snd]; rewrite ?HC; try done.
    destruct (negb _); cbn [snd]; [by rewrite HC|].
    destruct (_ || _); cbn [snd]; [by rewrite HC|].
    destruct (_ || _); cbn [snd m_data]; cbn; f_equal.
    + apply memset0_length.
    + apply (run_workers_inv (fun l => length l = length cbuf)).
      * apply memset0_length.
      * intros t w Hw. by rewrite mm_worker_length.
  - unfold ax_mt. destruct (v_data x), (v_data y); try done.
    destruct (negb _); [done|]. by destruct (_ || _).
  - unfold ax_mt.
    destruct (v_data x), (v_data y) as [ybuf|] eqn:Hy;
      cbn [snd]; rewrite ?Hy; try done.
    destruct (negb _); cbn [snd]; [by rewrite Hy|].
    destruct (_ || _); cbn [snd v_data]; [by rewrite Hy|].
    cbn. f_equal.
    apply (run_workers_inv (fun l => length l = length ybuf)); [done|].
    intros t w Hw. by rewrite ax_worker_length.
Qed.

(** [X5] With the cancellation flag set, a call on valid arguments still
    returns 0 and no worker advances: [mv_mt] and [ax_mt] return [y]
    exactly as it was, [mm_mt] returns [C] cleared to [0.0] and no product
    term added, and [dt_mt] stores the sum of the untouched partial sums,
    which is [0.0] as soon as [0.0 + 0.0 = 0.0]. *)
Theorem cancelled_calls {F : Type} `{Scalar F} (e : Env) (A B C : Mat F)
    (x y : Vec F) (a out : F) (cfg : KCfg) (n : Z) :
  g_stop e = true -> ths_ok e = true -> jobs_ok e = true ->
  (is_Some (m_data A) -> is_Some (v_data x) -> is_Some (v_data y) ->
   cols A = len x -> rows A = len y -> mv_mt e A x y cfg = (0, y)) /\
  (is_Some (m_data A) -> is_Some (m_data B) -> mat_wf C ->
   cols A = rows B -> rows C = rows A -> cols C = cols B ->
   mm_mt e A B C cfg
   = (0, mkMat (rows C) (cols C)
           (Some (replicate (Z.to_nat (rows C * cols C)) zero)))) /\
  (is_Some (v_data x) -> is_Some (v_data y) -> len x = len y ->
   add zero zero = zero -> dt_mt e x y out n = (0, zero)) /\
  (is_Some (v_data x) -> is_Some (v_data y) -> len x = len y ->
   ax_mt e a x y n = (0, y)).
Proof.
  intros Hstop Hths Hjobs. split_and!.
  - intros [ad Ha] [xd Hx] [ybuf Hy] Hcx Hry. unfold mv_mt.
    rewrite Ha, Hx, Hy, !neqb_false, scratch_granted_test by done.
    cbn [orb]. rewrite Hstop. f_equal. rewrite <- (vec_eta y ybuf Hy) at 2.
    do 2 f_equal.
    apply (run_workers_inv (fun l => l = ybuf)); [done|].
    intros t w ->. unfold mv_worker. apply for_rows_true.
  - intros HA HB HC HAB HCA HCB. rewrite mm_mt_valid by done. cbn zeta.
    rewrite scratch_granted_test, Hstop by done. do 3 f_equal.
    apply (run_workers_inv
             (fun l => l = replicate (Z.to_nat (rows C * cols C)) zero));
      [done|].
    intros t w ->. unfold mm_worker.
    destruct (tile cfg <=? 0); apply for_rows_true.
  - intros [xd Hx] [yd Hy] Hxy Hz. unfold dt_mt.
    rewrite Hx, Hy, neqb_false, scratch_granted_test, Hstop by done.
    f_equal.
    apply (run_workers_inv (fun s => s = zero)); [done|].
    intros t s ->. unfold dt_worker. by rewrite for_rows_true.
  - intros [xd Hx] [ybuf Hy] Hxy. unfold ax_mt.
    rewrite Hx, Hy, neqb_false, scratch_granted_test, Hstop by done.
    f_equal. rewrite <- (vec_eta y ybuf Hy) at 2. do 2 f_equal.
    apply (run_workers_inv (fun l => l = ybuf)); [done|].
    intros t w ->. unfold ax_worker. apply for_rows_true.
Qed.

Lemma cancelled_calls_witness :
  ax_mt (mkEnv true true true (fun _ => true)) 2 (vecZ [1; 2; 3])
    (vecZ [10; 20; 30]) 2 = (0, vecZ [10; 20; 30]).
Proof.
  destruct (cancelled_calls (mkEnv true true true (fun _ => true))
              (mkMat 0 0 None) (mkMat 0 0 None) (mkMat 0 0 None)
              (vecZ [1; 2; 3]) (vecZ [10; 20; 30]) 2 0 (mkKCfg 1 0) 2)
    as (_ & _ & _ & Hax); [reflexivity..|].
  apply Hax; [by eexists | by eexists | reflexivity].
Defined.

(** ** A worker that fails to start *)

Lemma spawn_app_all ok (l1 l2 : list Z) :
  (forall t, t ∈ l1 -> ok t = true) -> spawn ok (l1 ++ l2) = l1 ++ spawn ok l2.
Proof.
  induction l1 as [|t l1 IH]; intros Hok; cbn; [done|].
  rewrite Hok by apply list_elem_of_here.
  rewrite IH; [done|]. intros u Hu. apply Hok. by apply list_elem_of_further.
Qed.

Lemma spawn_first_failure (e : Env) (f N : Z) :
  first_failure e f -> 0 <= f < N ->
  spawn (create_ok e) (seqZ 0 N) = seqZ 0 f.
Proof.
  intros [Hok Hf] HfN.
  replace N with (f + (N - f)) by lia.
  rewrite seqZ_app by lia. rewrite spawn_app_all.
  - rewrite Z.add_0_l, (seqZ_cons f) by lia. cbn. rewrite Hf.
    apply app_nil_r.
  - intros t Ht%elem_of_seqZ. apply Hok. lia.
Qed.

(** The started workers together run the rows below the first row of the
    first worker that failed. *)
Lemma run_workers_partial {S : Type} (e : Env) (R N f : Z)
    (body : Z -> S -> S) (s : S) :
  first_failure e f -> 0 <= f < N ->
  0 <= R <= SIZE_MAX -> 1 <= N <= INT_MAX ->
  run_workers e N (fun t => for_rows (g_stop e) (range_rows R t N) body) s
  = for_rows (g_stop e) (seqZ 0 (fst (row_range R f N))) body s.
Proof.
  intros Hff Hf HR HN. unfold run_workers.
  rewrite (spawn_first_failure e f N) by done.
  rewrite row_range_closed by lia. cbn [fst].
  pose proof (ranges_concat R N (Z.to_nat f) HR HN ltac:(lia)) as Hc.
  rewrite Z2Nat.id in Hc by lia.
  rewrite <- Hc, for_rows_concat.
  generalize (seqZ 0 f). intros ts. revert s.
  induction ts as [|t ts IH]; intros s; cbn; [done|apply IH].
Qed.

Lemma first_row_bounds (R N f : Z) :
  0 <= R <= SIZE_MAX -> 1 <= N <= INT_MAX -> 0 <= f < N ->
  0 <= fst (row_range R f N) <= R.
Proof.
  intros HR HN Hf. rewrite row_range_closed by lia. cbn [fst].
  pose proof (part_start_mono R N 0 f ltac:(lia) ltac:(lia) ltac:(lia)).
  pose proof (part_start_mono R N f N ltac:(lia) ltac:(lia) ltac:(lia)).
  rewrite part_start_0, part_start_N in * by lia. lia.
Qed.

Lemma first_failure_fails_at f : 0 <= f -> first_failure (fails_at f) f.
Proof.
  intros Hf. split; cbn.
  - intros t Ht. apply Z.ltb_lt. lia.
  - apply Z.ltb_irrefl.
Qed.

(** [X6] When worker [f] is the first whose [pthread_create] fails (and
    the run is otherwise undisturbed), [mv_mt] still returns 0: the rows of
    the workers before [f], that is the rows below the first row of worker
    [f], hold their inner sums, and every later [y[i]] holds what it held
    before the call. *)
Theorem mv_mt_partial_start {F : Type} `{Scalar F} (e : Env) (A : Mat F)
    (x y : Vec F) (ybuf : list F) (cfg : KCfg) (f : Z) :
  g_stop e = false -> ths_ok e = true -> jobs_ok e = true ->
  first_failure e f -> 0 <= f < nt cfg -> nt cfg <= INT_MAX ->
  is_Some (m_data A) -> is_Some (v_data x) ->
  v_data y = Some ybuf -> Z.of_nat (length ybuf) = len y ->
  cols A = len x -> rows A = len y -> len y <= SIZE_MAX ->
  mv_mt e A x y cfg
  = (0, mkVec (len y)
          (Some ((mv_row A x <$> seqZ 0 (fst (row_range (rows A) f (nt cfg))))
                 ++ drop (Z.to_nat (fst (row_range (rows A) f (nt cfg))))
                      ybuf))).
Proof.
  intros Hstop Hths Hjobs Hff Hf Hn [ad Ha] [xd Hx] Hy Hlen Hcx Hry Hmax.
  unfold mv_mt. rewrite Ha, Hx, Hy.
  rewrite !neqb_false, scratch_granted_test by done. cbn [orb].
  replace (if nt cfg <=? 0 then 1 else nt cfg) with (nt cfg)
    by (destruct (Z.leb_spec (nt cfg) 0); lia).
  unfold mv_worker.
  rewrite (run_workers_partial e (rows A) (nt cfg) f
             (fun i y0 => <[Z.to_nat i := mv_row A x i]> y0)) by (done || lia).
  pose proof (first_row_bounds (rows A) (nt cfg) f ltac:(lia) ltac:(lia) Hf)
    as Hs.
  set (s := fst (row_range (rows A) f (nt cfg))) in *.
  rewrite Hstop, for_rows_false.
  rewrite <- (Z2Nat.id s) at 1 by lia.
  rewrite (fold_update_seq (fun i _ => mv_row A x i)) by lia.
  rewrite Z2Nat.id by lia. reflexivity.
Qed.

Lemma mv_mt_partial_start_witness :
  mv_mt (fails_at 1) (mkMat 4 1 (Some [1; 2; 3; 4])) (vecZ [10])
    (vecZ [7; 7; 7; 7]) (mkKCfg 2 0)
  = (0, vecZ [10; 20; 7; 7]).
Proof.
  rewrite (mv_mt_partial_start (fails_at 1) (mkMat 4 1 (Some [1; 2; 3; 4]))
             (vecZ [10]) (vecZ [7; 7; 7; 7]) [7; 7; 7; 7] (mkKCfg 2 0) 1);
    [reflexivity | reflexivity | reflexivity | reflexivity
    | apply first_failure_fails_at; lia | cbn; lia
    | cbn; unfold INT_MAX; lia | by eexists | by eexists | reflexivity
    | reflexivity | reflexivity | reflexivity | cbn; unfold SIZE_MAX; lia].
Defined.

(** [X7] When worker [f] is the first whose [pthread_create] fails, [ax_mt]
    still returns 0: the indices below the first index of worker [f] hold
    [a * x[i] + y[i]], every later [y[i]] is as it was. *)
Theorem ax_mt_partial_start {F : Type} `{Scalar F} (e : Env) (a : F)
    (x y : Vec F) (xs ys : list F) (n f : Z) :
  g_stop e = false -> ths_ok e = true -> jobs_ok e = true ->
  first_failure e f -> 0 <= f < n -> n <= INT_MAX ->
  v_data x = Some xs -> v_data y = Some ys ->
  Z.of_nat (length ys) = len y -> len x = len y -> len x <= SIZE_MAX ->
  ax_mt e a x y n
  = (0, mkVec (len y)
          (Some (((fun i => add (mul a (rd xs i)) (rd ys i))
                    <$> seqZ 0 (fst (row_range (len x) f n)))
                 ++ drop (Z.to_nat (fst (row_range (len x) f n))) ys))).
Proof.
  intros Hstop Hths Hjobs Hff Hf Hn Hx Hy Hlen Hxy Hmax.
  unfold ax_mt. rewrite Hx, Hy.
  rewrite neqb_false, scratch_granted_test by done.
  replace (if n <=? 0 then 1 else n) with n
    by (destruct (Z.leb_spec n 0); lia).
  unfold ax_worker.
  rewrite (run_workers_partial e (len x) n f
             (fun i y0 =>
                <[Z.to_nat i := add (mul a (rd (cells (v_data x)) i)) (rd y0 i)]> y0))
    by (done || lia).
  pose proof (first_row_bounds (len x) n f ltac:(lia) ltac:(lia) Hf) as Hs.
  set (s := fst (row_range (len x) f n)) in *.
  rewrite Hstop, Hx, for_rows_false. cbn [cells default].
  rewrite <- (Z2Nat.id s) at 1 by lia.
  rewrite (fold_update_seq (fun i yi => add (mul a (rd xs i)) yi)) by lia.
  rewrite Z2Nat.id by lia. reflexivity.
Qed.

Lemma ax_mt_partial_start_witness :
  ax_mt (fails_at 2) 2 (vecZ [1; 2; 3]) (vecZ [10; 20; 30]) 3
  = (0, vecZ [12; 24; 30]).
Proof.
  rewrite (ax_mt_partial_start (fails_at 2) 2 (vecZ [1; 2; 3])
             (vecZ [10; 20; 30]) [1; 2; 3] [10; 20; 30] 3 2);
    [reflexivity | reflexivity | reflexivity | reflexivity
    | apply first_failure_fails_at; lia | lia | unfold INT_MAX; lia
    | reflexivity | reflexivity | reflexivity | reflexivity
    | cbn; unfold SIZE_MAX; lia].
Defined.

Section ProductPrefix.
Context {F : Type} `{Scalar F}.

(** The row updates for the rows below [s], run on an all-zero block. *)
Lemma mm_rows_prefix (A B : Mat F) (s : Z) :
  0 <= s <= rows A -> 0 <= cols A -> 0 <= cols B ->
  rows A * cols A <= SIZE_MAX -> cols A * cols B <= SIZE_MAX ->
  rows A * cols B <= SIZE_MAX ->
  fold_left (fun C i => mm_row A B i C) (seqZ 0 s)
    (replicate (Z.to_nat (rows A * cols B)) zero)
  = mm_ref_upto A B s.
Proof.
  intros Hs HK HN HMK HKN HMN.
  rewrite (pointwise_fold_left (mm_row A B) _ _ (mm_row_pointwise A B)).
  apply list_eq. intros p. unfold mm_ref_upto.
  rewrite list_lookup_imap, list_lookup_fmap.
  destruct (decide (Z.of_nat p < rows A * cols B)) as [Hp|Hp].
  2:{ rewrite lookup_seqZ_ge by lia.
      by rewrite (proj1 (lookup_replicate_None _ _ _)) by lia. }
  rewrite lookup_seqZ_lt, lookup_replicate_2, Z.add_0_l by lia.
  cbn [fmap option_fmap option_map]. f_equal.
  assert (HNpos : 0 < cols B) by nia.
  pose proof (Z.div_mod (Z.of_nat p) (cols B) ltac:(lia)) as Hdm.
  pose proof (Z.mod_pos_bound (Z.of_nat p) (cols B) HNpos) as Hmod.
  assert (Hdiv : 0 <= Z.of_nat p / cols B < rows A).
  { split; [apply Z.div_pos; lia|]. apply Z.div_lt_upper_bound; lia. }
  set (i0 := Z.of_nat p / cols B) in *.
  set (j0 := Z.of_nat p mod cols B) in *.
  transitivity
    (fold_left
       (fun v i => if decide (i = i0)
                   then fold_left
                          (fun v k =>
                             add v (mul (rd (cells (m_data A)) (i0 * cols A + k))
                                        (rd (cells (m_data B)) (k * cols B + j0))))
                          (seqZ 0 (cols A)) v
                   else v)
       (seqZ 0 s) zero).
  - apply fold_left_ext_elem. intros v i Hi%elem_of_seqZ. unfold cell_row.
    rewrite (size_t_small (i * cols B)) by nia.
    destruct (decide (i = i0)) as [->|Hne].
    + rewrite decide_True by lia. rewrite Z.sub_0_r.
      apply fold_left_ext_elem. intros v' k Hk%elem_of_seqZ.
      rewrite (size_t_small (i0 * cols A)) by nia.
      rewrite (size_t_small (i0 * cols A + k)) by nia.
      rewrite (size_t_small (k * cols B)) by nia.
      do 3 f_equal. lia.
    + rewrite decide_False; [done|].
      intros Hin. apply Hne. unfold i0.
      apply (Z.div_unique _ _ _ (Z.of_nat p - i * cols B)); lia.
  - rewrite single_hit. destruct (Z.ltb_spec i0 s).
    + by rewrite decide_True by lia.
    + by rewrite decide_False by lia.
Qed.

Lemma mm_ref_upto_all (A B : Mat F) :
  0 <= rows A -> 0 <= cols B -> mm_ref_upto A B (rows A) = mm_ref A B.
Proof.
  intros HM HN. unfold mm_ref_upto, mm_ref.
  apply list_fmap_ext. intros k p Hp%lookup_seqZ.
  destruct (Z.ltb_spec (p / cols B) (rows A)) as [|Hge]; [done|].
  exfalso. assert (0 < cols B) by nia.
  pose proof (Z.div_lt_upper_bound p (cols B) (rows A)). lia.
Qed.

(** With or without tiling, the workers are the row loop of the untiled
    product over their own ranges. *)
Lemma mm_workers_untiled e (A B : Mat F) n tl (C : list F) :
  0 <= rows A <= SIZE_MAX -> 0 <= cols A -> 0 <= cols B ->
  8 * (rows A * cols A) <= SIZE_MAX -> 8 * (rows A * cols B) <= SIZE_MAX ->
  1 <= n <= INT_MAX -> tl <= INT_MAX ->
  run_workers e n (fun t => mm_worker (g_stop e) A B t n tl) C
  = run_workers e n
      (fun t => for_rows (g_stop e) (range_rows (rows A) t n) (mm_row A B)) C.
Proof.
  intros HR HK HN HA HB Hn Htl. apply run_workers_ext. intros t C' Ht.
  destruct (Z_le_dec tl 0) as [Hle|Hgt].
  - unfold mm_worker. by destruct (Z.leb_spec tl 0); [|lia].
  - rewrite (mm_worker_tiling _ A B t n tl 0) by (done || lia). reflexivity.
Qed.

(** What an undisturbed [mm_mt] returns on well-formed arguments. *)
Lemma mm_mt_value e (A B C : Mat F) cfg :
  undisturbed e -> mat_wf A -> mat_wf B -> mat_wf C ->
  cols A = rows B -> rows C = rows A -> cols C = cols B ->
  nt cfg <= INT_MAX -> tile cfg <= INT_MAX ->
  mm_mt e A B C cfg = (0, mkMat (rows C) (cols C) (Some (mm_ref A B))).
Proof.
  intros (Hstop & Hths & Hjobs & Hok)
    (HAr & HAc & HAsz & abuf & Ha & Hal) (HBr & HBc & HBsz & bbuf & Hb & Hbl)
    HC HAB HCA HCB Hn Htl.
  pose proof HC as (HCr & HCc & HCsz & _).
  rewrite mm_mt_valid by (done || by eexists). cbn zeta.
  rewrite scratch_granted_test by done. do 3 f_equal.
  rewrite mm_workers_untiled by (try apply threads_bounds; lia).
  rewrite run_workers_rows by (try apply threads_bounds; done || lia).
  rewrite Hstop, for_rows_false, HCA, HCB.
  apply mm_rows_all; lia.
Qed.

End ProductPrefix.

(** [X8] When worker [f] is the first whose [pthread_create] fails, [mm_mt]
    still returns 0: the rows of [C] below the first row of worker [f] hold
    the product, and every later row holds [0.0], the value the clearing
    left, not what [C] held before the call. *)
Theorem mm_mt_partial_start {F : Type} `{Scalar F} (e : Env) (A B C : Mat F)
    (cfg : KCfg) (f : Z) :
  g_stop e = false -> ths_ok e = true -> jobs_ok e = true ->
  first_failure e f -> 0 <= f < nt cfg -> nt cfg <= INT_MAX ->
  tile cfg <= INT_MAX ->
  mat_wf A -> mat_wf B -> mat_wf C ->
  cols A = rows B -> rows C = rows A -> cols C = cols B ->
  mm_mt e A B C cfg
  = (0, mkMat (rows C) (cols C)
          (Some (mm_ref_upto A B (fst (row_range (rows A) f (nt cfg)))))).
Proof.
  intros Hstop Hths Hjobs Hff Hf Hn Htl
    (HAr & HAc & HAsz & abuf & Ha & Hal) (HBr & HBc & HBsz & bbuf & Hb & Hbl)
    HC HAB HCA HCB.
  pose proof HC as (HCr & HCc & HCsz & _).
  rewrite mm_mt_valid by (done || by eexists). cbn zeta.
  rewrite scratch_granted_test by done. do 3 f_equal.
  replace (threads (nt cfg)) with (nt cfg)
    by (unfold threads; destruct (Z.leb_spec (nt cfg) 0); lia).
  rewrite mm_workers_untiled by lia.
  rewrite (run_workers_partial e (rows A) (nt cfg) f) by (done || lia).
  pose proof (first_row_bounds (rows A) (nt cfg) f ltac:(lia) ltac:(lia) Hf).
  rewrite Hstop, for_rows_false, HCA, HCB.
  apply mm_rows_prefix; lia.
Qed.

Lemma mm_mt_partial_start_witness :
  mm_mt (fails_at 1) (mkMat 2 2 (Some [1; 2; 3; 4]))
    (mkMat 2 2 (Some [5; 6; 7; 8])) (mkMat 2 2 (Some [9; 9; 9; 9]))
    (mkKCfg 2 0)
  = (0, mkMat 2 2 (Some [19; 22; 0; 0])).
Proof.
  assert (Hwf : forall l : list Z,
            Z.of_nat (length l) = 4 -> mat_wf (mkMat 2 2 (Some l))).
  { intros l Hl. unfold mat_wf, SIZE_MAX. cbn.
    split_and!; try lia. by eexists. }
  rewrite (mm_mt_partial_start (fails_at 1) (mkMat 2 2 (Some [1; 2; 3; 4]))
             (mkMat 2 2 (Some [5; 6; 7; 8])) (mkMat 2 2 (Some [9; 9; 9; 9]))
             (mkKCfg 2 0) 1);
    [reflexivity | reflexivity | reflexivity | reflexivity
    | apply first_failure_fails_at; lia | cbn; lia
    | cbn; unfold INT_MAX; lia | cbn; unfold INT_MAX; lia
    | by apply Hwf | by apply Hwf | by apply Hwf
    | reflexivity | reflexivity | reflexivity].
Defined.

(** ** Repeated calls *)

(** [X9] A successful [mv_mt] and a successful [dt_mt] overwrite their
    output.  In an undisturbed run on valid arguments [mv_mt] returns the
    same [y] whatever [y] held before, so that a second call into the
    vector the first one left returns what the first returned; and in
    every environment a [dt_mt] that returns 0 returns the same scalar
    whatever the output cell held. *)
Theorem mv_dt_overwrite {F : Type} `{Scalar F} (e : Env) (A : Mat F)
    (x y y' : Vec F) (out out' : F) (cfg : KCfg) (n : Z) :
  (undisturbed e -> is_Some (m_data A) -> is_Some (v_data x) ->
   vec_wf y -> vec_wf y' -> len y' = len y ->
   cols A = len x -> rows A = len y -> nt cfg <= INT_MAX ->
   mv_mt e A x y' cfg = mv_mt e A x y cfg /\
   mv_mt e A x (snd (mv_mt e A x y cfg)) cfg = mv_mt e A x y cfg) /\
  (fst (dt_mt e x y out n) = 0 ->
   dt_mt e x y out' n = dt_mt e x y out n).
Proof.
  split.
  - intros He HA Hx Hy Hy' Hlen Hcx Hry Hn.
    rewrite (mv_mt_value e A x y), (mv_mt_value e A x y') by (done || lia).
    split; [by rewrite Hlen|]. cbn [snd].
    rewrite mv_mt_value; try done.
    destruct Hy as (Hy0 & Hysz & _). unfold vec_wf. cbn [len v_data].
    split_and!; try done. eexists. split; [reflexivity|].
    rewrite length_fmap, length_seqZ. lia.
  - unfold dt_mt. destruct (v_data x), (v_data y); try done.
    destruct (negb _); [done|]. by destruct (_ || _).
Qed.

Lemma mv_dt_overwrite_witness :
  mv_mt calm (mkMat 2 2 (Some [1; 2; 3; 4])) (vecZ [1; 1]) (vecZ [8; 9])
    (mkKCfg 2 0)
  = mv_mt calm (mkMat 2 2 (Some [1; 2; 3; 4])) (vecZ [1; 1]) (vecZ [0; 0])
      (mkKCfg 2 0).
Proof.
  assert (Hwf : forall l : list Z, (length l <= 8)%nat -> vec_wf (vecZ l)).
  { intros l Hl. unfold vec_wf, vecZ, SIZE_MAX. cbn.
    split_and!; try lia. by eexists. }
  destruct (mv_dt_overwrite calm (mkMat 2 2 (Some [1; 2; 3; 4])) (vecZ [1; 1])
              (vecZ [0; 0]) (vecZ [8; 9]) 0 0 (mkKCfg 2 0) 1) as [Hmv _].
  apply Hmv; [apply undisturbed_calm | by eexists | by eexists
             | apply Hwf; cbn; lia | apply Hwf; cbn; lia
             | reflexivity | reflexivity | reflexivity
             | cbn; unfold INT_MAX; lia].
Defined.

(** [X10] [ax_mt] accumulates: in an undisturbed run, a second call into
    the vector the first one left adds [a * x[i]] once more, so cell [i]
    ends as [a * x[i] + (a * x[i] + y[i])].  The benchmark driver restores
    [y] before each repetition for this reason. *)
Theorem ax_mt_accumulates {F : Type} `{Scalar F} (e : Env) (a : F)
    (x y : Vec F) (xs ys : list F) (n : Z) :
  undisturbed e ->
  v_data x = Some xs -> v_data y = Some ys ->
  Z.of_nat (length xs) = len x -> Z.of_nat (length ys) = len y ->
  len x = len y -> len x <= SIZE_MAX -> n <= INT_MAX ->
  ax_mt e a x (snd (ax_mt e a x y n)) n
  = (0, mkVec (len y) (Some (axpy_seq a xs (axpy_seq a xs ys)))) /\
  (forall i xi yi, xs !! i = Some xi -> ys !! i = Some yi ->
     axpy_seq a xs (axpy_seq a xs ys) !! i
     = Some (add (mul a xi) (add (mul a xi) yi))).
Proof.
  intros He Hx Hy Hlx Hly Hxy Hmax Hn. split.
  - rewrite (ax_mt_value e a x y xs ys) by done. cbn [snd].
    rewrite (ax_mt_value e a x _ xs (axpy_seq a xs ys)); try done.
    cbn [len]. unfold axpy_seq. rewrite length_zip_with. lia.
  - intros i xi yi Hxi Hyi. unfold axpy_seq.
    rewrite !lookup_zip_with, Hxi, Hyi. reflexivity.
Qed.

Lemma ax_mt_accumulates_witness :
  ax_mt calm 2 (vecZ [1; 2; 3])
    (snd (ax_mt calm 2 (vecZ [1; 2; 3]) (vecZ [10; 20; 30]) 2)) 2
  = (0, vecZ [14; 28; 42]).
Proof.
  destruct (ax_mt_accumulates calm 2 (vecZ [1; 2; 3]) (vecZ [10; 20; 30])
              [1; 2; 3] [10; 20; 30] 2) as [Hres _];
    [apply undisturbed_calm | reflexivity | reflexivity | reflexivity
    | reflexivity | reflexivity | cbn; unfold SIZE_MAX; lia
    | unfold INT_MAX; lia |].
  rewrite Hres. reflexivity.
Defined.

(** ** The kernels agree with one another *)

Section Agreement.
Context {F : Type} `{Scalar F}.

Lemma mv_row_mm_cell (A : Mat F) (x : Vec F) (i : Z) :
  0 <= i < rows A -> 0 <= cols A -> rows A * cols A <= SIZE_MAX ->
  mv_row A x i = mm_cell A (mkMat (len x) 1 (v_data x)) i 0.
Proof.
  intros Hi HK Hsz. unfold mv_row, mm_cell, for_range. cbn [cols m_data].
  rewrite (size_t_small (i * cols A)) by nia. rewrite Z.sub_0_r.
  apply fold_left_ext_elem. intros v k _. do 3 f_equal. lia.
Qed.

End Agreement.

(** [X11] The matrix-vector product is the matrix-matrix product with [x]
    and [y] read as one-column matrices: in an undisturbed run on
    well-formed arguments [mv_mt] and [mm_mt] leave the same cells, for any
    scalars (bit for bit on doubles), any thread counts and any tile. *)
Theorem mv_mt_as_mm_mt {F : Type} `{Scalar F} (e : Env) (A : Mat F)
    (x y : Vec F) (cfg cfg' : KCfg) :
  undisturbed e -> mat_wf A -> vec_wf x -> vec_wf y ->
  cols A = len x -> rows A = len y ->
  nt cfg <= INT_MAX -> nt cfg' <= INT_MAX -> tile cfg' <= INT_MAX ->
  fst (mv_mt e A x y cfg) = 0 /\
  fst (mm_mt e A (mkMat (len x) 1 (v_data x)) (mkMat (len y) 1 (v_data y))
         cfg') = 0 /\
  v_data (snd (mv_mt e A x y cfg))
  = m_data (snd (mm_mt e A (mkMat (len x) 1 (v_data x))
                   (mkMat (len y) 1 (v_data y)) cfg')).
Proof.
  intros He HA Hx Hy Hcx Hry Hn Hn' Htl.
  pose proof HA as (HAr & HAc & HAsz & abuf & Ha & Hal).
  pose proof Hx as (Hx0 & Hxsz & xs & Hxs & Hxl).
  pose proof Hy as (Hy0 & Hysz & ys & Hys & Hyl).
  rewrite mv_mt_value by (done || by eexists).
  rewrite mm_mt_value; try done.
  - cbn [fst snd v_data m_data]. split_and!; [done..|]. f_equal.
    unfold mm_ref. cbn [cols]. rewrite Z.mul_1_r.
    apply list_fmap_ext. intros k i Hi%lookup_seqZ.
    rewrite Z.div_1_r, Z.mod_1_r. apply mv_row_mm_cell; lia.
  - unfold mat_wf, SIZE_MAX in *. cbn. split_and!; try lia. eexists.
    split; [done|]. lia.
  - unfold mat_wf, SIZE_MAX in *. cbn. split_and!; try lia. eexists.
    split; [done|]. lia.
Qed.

Lemma mv_mt_as_mm_mt_witness :
  v_data (snd (mv_mt calm (mkMat 2 2 (Some [1; 2; 3; 4])) (vecZ [5; 6])
                 (vecZ [0; 0]) (mkKCfg 2 0)))
  = m_data (snd (mm_mt calm (mkMat 2 2 (Some [1; 2; 3; 4]))
                   (mkMat 2 1 (Some [5; 6])) (mkMat 2 1 (Some [0; 0]))
                   (mkKCfg 1 4))).
Proof.
  assert (Hwf : forall l : list Z, (length l <= 8)%nat -> vec_wf (vecZ l)).
  { intros l Hl. unfold vec_wf, vecZ, SIZE_MAX. cbn.
    split_and!; try lia. by eexists. }
  destruct (mv_mt_as_mm_mt calm (mkMat 2 2 (Some [1; 2; 3; 4])) (vecZ [5; 6])
              (vecZ [0; 0]) (mkKCfg 2 0) (mkKCfg 1 4)) as (_ & _ & Heq);
    [apply undisturbed_calm | | apply Hwf; cbn; lia | apply Hwf; cbn; lia
    | reflexivity | reflexivity | cbn; unfold INT_MAX; lia..|].
  - unfold mat_wf, SIZE_MAX. cbn. split_and!; try lia. by eexists.
  - exact Heq.
Defined.

(** ** The accessors *)

Section AccessorFacts.
Context {F : Type} `{Scalar F}.

Lemma cell_index_small (A : Mat F) (i j : Z) :
  0 <= i < rows A -> 0 <= j < cols A -> rows A * cols A <= SIZE_MAX ->
  size_t (size_t (i * cols A) + j) = i * cols A + j /\
  0 <= i * cols A + j < rows A * cols A.
Proof.
  intros Hi Hj Hsz.
  rewrite (size_t_small (i * cols A)) by nia.
  rewrite size_t_small by nia. nia.
Qed.

Lemma cell_index_inj (n i j i' j' : Z) :
  0 <= j < n -> 0 <= j' < n -> i * n + j = i' * n + j' -> i = i' /\ j = j'.
Proof. intros Hj Hj' Heq. assert (i = i') by nia. subst. lia. Qed.

End AccessorFacts.

(** [X12] On a well-formed matrix and in-range indices, [m_set] followed by
    [m_get] reads back the stored value at the same position and the old
    value at any other position; [m_set] keeps the matrix well formed. *)
Theorem m_set_m_get {F : Type} `{Scalar F} (A : Mat F) (i j i' j' : Z)
    (x : F) :
  mat_wf A ->
  0 <= i < rows A -> 0 <= j < cols A ->
  0 <= i' < rows A -> 0 <= j' < cols A ->
  m_get (m_set A i j x) i' j'
  = (if decide (i = i' /\ j = j') then x else m_get A i' j') /\
  mat_wf (m_set A i j x) /\
  rows (m_set A i j x) = rows A /\ cols (m_set A i j x) = cols A.
Proof.
  intros (Hr & Hc & Hsz & buf & Hb & Hlen) Hi Hj Hi' Hj'.
  destruct (cell_index_small A i j Hi Hj ltac:(lia)) as [Hidx Hin].
  destruct (cell_index_small A i' j' Hi' Hj' ltac:(lia)) as [Hidx' Hin'].
  unfold m_set, m_get. rewrite Hb. cbn [rows cols m_data cells default].
  unfold id. rewrite Hidx, Hidx'. split_and!; try done.
  - unfold rd. case_decide as Hd.
    + destruct Hd as [-> ->]. by rewrite list_lookup_insert_eq by lia.
    + rewrite list_lookup_insert_ne; [done|].
      intros Heq. apply Hd. apply (cell_index_inj (cols A)); lia.
  - unfold mat_wf. cbn [rows cols m_data]. split_and!; try lia.
    eexists. split; [reflexivity|]. by rewrite length_insert.
Qed.

Lemma m_set_m_get_witness :
  m_get (m_set (mkMat 2 3 (Some [1; 2; 3; 4; 5; 6])) 1 0 9) 1 0 = 9 /\
  m_get (m_set (mkMat 2 3 (Some [1; 2; 3; 4; 5; 6])) 1 0 9) 0 2 = 3.
Proof.
  assert (Hwf : mat_wf (mkMat 2 3 (Some [1; 2; 3; 4; 5; 6]))).
  { unfold mat_wf, SIZE_MAX. cbn. split_and!; try lia. by eexists. }
  destruct (m_set_m_get (mkMat 2 3 (Some [1; 2; 3; 4; 5; 6])) 1 0 1 0 9)
    as [H1 _]; [done | cbn; lia..|].
  destruct (m_set_m_get (mkMat 2 3 (Some [1; 2; 3; 4; 5; 6])) 1 0 0 2 9)
    as [H2 _]; [done | cbn; lia..|].
  split; [rewrite H1 | rewrite H2]; reflexivity.
Defined.

(** [X13] After an undisturbed [mm_mt] on well-formed arguments, [m_get]
    reads at every position [(i, j)] of [C] the sum of the terms
    [A[i,k] * B[k,j]] added for [k = 0 .. K-1] in this order, for any
    thread count and any tile. *)
Theorem mm_mt_m_get {F : Type} `{Scalar F} (e : Env) (A B C : Mat F)
    (cfg : KCfg) (i j : Z) :
  undisturbed e -> mat_wf A -> mat_wf B -> mat_wf C ->
  cols A = rows B -> rows C = rows A -> cols C = cols B ->
  nt cfg <= INT_MAX -> tile cfg <= INT_MAX ->
  0 <= i < rows A -> 0 <= j < cols B ->
  m_get (snd (mm_mt e A B C cfg)) i j = mm_cell A B i j.
Proof.
  intros He HA HB HC HAB HCA HCB Hn Htl Hi Hj.
  rewrite mm_mt_value by done. cbn [snd].
  pose proof HC as (HCr & HCc & HCsz & _).
  unfold m_get. cbn [rows cols m_data cells default]. unfold id.
  rewrite (size_t_small (i * cols C)) by nia.
  rewrite size_t_small by nia.
  unfold rd, mm_ref. rewrite list_lookup_fmap.
  rewrite lookup_seqZ_lt by nia. cbn [fmap option_fmap option_map default].
  rewrite Z.add_0_l, Z2Nat.id, HCB by nia. unfold id.
  replace ((i * cols B + j) / cols B) with i
    by (apply (Z.div_unique _ _ _ j); lia).
  replace ((i * cols B + j) mod cols B) with j
    by (apply (Z.mod_unique _ _ i); lia).
  reflexivity.
Qed.

Lemma mm_mt_m_get_witness :
  m_get (snd (mm_mt calm (mkMat 2 2 (Some [1; 2; 3; 4]))
                (mkMat 2 2 (Some [5; 6; 7; 8]))
                (mkMat 2 2 (Some [9; 9; 9; 9])) (mkKCfg 2 1))) 1 0 = 43.
Proof.
  assert (Hwf : forall l : list Z,
            Z.of_nat (length l) = 4 -> mat_wf (mkMat 2 2 (Some l))).
  { intros l Hl. unfold mat_wf, SIZE_MAX. cbn.
    split_and!; try lia. by eexists. }
  rewrite (mm_mt_m_get calm (mkMat 2 2 (Some [1; 2; 3; 4]))
             (mkMat 2 2 (Some [5; 6; 7; 8]))
             (mkMat 2 2 (Some [9; 9; 9; 9])) (mkKCfg 2 1) 1 0);
    [reflexivity | apply undisturbed_calm | by apply Hwf | by apply Hwf
    | by apply Hwf | reflexivity | reflexivity | reflexivity
    | cbn; unfold INT_MAX; lia | cbn; unfold INT_MAX; lia
    | cbn; lia | cbn; lia].
Defined.

(** ** More workers than rows *)

(** [X14] With at least as many workers as rows, worker [T] is given
    exactly row [T] when there is such a row and an empty range otherwise:
    the workers beyond the row count do nothing. *)
Theorem row_range_many_workers (R N T : Z) :
  0 <= R <= N -> 1 <= N <= INT_MAX -> 0 <= T < N ->
  row_range R T N = (Z.min T R, Z.min (T + 1) R) /\
  range_rows R T N = (if T <? R then [T] else []).
Proof.
  intros HR HN HT.
  assert (HSI : INT_MAX < SIZE_MAX) by (unfold INT_MAX, SIZE_MAX; lia).
  assert (Hcl : row_range R T N = (Z.min T R, Z.min (T + 1) R)).
  { rewrite row_range_closed by lia. unfold part_start.
    destruct (Z.eq_dec R N) as [->|Hne].
    - rewrite Z.div_same, Z_mod_same_full by lia. f_equal; lia.
    - rewrite Z.div_small, Z.mod_small by lia. f_equal; lia. }
  split; [done|]. unfold range_rows. rewrite Hcl.
  destruct (Z.ltb_spec T R).
  - replace (Z.min (T + 1) R - Z.min T R) with 1 by lia.
    rewrite Z.min_l by lia. reflexivity.
  - rewrite seqZ_nil by lia. reflexivity.
Qed.

Lemma row_range_many_workers_witness :
  map (fun t => row_range 2 t 4) [0; 1; 2; 3] = [(0, 1); (1, 2); (2, 2); (2, 2)].
Proof.
  destruct (row_range_many_workers 2 4 1) as [H1 _];
    [lia | unfold INT_MAX; lia | lia |].
  cbn [map]. rewrite H1. reflexivity.
Defined.

(** ** Every index stays inside its buffer *)

Lemma min_sz_le a b : min_sz a b <= b.
Proof. unfold min_sz. destruct (Z.ltb_spec a b); lia. Qed.

Section CheckedLoops.
Context {S : Type} (P : S -> Prop).

Lemma fold_left_ck {A : Type} (f : A -> S -> S) (g : A -> S -> option S)
    (l : list A) (s : S) :
  P s ->
  (forall a s', a ∈ l -> P s' -> g a s' = Some (f a s') /\ P (f a s')) ->
  fold_left (fun o a => o ≫= g a) l (Some s)
  = Some (fold_left (fun s a => f a s) l s).
Proof.
  revert s. induction l as [|a l IH]; intros s Hs Hg; cbn; [done|].
  destruct (Hg a s) as [-> Hs']; [apply list_elem_of_here | done |].
  apply IH; [done|].
  intros b s' Hb. apply Hg. by apply list_elem_of_further.
Qed.

Lemma for_rows_ck_ok stop l (body : Z -> S -> S)
    (body_ck : Z -> S -> option S) s :
  P s ->
  (forall i s', i ∈ l -> P s' ->
     body_ck i s' = Some (body i s') /\ P (body i s')) ->
  for_rows_ck stop l body_ck s = Some (for_rows stop l body s).
Proof.
  intros Hs Hb. unfold for_rows_ck.
  destruct stop; [by rewrite !for_rows_true|].
  rewrite !for_rows_false. by apply fold_left_ck.
Qed.

Lemma for_range_ck_ok lo hi (body : Z -> S -> S)
    (body_ck : Z -> S -> option S) s :
  P s ->
  (forall i s', lo <= i < hi -> P s' ->
     body_ck i s' = Some (body i s') /\ P (body i s')) ->
  for_range_ck lo hi body_ck s = Some (for_range lo hi body s).
Proof.
  intros Hs Hb. unfold for_range_ck, for_range.
  apply fold_left_ck; [done|].
  intros i s' Hi%elem_of_seqZ. apply Hb. lia.
Qed.

Lemma for_step_ck_ok fuel i hi step (body : Z -> S -> S)
    (body_ck : Z -> S -> option S) s :
  P s ->
  (forall j s', j ∈ steps fuel i hi step -> P s' ->
     body_ck j s' = Some (body j s') /\ P (body j s')) ->
  for_step_ck fuel i hi step body_ck s = Some (for_step fuel i hi step body s).
Proof.
  intros Hs Hb. unfold for_step_ck. rewrite !for_step_steps.
  by apply fold_left_ck.
Qed.

Lemma run_workers_ck_ok e n (worker : Z -> S -> S)
    (worker_ck : Z -> S -> option S) s :
  P s ->
  (forall t s', 0 <= t < n -> P s' ->
     worker_ck t s' = Some (worker t s') /\ P (worker t s')) ->
  run_workers_ck e n worker_ck s = Some (run_workers e n worker s).
Proof.
  intros Hs Hw. unfold run_workers_ck, run_workers.
  apply fold_left_ck; [done|].
  intros t s' Ht%spawn_elem%elem_of_seqZ. apply Hw. lia.
Qed.

End CheckedLoops.

Section CheckedKernels.
Context {F : Type} `{Scalar F}.

Lemma rd_ck_ok (l : list F) (p : Z) :
  0 <= p < Z.of_nat (length l) -> rd_ck l p = Some (rd l p).
Proof.
  intros Hp. unfold rd_ck, rd. rewrite decide_True by lia.
  destruct (lookup_lt_is_Some_2 l (Z.to_nat p) ltac:(lia)) as [v ->].
  reflexivity.
Qed.

Lemma wr_ck_ok (l : list F) (p : Z) (v : F) :
  0 <= p < Z.of_nat (length l) -> wr_ck l p v = Some (<[Z.to_nat p := v]> l).
Proof. intros Hp. unfold wr_ck. by rewrite decide_True. Qed.

Lemma mm_acc_ck_ok (B : list F) (a : F) (brow crow col : Z) (C : list F) :
  0 <= brow + col < Z.of_nat (length B) ->
  0 <= crow + col < Z.of_nat (length C) ->
  mm_acc_ck B a brow crow col C = Some (mm_acc B a brow crow col C).
Proof.
  intros HB HC. unfold mm_acc_ck, mm_acc.
  rewrite !rd_ck_ok by done. cbn. rewrite wr_ck_ok by done. f_equal.
  unfold rd.
  destruct (lookup_lt_is_Some_2 C (Z.to_nat (crow + col)) ltac:(lia))
    as [c Hc].
  rewrite Hc. cbn. apply list_eq. intros p.
  destruct (decide (p = Z.to_nat (crow + col))) as [->|Hne].
  - rewrite list_lookup_insert_eq by lia.
    by rewrite list_lookup_alter_eq, Hc.
  - rewrite list_lookup_insert_ne by done.
    by rewrite list_lookup_alter_ne.
Qed.

Lemma cells_Some (d : option (list F)) (l : list F) :
  d = Some l -> cells d = l.
Proof. by intros ->. Qed.

(** *** The workers *)

Lemma mv_row_ck_ok (A : Mat F) (x : Vec F) (i : Z) :
  mat_wf A -> vec_wf x -> cols A = len x -> 0 <= i < rows A ->
  mv_row_ck A x i = Some (mv_row A x i).
Proof.
  intros (HAr & HAc & HAsz & abuf & Ha & Hal)
    (Hx0 & Hxsz & xs & Hxs & Hxl) Hcx Hi.
  unfold mv_row_ck, mv_row.
  rewrite (cells_Some _ _ Ha), (cells_Some _ _ Hxs).
  apply (for_range_ck_ok (fun _ => True)); [done|].
  intros k sum Hk _. split; [|done].
  rewrite !rd_ck_ok; [done | rewrite ?size_t_small by nia; nia..].
Qed.

Lemma mv_worker_ck_ok stop (A : Mat F) (x : Vec F) (t n : Z) (y : list F) :
  mat_wf A -> vec_wf x -> cols A = len x ->
  Z.of_nat (length y) = rows A ->
  1 <= n <= INT_MAX -> 0 <= t < n ->
  mv_worker_ck stop A x t n y = Some (mv_worker stop A x t n y).
Proof.
  intros HA Hx Hcx Hy Hn Ht. unfold mv_worker_ck, mv_worker.
  apply (for_rows_ck_ok (fun y' => length y' = length y)); [done|].
  intros i y' Hi Hy'.
  apply range_rows_elem in Hi; [|destruct HA; lia..].
  rewrite mv_row_ck_ok by done. cbn.
  rewrite wr_ck_ok by lia. by rewrite length_insert.
Qed.

(** One reduction index of one row: the read of [A[i,k]] and the
    accumulation over the columns [[lo, hi)]. *)
Lemma mm_cols_ck_ok (A B : Mat F) (i k lo hi : Z) (C : list F) :
  mat_wf A -> mat_wf B -> cols A = rows B ->
  Z.of_nat (length C) = rows A * cols B -> rows A * cols B <= SIZE_MAX ->
  0 <= i < rows A -> 0 <= k < cols A -> 0 <= lo -> hi <= cols B ->
  (a ← rd_ck (cells (m_data A)) (size_t (size_t (i * cols A) + k));
   for_range_ck lo hi (fun col C =>
     mm_acc_ck (cells (m_data B)) a (size_t (k * cols B))
       (size_t (i * cols B)) col C) C)
  = Some (for_range lo hi (fun col C =>
            mm_acc (cells (m_data B))
              (rd (cells (m_data A)) (size_t (size_t (i * cols A) + k)))
              (size_t (k * cols B)) (size_t (i * cols B)) col C) C)
  /\ length (for_range lo hi (fun col C =>
               mm_acc (cells (m_data B))
                 (rd (cells (m_data A)) (size_t (size_t (i * cols A) + k)))
                 (size_t (k * cols B)) (size_t (i * cols B)) col C) C)
     = length C.
Proof.
  intros (HAr & HAc & HAsz & abuf & Ha & Hal)
    (HBr & HBc & HBsz & bbuf & Hb & Hbl) HAB HC HCsz Hi Hk Hlo Hhi.
  rewrite (cells_Some _ _ Ha), (cells_Some _ _ Hb).
  split.
  - destruct (cell_index_small A i k Hi Hk ltac:(lia)) as [-> Hik].
    rewrite rd_ck_ok by lia. cbn.
    apply (for_range_ck_ok (fun C' => length C' = length C)); [done|].
    intros col C' Hcol HC'. split.
    + apply mm_acc_ck_ok.
      * rewrite (size_t_small (k * cols B)) by nia. nia.
      * rewrite (size_t_small (i * cols B)) by nia. nia.
    + unfold mm_acc. by rewrite length_alter.
  - apply (for_range_inv (fun C' => length C' = length C)); [done|].
    intros col C' HC'. unfold mm_acc. by rewrite length_alter.
Qed.

Lemma mm_row_ck_ok (A B : Mat F) (i : Z) (C : list F) :
  mat_wf A -> mat_wf B -> cols A = rows B ->
  Z.of_nat (length C) = rows A * cols B -> rows A * cols B <= SIZE_MAX ->
  0 <= i < rows A ->
  mm_row_ck A B i C = Some (mm_row A B i C)
  /\ length (mm_row A B i C) = length C.
Proof.
  intros HA HB HAB HC HCsz Hi. unfold mm_row_ck, mm_row. split.
  - apply (for_range_ck_ok (fun C' => length C' = length C)); [done|].
    intros k C' Hk HC'. rewrite <- HC'.
    apply mm_cols_ck_ok; (done || lia).
  - apply (for_range_inv (fun C' => length C' = length C)); [done|].
    intros k C' HC'.
    apply (for_range_inv (fun C' => length C' = length C)); [done|].
    intros col C'' HC''. unfold mm_acc. by rewrite length_alter.
Qed.

Lemma mm_row_tiled_ck_ok (A B : Mat F) (T i : Z) (C : list F) :
  mat_wf A -> mat_wf B -> cols A = rows B ->
  Z.of_nat (length C) = rows A * cols B -> rows A * cols B <= SIZE_MAX ->
  0 < T -> 0 <= i < rows A ->
  mm_row_tiled_ck A B T i C = Some (mm_row_tiled A B T i C)
  /\ length (mm_row_tiled A B T i C) = length C.
Proof.
  intros HA HB HAB HC HCsz HT Hi. unfold mm_row_tiled_ck, mm_row_tiled.
  assert (Hlen : forall jj kk C',
            length C' = length C ->
            length (for_range kk (min_sz (size_t (kk + T)) (cols A))
                      (fun k C0 =>
                         for_range jj (min_sz (size_t (jj + T)) (cols B))
                           (fun col C1 =>
                              mm_acc (cells (m_data B))
                                (rd (cells (m_data A))
                                   (size_t (size_t (i * cols A) + k)))
                                (size_t (k * cols B)) (size_t (i * cols B))
                                col C1) C0) C')
            = length C).
  { intros jj kk C' HC'.
    apply (for_range_inv (fun C' => length C' = length C)); [done|].
    intros k C0 HC0.
    apply (for_range_inv (fun C' => length C' = length C)); [done|].
    intros col C1 HC1. unfold mm_acc. by rewrite length_alter. }
  split.
  - apply (for_step_ck_ok (fun C' => length C' = length C)); [done|].
    intros jj C1 Hjj HC1. apply steps_lower in Hjj; [|lia..].
    split.
    + apply (for_step_ck_ok (fun C' => length C' = length C)); [done|].
      intros kk C2 Hkk HC2. apply steps_lower in Hkk; [|lia..].
      split; [|by apply Hlen].
      apply (for_range_ck_ok (fun C' => length C' = length C)); [done|].
      intros k C3 Hk HC3. rewrite <- HC3.
      pose proof (min_sz_le (size_t (kk + T)) (cols A)).
      pose proof (min_sz_le (size_t (jj + T)) (cols B)).
      apply mm_cols_ck_ok; (done || lia).
    + apply (for_step_inv (fun C' => length C' = length C)); [done|].
      intros kk C2 HC2. by apply Hlen.
  - apply (for_step_inv (fun C' => length C' = length C)); [done|].
    intros jj C1 HC1.
    apply (for_step_inv (fun C' => length C' = length C)); [done|].
    intros kk C2 HC2. by apply Hlen.
Qed.

Lemma mm_worker_ck_ok stop (A B : Mat F) (t n tl : Z) (C : list F) :
  mat_wf A -> mat_wf B -> cols A = rows B ->
  Z.of_nat (length C) = rows A * cols B -> rows A * cols B <= SIZE_MAX ->
  1 <= n <= INT_MAX -> 0 <= t < n -> tl <= INT_MAX ->
  mm_worker_ck stop A B t n tl C = Some (mm_worker stop A B t n tl C).
Proof.
  intros HA HB HAB HC HCsz Hn Ht Htl. unfold mm_worker_ck, mm_worker.
  assert (HSI : INT_MAX < SIZE_MAX) by (unfold INT_MAX, SIZE_MAX; lia).
  destruct (Z.leb_spec tl 0) as [Hle|Hgt].
  - apply (for_rows_ck_ok (fun C' => length C' = length C)); [done|].
    intros i C' Hi HC'.
    apply range_rows_elem in Hi; [|destruct HA; lia..].
    rewrite <- HC'. apply mm_row_ck_ok; (done || lia).
  - rewrite size_t_small by lia.
    apply (for_rows_ck_ok (fun C' => length C' = length C)); [done|].
    intros i C' Hi HC'.
    apply range_rows_elem in Hi; [|destruct HA; lia..].
    rewrite <- HC'. apply mm_row_tiled_ck_ok; (done || lia).
Qed.

Lemma dt_worker_ck_ok stop (x y : Vec F) (t n : Z) :
  vec_wf x -> vec_wf y -> len x = len y ->
  1 <= n <= INT_MAX -> 0 <= t < n ->
  dt_worker_ck stop x y t n = Some (dt_worker stop x y t n).
Proof.
  intros (Hx0 & Hxsz & xs & Hxs & Hxl) (Hy0 & Hysz & ys & Hys & Hyl)
    Hxy Hn Ht.
  unfold dt_worker_ck, dt_worker.
  rewrite (cells_Some _ _ Hxs), (cells_Some _ _ Hys).
  apply (for_rows_ck_ok (fun _ => True)); [done|].
  intros i s Hi _. apply range_rows_elem in Hi; [|lia..].
  by rewrite !rd_ck_ok by lia.
Qed.

Lemma ax_worker_ck_ok stop (a : F) (x : Vec F) (t n : Z) (y : list F) :
  vec_wf x -> Z.of_nat (length y) = len x ->
  1 <= n <= INT_MAX -> 0 <= t < n ->
  ax_worker_ck stop a x t n y = Some (ax_worker stop a x t n y).
Proof.
  intros (Hx0 & Hxsz & xs & Hxs & Hxl) Hy Hn Ht.
  unfold ax_worker_ck, ax_worker. rewrite (cells_Some _ _ Hxs).
  apply (for_rows_ck_ok (fun y' => length y' = length y)); [done|].
  intros i y' Hi Hy'. apply range_rows_elem in Hi; [|lia..].
  rewrite !rd_ck_ok by lia. cbn.
  rewrite wr_ck_ok by lia. by rewrite length_insert.
Qed.

End CheckedKernels.

Lemma memset_bytes (r c : Z) :
  0 <= r -> 0 <= c -> 8 * (r * c) <= SIZE_MAX ->
  size_t (size_t (8 * r) * c) = 8 * (r * c).
Proof.
  intros Hr Hc Hb. destruct (Z.eq_dec c 0) as [->|Hc0].
  - rewrite !Z.mul_0_r. reflexivity.
  - rewrite (size_t_small (8 * r)) by nia. rewrite size_t_small by nia. lia.
Qed.

Section CheckedCalls.
Context {F : Type} `{Scalar F}.

(** *** The kernels *)

Lemma mv_mt_ck_ok (e : Env) (A : Mat F) (x y : Vec F) (cfg : KCfg) :
  mat_wf A -> vec_wf x -> vec_wf y -> nt cfg <= INT_MAX ->
  mv_mt_ck e A x y cfg = Some (mv_mt e A x y cfg).
Proof.
  intros HA Hx Hy Hcfg. unfold mv_mt_ck, mv_mt.
  pose proof HA as (_ & _ & _ & abuf & -> & _).
  pose proof Hx as (_ & _ & xs & -> & _).
  pose proof Hy as (_ & _ & ys & -> & Hyl).
  destruct (Z.eqb_spec (cols A) (len x)) as [Hcx|]; [|done].
  destruct (Z.eqb_spec (rows A) (len y)) as [Hry|]; [|done].
  cbn [negb orb].
  destruct (negb (ths_ok e) || negb (jobs_ok e)); [done|].
  fold (threads (nt cfg)).
  rewrite (run_workers_ck_ok (fun y' => length y' = length ys) e
             (threads (nt cfg))
             (fun t => mv_worker (g_stop e) A x t (threads (nt cfg))));
    [done | done |].
  intros t y' Ht Hy'. rewrite mv_worker_length.
  split; [|done].
  apply mv_worker_ck_ok; try done; [lia | by apply threads_bounds].
Qed.

Lemma mm_mt_ck_ok (e : Env) (A B C : Mat F) (cfg : KCfg) :
  mat_wf A -> mat_wf B -> mat_wf C ->
  nt cfg <= INT_MAX -> tile cfg <= INT_MAX ->
  mm_mt_ck e A B C cfg = Some (mm_mt e A B C cfg).
Proof.
  intros HA HB HC Hcfg Htl. unfold mm_mt_ck, mm_mt.
  pose proof HA as (_ & _ & _ & abuf & -> & _).
  pose proof HB as (_ & _ & _ & bbuf & -> & _).
  pose proof HC as (HCr & HCc & HCsz & cbuf & -> & Hcl).
  destruct (Z.eqb_spec (cols A) (rows B)) as [HAB|]; [|done].
  destruct (Z.eqb_spec (rows C) (rows A)) as [HCA|]; [|done].
  destruct (Z.eqb_spec (cols C) (cols B)) as [HCB|]; [|done].
  cbn [negb orb].
  unfold memset0_ck. rewrite memset_bytes by lia.
  rewrite decide_True by lia. cbn [mbind option_bind].
  destruct (negb (ths_ok e) || negb (jobs_ok e)); [done|].
  fold (threads (nt cfg)).
  rewrite (run_workers_ck_ok (fun C' => length C' = length cbuf) e
             (threads (nt cfg))
             (fun t => mm_worker (g_stop e) A B t (threads (nt cfg))
                         (tile cfg)));
    [done | apply memset0_length |].
  intros t C' Ht HC'. rewrite mm_worker_length.
  split; [|done].
  apply mm_worker_ck_ok; try done; [nia | nia | by apply threads_bounds].
Qed.

Lemma dt_mt_ck_ok (e : Env) (x y : Vec F) (out : F) (n : Z) :
  vec_wf x -> vec_wf y -> n <= INT_MAX ->
  dt_mt_ck e x y out n = Some (dt_mt e x y out n).
Proof.
  intros Hx Hy Hn. unfold dt_mt_ck, dt_mt.
  pose proof Hx as (_ & _ & xs & -> & _).
  pose proof Hy as (_ & _ & ys & -> & _).
  destruct (Z.eqb_spec (len x) (len y)) as [Hxy|]; [|done].
  cbn [negb].
  destruct (negb (ths_ok e) || negb (jobs_ok e)); [done|].
  fold (threads n).
  rewrite (run_workers_ck_ok (fun _ => True) e (threads n)
             (fun t sum => add sum (dt_worker (g_stop e) x y t (threads n))));
    [done | done |].
  intros t s Ht _. split; [|done].
  rewrite dt_worker_ck_ok; [done | done | done | done
                           | by apply threads_bounds | done].
Qed.

Lemma ax_mt_ck_ok (e : Env) (a : F) (x y : Vec F) (n : Z) :
  vec_wf x -> vec_wf y -> n <= INT_MAX ->
  ax_mt_ck e a x y n = Some (ax_mt e a x y n).
Proof.
  intros Hx Hy Hn. unfold ax_mt_ck, ax_mt.
  pose proof Hx as (_ & _ & xs & -> & _).
  pose proof Hy as (_ & _ & ys & -> & Hyl).
  destruct (Z.eqb_spec (len x) (len y)) as [Hxy|]; [|done].
  cbn [negb].
  destruct (negb (ths_ok e) || negb (jobs_ok e)); [done|].
  fold (threads n).
  rewrite (run_workers_ck_ok (fun y' => length y' = length ys) e (threads n)
             (fun t => ax_worker (g_stop e) a x t (threads n)));
    [done | done |].
  intros t y' Ht Hy'. rewrite ax_worker_length.
  split; [|done].
  apply ax_worker_ck_ok; try done; [lia | by apply threads_bounds].
Qed.

End CheckedCalls.

(** A thread count of 0 or less is a thread count of 1. *)
Lemma dt_mt_threads {F : Type} `{Scalar F} (e : Env) (x y : Vec F) (out : F)
    (n : Z) :
  dt_mt e x y out n = dt_mt e x y out (threads n).
Proof.
  unfold dt_mt, threads. destruct (Z.leb_spec n 0) as [Hn|Hn]; [done|].
  destruct (Z.leb_spec n 0); [lia|done].
Qed.

(** [X15] On well-formed arguments of matching dimensions, no worker reads
    or writes a cell that its blocks do not have.  Run with every
    dereference checked, each of [mv_worker], [mm_worker] (tiled or not),
    [dt_worker] and [ax_worker] completes without a fault and yields what
    the unchecked worker yields, for every worker index, whatever the
    output block holds when the worker starts and whether or not the run
    is cancelled. *)
Theorem workers_in_bounds {F : Type} `{Scalar F} (stop : bool)
    (A B : Mat F) (x : Vec F) (a : F) (ybuf cbuf : list F) (n t tl : Z) :
  1 <= n <= INT_MAX -> 0 <= t < n ->
  (mat_wf A -> vec_wf x -> cols A = len x ->
   Z.of_nat (length ybuf) = rows A ->
   mv_worker_ck stop A x t n ybuf = Some (mv_worker stop A x t n ybuf)) /\
  (mat_wf A -> mat_wf B -> cols A = rows B ->
   Z.of_nat (length cbuf) = rows A * cols B ->
   rows A * cols B <= SIZE_MAX -> tl <= INT_MAX ->
   mm_worker_ck stop A B t n tl cbuf
   = Some (mm_worker stop A B t n tl cbuf)) /\
  (forall y : Vec F, vec_wf x -> vec_wf y -> len x = len y ->
   dt_worker_ck stop x y t n = Some (dt_worker stop x y t n)) /\
  (vec_wf x -> Z.of_nat (length ybuf) = len x ->
   ax_worker_ck stop a x t n ybuf = Some (ax_worker stop a x t n ybuf)).
Proof.
  intros Hn Ht. split_and!.
  - intros. by apply mv_worker_ck_ok.
  - intros. by apply mm_worker_ck_ok.
  - intros. by apply dt_worker_ck_ok.
  - intros. by apply ax_worker_ck_ok.
Qed.

Lemma workers_in_bounds_witness :
  mm_worker_ck false (mkMat 2 3 (Some [1; 2; 3; 4; 5; 6]))
    (mkMat 3 1 (Some [1; 1; 1])) 1 2 2 [0; 0]
  = Some [0; 15] /\
  mm_worker_ck false (mkMat 2 3 (Some [1; 2; 3; 4; 5]))
    (mkMat 3 1 (Some [1; 1; 1])) 1 2 2 [0; 0]
  = None.
Proof.
  assert (Hwf : forall r c (l : list Z),
            0 <= r <= 8 -> 0 <= c <= 8 -> Z.of_nat (length l) = r * c ->
            mat_wf (mkMat r c (Some l))).
  { intros r c l Hr Hc Hl. unfold mat_wf, SIZE_MAX. cbn.
    split_and!; try nia. by eexists. }
  destruct (workers_in_bounds false (mkMat 2 3 (Some [1; 2; 3; 4; 5; 6]))
              (mkMat 3 1 (Some [1; 1; 1])) (vecZ []) 0 [] [0; 0] 2 1 2)
    as (_ & Hmm & _); [unfold INT_MAX; lia | lia |].
  split; [|reflexivity].
  rewrite Hmm;
    [reflexivity | apply Hwf; cbn; lia | apply Hwf; cbn; lia | reflexivity
    | reflexivity | cbn; unfold SIZE_MAX; lia | unfold INT_MAX; lia].
Defined.

(** ** Zero-size arguments: what the kernels do *)

(** [C5], amended.  Zero sizes never make a kernel misbehave, but the
    outcome depends on how the zero-size object is represented.  [m_alloc]
    and [v_alloc] represent it by an absent buffer, and every kernel given
    an absent buffer returns -1 before it touches a cell and leaves the
    output as it was.  When all buffers are present and the dimensions are
    consistent, an undisturbed call returns 0 and the output is the result
    over an empty index range: an output without cells is left as it is
    ([mv_mt] with no rows, [mm_mt] with no rows or no columns, [ax_mt] on
    length 0), whereas [mv_mt] on a matrix without columns stores [0.0] in
    every [y[i]], [mm_mt] with an empty reduction dimension leaves [C]
    cleared to [0.0], and [dt_mt] on length 0 stores [0.0] in the output
    cell (the sum of the workers' [0.0], which is [0.0] as soon as
    [0.0 + 0.0 = 0.0], as it is on doubles).  On well-formed arguments,
    zero sizes included, no kernel reads or writes outside a block, in any
    environment.  No law of arithmetic is assumed. *)
Theorem zero_size_calls {F : Type} `{Scalar F} (e : Env)
    (A B C : Mat F) (x y : Vec F) (a out : F) (cfg : KCfg) (n : Z) :
  (forall ok r c, r = 0 \/ c = 0 -> m_data (m_alloc (F:=F) ok r c) = None) /\
  (forall ok, v_data (v_alloc (F:=F) ok 0) = None) /\
  (m_data A = None \/ v_data x = None \/ v_data y = None ->
   mv_mt e A x y cfg = (-1, y) /\ mv_mt_ck e A x y cfg = Some (-1, y)) /\
  (m_data A = None \/ m_data B = None \/ m_data C = None ->
   mm_mt e A B C cfg = (-1, C) /\ mm_mt_ck e A B C cfg = Some (-1, C)) /\
  (v_data x = None \/ v_data y = None ->
   dt_mt e x y out n = (-1, out) /\ dt_mt_ck e x y out n = Some (-1, out)) /\
  (v_data x = None \/ v_data y = None ->
   ax_mt e a x y n = (-1, y) /\ ax_mt_ck e a x y n = Some (-1, y)) /\
  (undisturbed e -> nt cfg <= INT_MAX -> n <= INT_MAX ->
   (is_Some (m_data A) -> is_Some (v_data x) -> vec_wf y ->
    cols A = len x -> rows A = len y ->
    (rows A = 0 -> mv_mt e A x y cfg = (0, y)) /\
    (cols A = 0 ->
     mv_mt e A x y cfg
     = (0, mkVec (len y) (Some (replicate (Z.to_nat (len y)) zero))))) /\
   (is_Some (m_data A) -> is_Some (m_data B) -> mat_wf C ->
    cols A = rows B -> rows C = rows A -> cols C = cols B ->
    (rows A = 0 \/ cols B = 0 -> mm_mt e A B C cfg = (0, C)) /\
    (cols A = 0 ->
     mm_mt e A B C cfg
     = (0, mkMat (rows C) (cols C)
             (Some (replicate (Z.to_nat (rows C * cols C)) zero))))) /\
   (vec_wf x -> vec_wf y -> len x = len y -> len x = 0 ->
    (add zero zero = zero -> dt_mt e x y out n = (0, zero)) /\
    ax_mt e a x y n = (0, y))) /\
  (nt cfg <= INT_MAX -> tile cfg <= INT_MAX -> n <= INT_MAX ->
   (mat_wf A -> vec_wf x -> vec_wf y ->
    mv_mt_ck e A x y cfg = Some (mv_mt e A x y cfg)) /\
   (mat_wf A -> mat_wf B -> mat_wf C ->
    mm_mt_ck e A B C cfg = Some (mm_mt e A B C cfg)) /\
   (vec_wf x -> vec_wf y ->
    dt_mt_ck e x y out n = Some (dt_mt e x y out n) /\
    ax_mt_ck e a x y n = Some (ax_mt e a x y n))).
Proof.
  split_and!.
  - intros ok r c Hz. unfold m_alloc.
    destruct Hz as [-> | ->]; [done|]. by rewrite orb_true_r.
  - done.
  - intros Hn. unfold mv_mt, mv_mt_ck.
    destruct (m_data A), (v_data x), (v_data y); try done;
      destruct Hn as [?|[?|?]]; done.
  - intros Hn. unfold mm_mt, mm_mt_ck.
    destruct (m_data A), (m_data B), (m_data C); try done;
      destruct Hn as [?|[?|?]]; done.
  - intros Hn. unfold dt_mt, dt_mt_ck.
    destruct (v_data x), (v_data y); try done; destruct Hn; done.
  - intros Hn. unfold ax_mt, ax_mt_ck.
    destruct (v_data x), (v_data y); try done; destruct Hn; done.
  - intros He Hcfg Hn. pose proof He as (Hstop & Hths & Hjobs & Hok).
    split_and!.
    + intros HA Hx Hy Hcx Hry.
      rewrite mv_mt_value by done.
      destruct Hy as (_ & _ & ybuf & Hy & Hlen). split.
      * intros HR. rewrite HR. cbn.
        destruct y as [ly dy]. cbn in *. subst dy.
        rewrite (nil_of_length ybuf) by lia. reflexivity.
      * intros HK. do 3 f_equal. rewrite <- Hry.
        apply fmap_const_seqZ. intros i. by apply mv_row_no_cols.
    + intros HA HB HC HAB HCA HCB.
      rewrite mm_mt_valid by done. cbn zeta.
      rewrite scratch_granted_test by done.
      destruct HC as (_ & _ & _ & cbuf & HCd & Hlen). split.
      * intros Hz.
        assert (Hz' : rows C * cols C = 0) by (destruct Hz; nia).
        rewrite Hz'. cbn [Z.to_nat replicate].
        destruct C as [rc cc dc]. cbn in *. subst dc.
        rewrite (nil_of_length cbuf) by lia. do 3 f_equal.
        apply nil_of_length.
        rewrite (run_workers_inv (fun l : list F => length l = 0%nat));
          [done | done |].
        intros t l Hl. by rewrite mm_worker_length.
      * intros HK. do 3 f_equal.
        apply (run_workers_inv
                 (fun l => l = replicate (Z.to_nat (rows C * cols C)) zero));
          [done|].
        intros t l ->. by apply mm_worker_no_terms.
    + intros (_ & _ & xs & Hx & Hlx) (_ & _ & ys & Hy & Hly) Hxy Hz.
      split.
      * intros Hzero. rewrite dt_mt_threads.
        apply (dt_mt_idle_workers e x y xs ys);
          [done | done | done | done
          | pose proof (threads_bounds n Hn); lia
          | by apply threads_bounds
          | by rewrite Hz
          | done].
      * assert (xs = []) as -> by (apply nil_of_length; lia).
        assert (ys = []) as -> by (apply nil_of_length; lia).
        rewrite (ax_mt_value e a x y [] [])
          by (done || (unfold SIZE_MAX; cbn; lia)).
        destruct y as [ly dy]. cbn in *. by subst dy.
  - intros Hcfg Htl Hn. split_and!.
    + intros. by apply mv_mt_ck_ok.
    + intros. by apply mm_mt_ck_ok.
    + intros. split; [by apply dt_mt_ck_ok | by apply ax_mt_ck_ok].
Qed.

Lemma zero_size_calls_witness :
  mv_mt calm (mkMat 2 0 (Some [])) (mkVec 0 (Some [])) (vecZ [7; 8])
    (mkKCfg 2 0) = (0, vecZ [0; 0]) /\
  dt_mt calm (vecD []) (vecD []) 5%float 2 = (0, 0%float) /\
  mv_mt calm (m_alloc true 0 3) (vecZ [1; 1; 1]) (v_alloc true 0)
    (mkKCfg 2 0) = (-1, v_alloc true 0) /\
  mm_mt_ck calm (mkMat 2 0 (Some [])) (mkMat 0 3 (Some []))
    (mkMat 2 3 (Some [9; 9; 9; 9; 9; 9])) (mkKCfg 2 2)
  = Some (0, mkMat 2 3 (Some [0; 0; 0; 0; 0; 0])).
Proof.
  assert (Hcfg : forall tl, nt (mkKCfg 2 tl) <= INT_MAX)
    by (intros; unfold INT_MAX; cbn; lia).
  assert (Hn : 2 <= INT_MAX) by (unfold INT_MAX; lia).
  assert (Hwfv : forall (G : Type) (l : list G), (length l <= 8)%nat ->
            vec_wf (mkVec (Z.of_nat (length l)) (Some l))).
  { intros G l Hl. unfold vec_wf, SIZE_MAX. cbn.
    split_and!; try lia. by eexists. }
  assert (Hwfm : forall r c (l : list Z),
            0 <= r <= 8 -> 0 <= c <= 8 -> Z.of_nat (length l) = r * c ->
            mat_wf (mkMat r c (Some l))).
  { intros r c l Hr Hc Hl. unfold mat_wf, SIZE_MAX. cbn.
    split_and!; try nia. by eexists. }
  split_and!.
  - destruct (zero_size_calls calm (mkMat 2 0 (Some []))
                (mkMat 0 0 (Some [])) (mkMat 2 0 (Some []))
                (mkVec 0 (Some [])) (vecZ [7; 8]) 0 5 (mkKCfg 2 0) 2)
      as (_ & _ & _ & _ & _ & _ & Hpresent & _).
    destruct (Hpresent undisturbed_calm (Hcfg 0) Hn) as (Hmv & _ & _).
    destruct Hmv as [_ Hcols];
      [by eexists | by eexists | apply (Hwfv Z [7; 8]); cbn; lia
      | reflexivity | reflexivity |].
    rewrite Hcols; reflexivity.
  - destruct (zero_size_calls (F:=float) calm (mkMat 0 0 None)
                (mkMat 0 0 None) (mkMat 0 0 None) (vecD []) (vecD [])
                0%float 5%float (mkKCfg 2 0) 2)
      as (_ & _ & _ & _ & _ & _ & Hpresent & _).
    destruct (Hpresent undisturbed_calm (Hcfg 0) Hn) as (_ & _ & Hvec).
    destruct Hvec as [Hdt _];
      [apply (Hwfv float []); cbn; lia | apply (Hwfv float []); cbn; lia
      | reflexivity | reflexivity |].
    apply Hdt. reflexivity.
  - destruct (zero_size_calls calm (m_alloc true 0 3) (mkMat 0 0 (Some []))
                (mkMat 2 0 (Some [])) (vecZ [1; 1; 1]) (v_alloc true 0)
                0 5 (mkKCfg 2 0) 2)
      as (_ & _ & Habsent & _).
    apply Habsent. by left.
  - destruct (zero_size_calls calm (mkMat 2 0 (Some []))
                (mkMat 0 3 (Some []))
                (mkMat 2 3 (Some [9; 9; 9; 9; 9; 9]))
                (vecZ []) (vecZ []) 0 5 (mkKCfg 2 2) 2)
      as (_ & _ & _ & _ & _ & _ & _ & Hsafe).
    destruct (Hsafe (Hcfg 2)) as (_ & Hmm & _);
      [unfold INT_MAX; cbn; lia | exact Hn |].
    rewrite Hmm;
      [reflexivity | apply Hwfm; cbn; lia | apply Hwfm; cbn; lia
      | apply Hwfm; cbn; lia].
Defined.

(** * Binary files *)

Lemma le_bytes_length n z : length (le_bytes n z) = n.
Proof. revert z. induction n as [|n IH]; intros z; cbn; [done|]. by rewrite IH. Qed.

Lemma le_value_bytes n z :
  0 <= z < 256 ^ Z.of_nat n -> le_value (le_bytes n z) = z.
Proof.
  revert z. induction n as [|n IH]; intros z Hz.
  - cbn in *. lia.
  - cbn [le_bytes le_value]. rewrite IH.
    + pose proof (Z.div_mod z 256 ltac:(lia)). lia.
    + rewrite Nat2Z.inj_succ, Z.pow_succ_r in Hz by lia.
      split; [apply Z.div_pos; lia|].
      apply Z.div_lt_upper_bound; lia.
Qed.

Lemma le_value_bound (bs : list Z) :
  Forall (fun b => 0 <= b < 256) bs ->
  0 <= le_value bs < 256 ^ Z.of_nat (length bs).
Proof.
  induction 1 as [|b bs Hb _ IH]; [cbn; lia|].
  cbn [le_value length]. rewrite Nat2Z.inj_succ, Z.pow_succ_r by lia. lia.
Qed.

Lemma read_u64_write_u64 (z : Z) (rest : list Z) :
  0 <= z <= SIZE_MAX -> read_u64 (write_u64 z ++ rest) = Some (z, rest).
Proof.
  intros Hz. unfold read_u64, write_u64.
  rewrite length_app, le_bytes_length.
  destruct (Nat.leb_spec 8 (8 + length rest)) as [_|]; [|lia].
  rewrite take_app_length', drop_app_length' by (by rewrite le_bytes_length).
  rewrite le_value_bytes; [done|]. unfold SIZE_MAX in Hz. cbn. lia.
Qed.

Lemma read_u64_range (s s' : list Z) (z : Z) :
  Forall (fun b => 0 <= b < 256) s -> read_u64 s = Some (z, s') ->
  0 <= z <= SIZE_MAX /\ Forall (fun b => 0 <= b < 256) s'.
Proof.
  intros Hs. unfold read_u64.
  destruct (Nat.leb_spec 8 (length s)) as [Hlen|]; [|done].
  intros [= <- <-]. split; [|by apply Forall_drop].
  pose proof (le_value_bound (take 8 s) (Forall_take _ _ _ Hs)) as Hb.
  rewrite length_take, Nat.min_l in Hb by lia.
  unfold SIZE_MAX. cbn in Hb. lia.
Qed.

Section FileFacts.
Context {F : Type} `{Scalar F} `{ByteRepr F}.

Lemma fread_doubles_bytes (l : list F) (rest : list Z) :
  fread_doubles (length l) (doubles_bytes l ++ rest) = Some l.
Proof.
  induction l as [|v l IH]; [done|].
  cbn [length fread_doubles]. unfold doubles_bytes. cbn [map concat].
  rewrite <- app_assoc, length_app, to_bytes_length.
  destruct (Nat.leb_spec 8 (8 + length (concat (map to_bytes l) ++ rest)))
    as [_|]; [|lia].
  rewrite take_app_length', drop_app_length' by (by rewrite to_bytes_length).
  fold (doubles_bytes l). by rewrite IH, of_to_bytes.
Qed.

Lemma fread_doubles_length n (s : list Z) (l : list F) :
  fread_doubles n s = Some l -> length l = n.
Proof.
  revert s l. induction n as [|n IH]; intros s l; cbn [fread_doubles].
  - by intros [= <-].
  - destruct (8 <=? length s)%nat; [|done].
    destruct (fread_doubles n (drop 8 s)) as [l'|] eqn:E; [|done].
    intros [= <-]. cbn. f_equal. by eapply IH.
Qed.

Lemma doubles_bytes_length (l : list F) :
  length (doubles_bytes l) = (8 * length l)%nat.
Proof.
  induction l as [|v l IH]; [done|].
  unfold doubles_bytes in *. cbn [map concat length].
  rewrite length_app, to_bytes_length, IH. lia.
Qed.

Lemma m_alloc_granted (r c : Z) :
  1 <= r -> 1 <= c -> 8 * (r * c) <= SIZE_MAX ->
  m_alloc true r c = mkMat r c (Some (replicate (Z.to_nat (r * c)) zero)).
Proof.
  intros Hr Hc Hsz. unfold m_alloc, calloc.
  destruct (Z.eqb_spec r 0); [lia|]. destruct (Z.eqb_spec c 0); [lia|].
  cbn [orb andb]. rewrite (size_t_small (r * c)) by nia.
  destruct (Z.leb_spec (r * c * 8) SIZE_MAX); [done|lia].
Qed.

Lemma m_alloc_Some ok (r c : Z) (buf : list F) :
  m_data (m_alloc ok r c) = Some buf ->
  m_alloc ok r c = mkMat r c (Some buf) /\ r <> 0 /\ c <> 0 /\
  buf = replicate (Z.to_nat (size_t (r * c))) zero /\
  8 * size_t (r * c) <= SIZE_MAX.
Proof.
  unfold m_alloc, calloc.
  destruct (Z.eqb_spec r 0); [done|]. destruct (Z.eqb_spec c 0); [done|].
  cbn [orb]. destruct ok; [|done]. cbn [andb].
  destruct (Z.leb_spec (size_t (r * c) * 8) SIZE_MAX); [|done].
  cbn. intros [= <-]. split_and!; try done. lia.
Qed.

Lemma v_alloc_granted (n : Z) :
  1 <= n -> 8 * n <= SIZE_MAX ->
  v_alloc true n = mkVec n (Some (replicate (Z.to_nat n) zero)).
Proof.
  intros Hn Hsz. unfold v_alloc, calloc.
  destruct (Z.eqb_spec n 0); [lia|]. cbn [andb].
  destruct (Z.leb_spec (n * 8) SIZE_MAX); [done|lia].
Qed.

Lemma mat_eta (M : Mat F) (buf : list F) :
  m_data M = Some buf -> mkMat (rows M) (cols M) (Some buf) = M.
Proof. destruct M as [r c d]. cbn. by intros ->. Qed.

End FileFacts.

(** [X16] A well-formed matrix with at least one row and one column, saved
    in the binary format by a call whose writes all complete, is read back
    unchanged by [m_load]: the file is the two dimensions followed by the
    cells, 16 + 8 * rows * cols bytes, and loading it (whatever follows it
    in the file, whatever [*out] held) returns 0 and the saved matrix. *)
Theorem m_save_m_load {F : Type} `{Scalar F} `{ByteRepr F} (w : OutEnv)
    (M out : Mat F) (rest : list Z) :
  mat_wf M -> 1 <= rows M -> 1 <= cols M ->
  wopen_ok w = true -> (forall k, fwrite_ok w k = true) ->
  exists bytes,
    m_save_bin w M = (0, Some bytes) /\
    Z.of_nat (length bytes) = 16 + 8 * (rows M * cols M) /\
    m_load_bin (Some (bytes ++ rest)) true out = (0, M).
Proof.
  intros (Hr & Hc & Hsz & buf & Hb & Hlen) Hr1 Hc1 Hopen Hwr.
  unfold m_save_bin. rewrite Hb, Hopen, !Hwr. cbn [negb orb].
  rewrite (size_t_small (rows M * cols M)) by nia.
  rewrite <- Hlen, Nat2Z.id, firstn_all.
  eexists. split; [reflexivity|]. split.
  - rewrite !length_app, doubles_bytes_length.
    unfold write_u64. rewrite !le_bytes_length. lia.
  - unfold m_load_bin. rewrite <- !app_assoc.
    rewrite read_u64_write_u64 by lia.
    rewrite read_u64_write_u64 by lia.
    destruct (Z.eqb_spec (rows M) 0); [lia|].
    destruct (Z.eqb_spec (cols M) 0); [lia|]. cbn [orb].
    rewrite !size_t_small by lia.
    rewrite m_alloc_granted by lia. cbn [m_data rows cols].
    rewrite (size_t_small (rows M * cols M)) by nia.
    rewrite <- Hlen, Nat2Z.id, fread_doubles_bytes.
    rewrite drop_ge by (rewrite length_replicate; lia).
    rewrite app_nil_r. f_equal. by apply mat_eta.
Qed.

Lemma m_save_m_load_witness :
  m_load_bin (Some [2; 0; 0; 0; 0; 0; 0; 0; 1; 0; 0; 0; 0; 0; 0; 0;
                    1; 0; 0; 0; 0; 0; 0; 0; 0; 0; 0; 0; 0; 0; 0; 0])
    true (mkMat 0 0 None)
  = (0, mkMat 2 1 (Some [true; false])).
Proof.
  destruct (m_save_m_load out_calm (mkMat 2 1 (Some [true; false]))
              (mkMat 0 0 None) []) as (bytes & Hs & _ & Hl);
    [ | cbn; lia | cbn; lia | reflexivity | reflexivity |].
  - unfold mat_wf, SIZE_MAX. cbn. split_and!; try lia. by eexists.
  - injection Hs as <-. exact Hl.
Defined.

(** [X17] [m_load] on a binary file either fails with -1 and leaves [*out]
    as it was, or returns 0 with a matrix whose dimensions are the two
    words of the header, both at least 1, over a present buffer of
    [rows * cols mod 2^64] cells; that matrix is well formed whenever
    [rows * cols] is representable in [size_t]. *)
Theorem m_load_outcome {F : Type} `{Scalar F} `{ByteRepr F}
    (file : option (list Z)) (alloc_ok : bool) (out : Mat F) :
  (forall s, file = Some s -> Forall (fun b => 0 <= b < 256) s) ->
  (fst (m_load_bin file alloc_ok out) = -1 /\
   snd (m_load_bin file alloc_ok out) = out) \/
  (fst (m_load_bin file alloc_ok out) = 0 /\
   exists r c buf s s1 s2,
     file = Some s /\ read_u64 s = Some (r, s1) /\
     read_u64 s1 = Some (c, s2) /\
     snd (m_load_bin file alloc_ok out) = mkMat r c (Some buf) /\
     1 <= r <= SIZE_MAX /\ 1 <= c <= SIZE_MAX /\
     Z.of_nat (length buf) = size_t (r * c) /\
     (r * c <= SIZE_MAX -> mat_wf (mkMat r c (Some buf)))).
Proof.
  intros Hbytes. unfold m_load_bin.
  destruct file as [s|]; [|by left].
  specialize (Hbytes s eq_refl).
  destruct (read_u64 s) as [[r s1]|] eqn:Er; [|by left].
  destruct (read_u64_range _ _ _ Hbytes Er) as [Hr Hs1].
  destruct (read_u64 s1) as [[c s2]|] eqn:Ec; [|by left].
  destruct (read_u64_range _ _ _ Hs1 Ec) as [Hc Hs2].
  destruct (Z.eqb_spec r 0); [by left|].
  destruct (Z.eqb_spec c 0); [by left|]. cbn [orb].
  rewrite (size_t_small r), (size_t_small c) by lia.
  destruct (m_data (m_alloc alloc_ok r c)) as [buf|] eqn:Em; [|by left].
  apply m_alloc_Some in Em as (Em & _ & _ & Hbuf & Hsz).
  rewrite Em. cbn [rows cols].
  destruct (fread_doubles _ s2) as [l|] eqn:El; [|by left].
  apply fread_doubles_length in El as Hl. right. cbn [fst snd].
  split; [done|]. exists r, c, (l ++ drop (length l) buf), s, s1, s2.
  assert (Hlen : Z.of_nat (length (l ++ drop (length l) buf)) = size_t (r * c)).
  { rewrite length_app, length_drop, Hbuf, length_replicate, Hl.
    pose proof (size_t_nonneg (r * c)). lia. }
  split_and!; try done; try lia.
  intros Hrc. rewrite size_t_small in Hsz, Hlen by nia.
  unfold mat_wf. cbn [rows cols m_data]. split_and!; try lia.
  eexists. split; [reflexivity|]. exact Hlen.
Qed.

Lemma m_load_outcome_witness :
  m_load_bin (Some [2; 0; 0; 0; 0; 0; 0; 0; 1; 0; 0; 0; 0; 0; 0; 0; 1; 0])
    true (mkMat 1 1 (Some [true]))
  = (-1, mkMat 1 1 (Some [true])).
Proof.
  destruct (m_load_outcome
              (Some [2; 0; 0; 0; 0; 0; 0; 0; 1; 0; 0; 0; 0; 0; 0; 0; 1; 0])
              true (mkMat 1 1 (Some [true]))) as [[Hst Hout]|[Hst _]].
  - intros s [= <-]. repeat (constructor; [lia|]). constructor.
  - reflexivity.
  - discriminate Hst.
Defined.

(** [X18] [m_load] does not check that the product of the two header words
    fits [size_t].  For dimensions whose product wraps around, a file that
    holds the header and as many doubles as the wrapped product is loaded
    with status 0, and the matrix returned has a buffer shorter than
    [rows * cols]: it is not well formed. *)
Theorem m_load_unchecked_product {F : Type} `{Scalar F} `{ByteRepr F}
    (r c : Z) (l : list F) (rest : list Z) (out : Mat F) :
  1 <= r <= SIZE_MAX -> 1 <= c <= SIZE_MAX -> SIZE_MAX < r * c ->
  Z.of_nat (length l) = size_t (r * c) -> 8 * size_t (r * c) <= SIZE_MAX ->
  m_load_bin (Some (write_u64 r ++ write_u64 c ++ doubles_bytes l ++ rest))
    true out
  = (0, mkMat r c (Some l)) /\
  ~ mat_wf (mkMat r c (Some l)).
Proof.
  intros Hr Hc Hover Hl Hsz. split.
  - unfold m_load_bin.
    rewrite read_u64_write_u64 by lia.
    rewrite read_u64_write_u64 by lia.
    destruct (Z.eqb_spec r 0); [lia|].
    destruct (Z.eqb_spec c 0); [lia|]. cbn [orb].
    rewrite (size_t_small r), (size_t_small c) by lia.
    unfold m_alloc, calloc.
    destruct (Z.eqb_spec r 0); [lia|].
    destruct (Z.eqb_spec c 0); [lia|]. cbn [orb andb].
    destruct (Z.leb_spec (size_t (r * c) * 8) SIZE_MAX); [|lia].
    cbn [m_data rows cols].
    rewrite <- Hl, Nat2Z.id, fread_doubles_bytes.
    rewrite drop_ge by (rewrite length_replicate; lia).
    by rewrite app_nil_r.
  - intros (_ & _ & _ & buf & [= <-] & Hlen). cbn [rows cols] in Hlen.
    unfold size_t in Hl.
    pose proof (Z.mod_pos_bound (r * c) (2 ^ 64) ltac:(lia)).
    unfold SIZE_MAX in *. lia.
Qed.

Lemma m_load_unchecked_product_witness :
  fst (m_load_bin (F:=bool)
         (Some (write_u64 (2 ^ 32) ++ write_u64 (2 ^ 32) ++ []))
         true (mkMat 0 0 None)) = 0.
Proof.
  destruct (m_load_unchecked_product (F:=bool) (2 ^ 32) (2 ^ 32) [] []
              (mkMat 0 0 None)) as [Hl _];
    [unfold SIZE_MAX; lia | unfold SIZE_MAX; lia | unfold SIZE_MAX; lia
    | reflexivity | by vm_compute |].
  cbn [doubles_bytes map concat app] in Hl. rewrite Hl. reflexivity.
Defined.

(** [X19] A well-formed vector of at least one cell, saved in the binary
    format by a call whose writes all complete, is read back unchanged by
    [v_load], whatever follows it in the file. *)
Theorem v_save_v_load {F : Type} `{Scalar F} `{ByteRepr F} (w : OutEnv)
    (v out : Vec F) (rest : list Z) :
  vec_wf v -> 1 <= len v ->
  wopen_ok w = true -> (forall k, fwrite_ok w k = true) ->
  exists bytes,
    v_save_bin w v = (0, Some bytes) /\
    Z.of_nat (length bytes) = 8 + 8 * len v /\
    v_load_bin (Some (bytes ++ rest)) true out = (0, v).
Proof.
  intros (Hn0 & Hsz & buf & Hb & Hlen) Hn1 Hopen Hwr.
  unfold v_save_bin. rewrite Hb, Hopen, !Hwr. cbn [negb].
  rewrite <- Hlen, Nat2Z.id, firstn_all.
  eexists. split; [reflexivity|]. split.
  - rewrite length_app, doubles_bytes_length.
    unfold write_u64. rewrite le_bytes_length. lia.
  - unfold v_load_bin. rewrite <- app_assoc.
    rewrite read_u64_write_u64 by (unfold SIZE_MAX in *; lia).
    rewrite size_t_small by (unfold SIZE_MAX in *; lia).
    rewrite v_alloc_granted by lia. cbn [v_data len].
    rewrite Nat2Z.id, fread_doubles_bytes.
    rewrite drop_ge by (rewrite length_replicate; lia).
    rewrite app_nil_r, Hlen. f_equal. by apply vec_eta.
Qed.

Lemma v_save_v_load_witness :
  v_load_bin (Some (write_u64 2 ++ doubles_bytes [true; false] ++ [7]))
    true (mkVec 0 None)
  = (0, mkVec 2 (Some [true; false])).
Proof.
  destruct (v_save_v_load out_calm (mkVec 2 (Some [true; false]))
              (mkVec 0 None) [7]) as (bytes & Hs & _ & Hl);
    [ | cbn; lia | reflexivity | reflexivity |].
  - unfold vec_wf, SIZE_MAX. cbn. split_and!; try lia. by eexists.
  - injection Hs as <-. rewrite <- Hl. reflexivity.
Defined.

(** [X20] Objects without cells cannot be stored or loaded, and a released
    object is such an object.  [m_free] and [v_free] leave the struct in
    the all-zero empty state, and releasing again changes nothing; the save
    functions return -1 on any absent buffer, in particular on the
    zero-size results of [m_alloc] and [v_alloc] and on a released object;
    [m_load] returns -1 on a header with a zero dimension and [v_load] on a
    header with length 0, both leaving [*out] as it was. *)
Theorem empty_objects_refused {F : Type} `{Scalar F} `{ByteRepr F}
    (w : OutEnv) (ok : bool) (M out : Mat F) (v vout : Vec F)
    (r c : Z) (rest : list Z) :
  (mat_empty_state (m_free M) /\ m_free (m_free M) = m_free M /\
   vec_empty_state (v_free v) /\ v_free (v_free v) = v_free v) /\
  (m_data M = None -> m_save_bin w M = (-1, None)) /\
  (v_data v = None -> v_save_bin w v = (-1, None)) /\
  m_save_bin w (m_free M) = (-1, None) /\
  v_save_bin w (v_free v) = (-1, None) /\
  (r = 0 \/ c = 0 -> m_save_bin w (m_alloc ok r c) = (-1, None)) /\
  v_save_bin w (v_alloc ok 0) = (-1, None) /\
  (0 <= r <= SIZE_MAX -> 0 <= c <= SIZE_MAX -> r = 0 \/ c = 0 ->
   m_load_bin (Some (write_u64 r ++ write_u64 c ++ rest)) ok out
   = (-1, out)) /\
  v_load_bin (Some (write_u64 0 ++ rest)) ok vout = (-1, vout).
Proof.
  split_and!; try done.
  - intros HM. unfold m_save_bin. by rewrite HM.
  - intros Hv. unfold v_save_bin. by rewrite Hv.
  - intros Hz. unfold m_save_bin, m_alloc.
    destruct Hz as [-> | ->]; [done|]. by rewrite orb_true_r.
  - intros Hr Hc Hz. unfold m_load_bin.
    rewrite read_u64_write_u64 by lia.
    rewrite read_u64_write_u64 by lia.
    destruct Hz as [-> | ->]; [done|]. by rewrite orb_true_r.
Qed.

Lemma empty_objects_refused_witness :
  m_load_bin (Some (write_u64 0 ++ write_u64 3 ++ [])) true
    (mkMat 1 1 (Some [true]))
  = (-1, mkMat 1 1 (Some [true])).
Proof.
  destruct (empty_objects_refused out_calm true (mkMat 0 0 None)
              (mkMat 1 1 (Some [true])) (mkVec 0 None) (mkVec 0 None)
              0 3 []) as (_ & _ & _ & _ & _ & _ & _ & Hl & _).
  apply Hl; [unfold SIZE_MAX; lia | unfold SIZE_MAX; lia | by left].
Defined.

(** * The dot product when a worker fails to start *)

Section DotPrefix.
Context {F : Type} `{ExactScalar F}.

Lemma rd_take (l : list F) (k : nat) (i : Z) :
  0 <= i < Z.of_nat k -> rd (take k l) i = rd l i.
Proof.
  intros Hi. unfold rd. by rewrite lookup_take_lt by lia.
Qed.

Lemma products_prefix (xs ys : list F) (s : Z) :
  0 <= s <= Z.of_nat (length xs) -> 0 <= s <= Z.of_nat (length ys) ->
  (fun i => mul (rd xs i) (rd ys i)) <$> seqZ 0 s
  = zip_with mul (take (Z.to_nat s) xs) (take (Z.to_nat s) ys).
Proof.
  intros Hx Hy.
  rewrite <- (fmap_seqZ_zip_with mul (take (Z.to_nat s) xs)
                (take (Z.to_nat s) ys) s)
    by (rewrite length_take; lia).
  apply list_fmap_ext. intros k i Hi%lookup_seqZ.
  rewrite !rd_take by lia. reflexivity.
Qed.

End DotPrefix.

(** [X21] When worker [f] is the first whose [pthread_create] fails,
    [dt_mt] still returns 0, and the output cell receives only the partial
    sums of the workers before [f]: in exact arithmetic, the sum of the
    products [x[i] * y[i]] over the indices below the first index of
    worker [f], not the dot product of the whole vectors. *)
Theorem dt_mt_partial_start {F : Type} `{ExactScalar F} (e : Env)
    (x y : Vec F) (xs ys : list F) (out : F) (n f : Z) :
  g_stop e = false -> ths_ok e = true -> jobs_ok e = true ->
  first_failure e f -> 0 <= f < n -> n <= INT_MAX ->
  v_data x = Some xs -> v_data y = Some ys ->
  Z.of_nat (length xs) = len x -> Z.of_nat (length ys) = len y ->
  len x = len y -> len x <= SIZE_MAX ->
  dt_mt e x y out n
  = (0, dot_seq (take (Z.to_nat (fst (row_range (len x) f n))) xs)
          (take (Z.to_nat (fst (row_range (len x) f n))) ys)).
Proof.
  intros Hstop Hths Hjobs Hff Hf Hn Hx Hy Hlx Hly Hxy Hmax.
  unfold dt_mt. rewrite Hx, Hy.
  rewrite neqb_false, scratch_granted_test by done.
  replace (if n <=? 0 then 1 else n) with n
    by (destruct (Z.leb_spec n 0); lia).
  unfold dt_worker. rewrite Hx, Hy. cbn [cells default].
  transitivity
    (0, run_workers e n
          (fun t => for_rows (g_stop e) (range_rows (len x) t n)
                      (fun i s => add s (mul (rd xs i) (rd ys i)))) zero).
  { f_equal. unfold run_workers.
    apply (fold_left_ext_in _
             (fun t s =>
                add s (for_rows (g_stop e) (range_rows (len x) t n)
                         (fun i s => add s (mul (rd xs i) (rd ys i))) zero))).
    intros t s _. apply partial_continues. }
  rewrite (run_workers_partial e (len x) n f) by (done || lia).
  pose proof (first_row_bounds (len x) n f ltac:(lia) ltac:(lia) Hf) as Hs.
  set (s := fst (row_range (len x) f n)) in *.
  rewrite Hstop, for_rows_false, fold_left_add_map.
  unfold dot_seq. do 2 f_equal.
  apply products_prefix; lia.
Qed.

Lemma dt_mt_partial_start_witness :
  dt_mt (fails_at 2) (vecZ [1; 2; 3]) (vecZ [4; 5; 6]) 7 3 = (0, 14).
Proof.
  rewrite (dt_mt_partial_start (fails_at 2) (vecZ [1; 2; 3])
             (vecZ [4; 5; 6]) [1; 2; 3] [4; 5; 6] 7 3 2);
    [reflexivity | reflexivity | reflexivity | reflexivity
    | apply first_failure_fails_at; lia | lia | unfold INT_MAX; lia
    | reflexivity | reflexivity | reflexivity | reflexivity | reflexivity
    | cbn; unfold SIZE_MAX; lia].
Defined.

(** * Operation names *)

(** [X22] For every operation other than [OP_NONE], [parse_op] accepts
    exactly the name [op_name] prints: a string parses to that operation
    if and only if it is that name.  The name printed for [OP_NONE],
    like the null pointer, parses to [OP_NONE]. *)
Theorem parse_op_op_name (s : string) (op : Op) :
  (op <> OP_NONE -> (parse_op (Some s) = op <-> s = op_name op)) /\
  parse_op (Some (op_name OP_NONE)) = OP_NONE /\
  parse_op None = OP_NONE.
Proof.
  split_and!; [|done..].
  intros Hop. split.
  - intros <-. revert Hop. unfold parse_op.
    destruct (String.eqb_spec s "mm"%string) as [-> | ?]; [done|].
    destruct (String.eqb_spec s "mv"%string) as [-> | ?]; [done|].
    destruct (String.eqb_spec s "dot"%string) as [-> | ?]; [done|].
    destruct (String.eqb_spec s "axpy"%string) as [-> | ?]; [done|].
    destruct (String.eqb_spec s "all"%string) as [-> | ?]; [done|].
    done.
  - intros ->. by destruct op.
Qed.

Lemma parse_op_op_name_witness :
  parse_op (Some "axpy"%string) = OP_AXPY <-> "axpy"%string = op_name OP_AXPY.
Proof.
  destruct (parse_op_op_name "axpy"%string OP_AXPY) as (Hp & _).
  by apply Hp.
Defined.

(** ** Sample runs *)

Example row_range_10_4 :
  map (fun t => row_range 10 t 4) [0; 1; 2; 3] = [(0, 3); (3, 6); (6, 8); (8, 10)].
Proof. reflexivity. Qed.

Example mm_example_tiled :
  mm_mt calm (mkMat 2 2 (Some [1; 2; 3; 4])) (mkMat 2 2 (Some [5; 6; 7; 8]))
        (mkMat 2 2 (Some [9; 9; 9; 9])) (mkKCfg 2 1)
  = (0, mkMat 2 2 (Some [19; 22; 43; 50])).
Proof. reflexivity. Qed.

(** A worker that fails to start leaves its rows as the clearing left
    them; the call still returns 0. *)
Example mm_example_partial_start :
  mm_mt (mkEnv false true true (fun t => t <? 1))
        (mkMat 2 2 (Some [1; 2; 3; 4])) (mkMat 2 2 (Some [5; 6; 7; 8]))
        (mkMat 2 2 (Some [9; 9; 9; 9])) (mkKCfg 2 0)
  = (0, mkMat 2 2 (Some [19; 22; 0; 0])).
Proof. reflexivity. Qed.

(** With the cancellation flag set no worker advances; the call still
    returns 0. *)
Example ax_example_cancelled :
  ax_mt (mkEnv true true true (fun _ => true)) 2 (vecZ [1; 2; 3])
        (vecZ [10; 20; 30]) 2
  = (0, vecZ [10; 20; 30]).
Proof. reflexivity. Qed.

(** The checked embedding reports an access outside a block: here [y]
    announces three cells and has two. *)
Example ax_example_fault :
  ax_mt_ck calm 2 (vecZ [1; 2; 3]) (mkVec 3 (Some [10; 20])) 1 = None.
Proof. reflexivity. Qed.

(** The same kernels on doubles. *)
Example ax_example_double :
  ax_mt calm 2%float (vecD [1; 2; 3]%float) (vecD [10; 20; 30]%float) 2
  = (0, vecD [12; 24; 36]%float).
Proof. reflexivity. Qed.

Example dt_example_double :
  map (fun k => dt_mt calm (vecD [1; 2; 3]%float) (vecD [4; 5; 6]%float)
                  0%float k) [1; 2; 3; 4; 7]
  = [(0, 32%float); (0, 32%float); (0, 32%float); (0, 32%float);
     (0, 32%float)].
Proof. reflexivity. Qed.
